(** * The collection loop of the agent and the IBM WAS check

    A shallow embedding of [AgentRunner] (agent.py) and of [IbmWasCheck]
    (checks/bundled/ibm_was/datadog_checks/ibm_was/ibm_was.py), with the
    properties of the loop, of the error paths of the check and of the
    walk over the statistics document.

    Python objects become records, methods become computations in a small
    monad that threads the object ([self]), collects the calls made to the
    outside (log lines, submitted samples, calls to collaborators) and
    carries a raised exception.  Collaborators whose code is elsewhere
    (the serializer, the collector, [requests], [lxml]) answer through a
    record of outcomes, one per call site. *)

From Stdlib Require Import ZArith String Ascii List Bool Lia.
Import ListNotations.

Local Open Scope string_scope.
Local Open Scope list_scope.

(** ** Exceptions and results *)

(** The exception classes the two files name or can meet.  [ParseError] is
    [xml.etree.ElementTree.ParseError], the class ibm_was.py imports for
    its handler; [XMLSyntaxError] is the class of [lxml.etree];
    [ConnectionError] and [HTTPError] are those of [requests], [Timeout] a
    [requests] timeout that is not a connection error. *)
Inductive ExcClass : Type :=
| HTTPError
| ConnectionError
| Timeout
| ParseError
| XMLSyntaxError
| ValueError
| KeyError
| TypeError
| RuntimeError.

Definition ExcClass_eqb (a b : ExcClass) : bool :=
  match a, b with
  | HTTPError, HTTPError | ConnectionError, ConnectionError
  | Timeout, Timeout | ParseError, ParseError
  | XMLSyntaxError, XMLSyntaxError | ValueError, ValueError
  | KeyError, KeyError | TypeError, TypeError
  | RuntimeError, RuntimeError => true
  | _, _ => false
  end.

(** An instance of (a subclass of) Python's [Exception]. *)
Record Exception : Type := mkExc { exc_class : ExcClass; exc_msg : string }.

(** [isinstance(e, classes)] for a tuple of classes of the list above. *)
Definition isinstance (e : Exception) (classes : list ExcClass) : bool :=
  existsb (ExcClass_eqb (exc_class e)) classes.

Inductive result (A : Type) : Type :=
| Return (a : A)
| Raise (e : Exception).
Arguments Return {A} a.
Arguments Raise {A} e.

Definition raised {A} (r : result A) : bool :=
  match r with Return _ => false | Raise _ => true end.

(** ** The monad: object state, calls made, exceptions *)

Module Eff.
Section Eff.
Context {S E : Type}.

(** What a computation leaves: the object after it, the calls it made
    in order, and its value or the exception it raised.  The calls made
    before an exception stay made. *)
Record Out (A : Type) : Type :=
  mkOut { state : S; events : list E; res : result A }.
Arguments mkOut {A}.
Arguments state {A}.
Arguments events {A}.
Arguments res {A}.

Definition M (A : Type) : Type := S -> Out A.

Definition ret {A} (a : A) : M A := fun s => mkOut s [] (Return a).

Definition bind {A B} (m : M A) (f : A -> M B) : M B :=
  fun s =>
    let o := m s in
    match res o with
    | Return a =>
        let o' := f a (state o) in
        mkOut (state o') (events o ++ events o') (res o')
    | Raise e => mkOut (state o) (events o) (Raise e)
    end.

Definition raise {A} (e : Exception) : M A := fun s => mkOut s [] (Raise e).

Definition emit (ev : E) : M unit := fun s => mkOut s [ev] (Return tt).

Definition get : M S := fun s => mkOut s [] (Return s).

Definition put (s' : S) : M unit := fun _ => mkOut s' [] (Return tt).

(** [try: m except classes as e: h e]; [None] stands for a handler that
    names [Exception] itself. *)
Definition try_except {A} (m : M A) (classes : option (list ExcClass))
           (h : Exception -> M A) : M A :=
  fun s =>
    let o := m s in
    match res o with
    | Return a => o
    | Raise e =>
        if match classes with
           | None => true
           | Some cs => isinstance e cs
           end
        then let o' := h e (state o) in
             mkOut (state o') (events o ++ events o') (res o')
        else o
    end.

(** A call to a collaborator: the call is recorded, then its outcome is
    the value or the exception the collaborator answers with. *)
Definition call {A} (ev : E) (r : result A) : M A :=
  fun s => mkOut s [ev] r.

(** [for x in xs: body x] *)
Fixpoint for_each {A} (xs : list A) (body : A -> M unit) : M unit :=
  match xs with
  | [] => ret tt
  | x :: rest => bind (body x) (fun _ => for_each rest body)
  end.

(** A computation that leaves the object as it found it. *)
Definition keeps_state {A} (m : M A) : Prop := forall s, state (m s) = s.
End Eff.
Arguments Out : clear implicits.
Arguments M : clear implicits.
Arguments mkOut {S E A}.
Arguments state {S E A}.
Arguments events {S E A}.
Arguments res {S E A}.
End Eff.

Import Eff.

Declare Scope eff_scope.
Delimit Scope eff_scope with eff.
Notation "x <- m ;; k" := (bind m (fun x => k))
  (at level 61, m at next level, right associativity) : eff_scope.
Notation "m ;; k" := (bind m (fun _ => k))
  (at level 61, right associativity) : eff_scope.

(** ** agent.py: [AgentRunner] *)

Module Agent.

Definition AGENT_VERSION : string := "1.1.2".

Section Runner.
(** The payload [get_metadata] builds; the metadata module is elsewhere. *)
Variable Metadata : Type.

(** The two options of the configuration object the runner reads.  The
    interval of the sleep is what [config.get] gives: [None] when the
    option is not set, a number of seconds of either sign otherwise. *)
Record Config : Type := mkConfig {
  host_metadata_interval : Z;
  min_collection_interval : option Z }.

(** The fields of [AgentRunner.__init__]; [_event] is whether the
    [threading.Event] is set.  The collector and the serializer answer
    through [World]. *)
Record AgentRunner : Type := mkRunner {
  _config : Config;
  _event : bool;
  _meta_ts : option Z }.

Definition __init__ (config : Config) : AgentRunner :=
  mkRunner config false None.

(** What the outside answers during one pass of the loop body:
    the monotonic clock (in ticks of the clock), and the outcome of each
    call the body makes. *)
Record World : Type := mkWorld {
  time_monotonic : Z;
  get_hostname : result string;
  get_metadata : string -> string -> bool -> result Metadata;
  submit_metadata : Metadata -> result unit;
  run_checks : result unit;
  serialize_and_push : result unit }.

Inductive Event : Type :=
| GetHostname
| GetMetadata (hostname version : string) (start_event : bool)
| SubmitMetadata (metadata : Metadata)
| RunChecks
| SerializeAndPush
| LogException (msg : string) (e : Exception)
| LogInfo (msg : string)
| Sleep (seconds : Z).

Local Open Scope eff_scope.
Local Open Scope Z_scope.

Definition is_None {A} (o : option A) : bool :=
  match o with None => true | Some _ => false end.

(** [self._meta_ts is None or
     (current_ts - self._meta_ts) >= self._config.get('host_metadata_interval')] *)
Definition metadata_due (self : AgentRunner) (current_ts : Z) : bool :=
  match _meta_ts self with
  | None => true
  | Some ts => host_metadata_interval (_config self) <=? current_ts - ts
  end.

Definition set_meta_ts (ts : Z) : M AgentRunner Event unit :=
  self <- get ;;
  put (mkRunner (_config self) (_event self) (Some ts)).

(** The body of the [try] of [collection]. *)
Definition try_body (w : World) : M AgentRunner Event unit :=
  let current_ts := time_monotonic w in
  self <- get ;;
  (if metadata_due self current_ts then
     hostname <- call GetHostname (get_hostname w) ;;
     let start_event := is_None (_meta_ts self) in
     metadata <- call (GetMetadata hostname AGENT_VERSION start_event)
                      (get_metadata w hostname AGENT_VERSION start_event) ;;
     call (SubmitMetadata metadata) (submit_metadata w metadata) ;;
     set_meta_ts current_ts
   else ret tt) ;;
  call RunChecks (run_checks w) ;;
  call SerializeAndPush (serialize_and_push w).

(** [try: ... except Exception: log.exception(...)] *)
Definition guarded_body (w : World) : M AgentRunner Event unit :=
  try_except (try_body w) None
    (fun e => emit (LogException "Unexpected error in last collection run" e)).

(** [time.sleep(secs)]: a [TypeError] for [None], a [ValueError] for a
    negative length, the sleep otherwise. *)
Definition time_sleep (secs : option Z) : M AgentRunner Event unit :=
  match secs with
  | None =>
      raise (mkExc TypeError
                   "'NoneType' object cannot be interpreted as an integer")
  | Some n =>
      if n <? 0
      then raise (mkExc ValueError "sleep length must be non-negative")
      else emit (Sleep n)
  end.

(** [time.sleep(self._config.get('min_collection_interval'))] *)
Definition sleep : M AgentRunner Event unit :=
  self <- get ;;
  time_sleep (min_collection_interval (_config self)).

(** [AgentRunner.stop] *)
Definition stop : M AgentRunner Event unit :=
  emit (LogInfo "Stopping Agent Runner...") ;;
  self <- get ;;
  put (mkRunner (_config self) true (_meta_ts self)).

(** *** The loop, one step at a time

    The thread of the runner is at one of four places: about to test
    the flag of the [while], inside the [try], at the [time.sleep], or
    out of [collection].  It is out of [collection] when the test of the
    flag ended the loop, or when an exception left a statement of the
    loop: nothing in [collection] or in [run] catches it, so it ends the
    thread, and [uncaught] keeps it.  Another thread may call [stop]
    between any two steps. *)
Inductive Place : Type := LoopTop | InTry | AtSleep | Exited.

Record Thread : Type := mkThread {
  self : AgentRunner;
  place : Place;
  trace : list Event;
  uncaught : option Exception }.

(** The thread after the statement [m] of the loop: at [next] when [m]
    returns, out of [collection] with the exception when [m] raises. *)
Definition advance (t : Thread) (m : M AgentRunner Event unit)
           (next : Place) : Thread :=
  let o := m (self t) in
  match res o with
  | Return _ => mkThread (state o) next (trace t ++ events o) (uncaught t)
  | Raise e => mkThread (state o) Exited (trace t ++ events o) (Some e)
  end.

(** The thread after another thread ran the method [m] of the runner:
    the place of the runner's own thread is not touched. *)
Definition called (t : Thread) (m : M AgentRunner Event unit) : Thread :=
  let o := m (self t) in
  mkThread (state o) (place t) (trace t ++ events o) (uncaught t).

(** One step of [collection] against the answers [w] of the outside. *)
Definition step (w : World) (t : Thread) : Thread :=
  match place t with
  | LoopTop =>
      if _event (self t)
      then mkThread (self t) Exited (trace t) (uncaught t)
      else mkThread (self t) InTry (trace t) (uncaught t)
  | InTry => advance t (guarded_body w) AtSleep
  | AtSleep => advance t sleep LoopTop
  | Exited => t
  end.

Inductive Action : Type :=
| Tick (w : World)      (* the runner thread takes its next step *)
| CallStop.             (* another thread calls [stop()] *)

Definition act (a : Action) (t : Thread) : Thread :=
  match a with
  | Tick w => step w t
  | CallStop => called t stop
  end.

Definition exec (schedule : list Action) (t : Thread) : Thread :=
  fold_left (fun t a => act a t) schedule t.

(** One pass of the loop from the test of the flag to the end of the
    sleep, undisturbed. *)
Definition cycle (w : World) : list Action := [Tick w; Tick w; Tick w].

(** [AgentRunner.run], at the moment the thread enters [collection]. *)
Definition run (r : AgentRunner) : Thread :=
  mkThread r LoopTop [LogInfo "Starting Agent Runner..."] None.

(** [join()] returns when the thread has left [collection], by the test
    of the flag or by an exception. *)
Definition joined (t : Thread) : bool :=
  match place t with Exited => true | _ => false end.

Definition is_Tick (a : Action) : bool :=
  match a with Tick _ => true | CallStop => false end.

Definition is_Sleep (e : Event) : bool :=
  match e with Sleep _ => true | _ => false end.

Definition is_SubmitMetadata (e : Event) : bool :=
  match e with SubmitMetadata _ => true | _ => false end.

Definition is_GetMetadata (e : Event) : bool :=
  match e with GetMetadata _ _ _ => true | _ => false end.

Definition log_line : string := "Unexpected error in last collection run".

(** The events of a pass that are work of the loop, not log lines of
    [run] and [stop]. *)
Definition is_work (e : Event) : bool :=
  match e with LogInfo _ => false | _ => true end.

Definition work (tr : list Event) : list Event := filter is_work tr.

Definition is_RunChecks (e : Event) : bool :=
  match e with RunChecks => true | _ => false end.

Definition count (p : Event -> bool) (tr : list Event) : nat :=
  length (filter p tr).

(** The metadata part of a pass raises [e]: one of the three calls it
    makes does, the earlier ones having returned.  [start_event] is the
    flag the pass builds the payload with. *)
Definition metadata_raises (w : World) (start_event : bool) (e : Exception)
  : Prop :=
  get_hostname w = Raise e \/
  (exists h, get_hostname w = Return h /\
             get_metadata w h AGENT_VERSION start_event = Raise e) \/
  (exists h m, get_hostname w = Return h /\
               get_metadata w h AGENT_VERSION start_event = Return m /\
               submit_metadata w m = Raise e).

Definition metadata_failed (w : World) (start_event : bool) : Prop :=
  exists e, metadata_raises w start_event e.

(** The metadata part of a pass lets the pass go on: it is not due, or
    its three calls return. *)
Definition metadata_passes (w : World) (r : AgentRunner) : Prop :=
  metadata_due r (time_monotonic w) = false \/
  exists h m,
    get_hostname w = Return h /\
    get_metadata w h AGENT_VERSION (is_None (_meta_ts r)) = Return m /\
    submit_metadata w m = Return tt.

(** The steps the thread still takes before it is out of the loop once
    the flag is set. *)
Definition steps_left (p : Place) : nat :=
  match p with InTry => 3 | AtSleep => 2 | LoopTop => 1 | Exited => 0 end.

(** What a thread whose flag is set can still add to its trace. *)
Definition sleeps_left (p : Place) : nat :=
  match p with InTry | AtSleep => 1 | _ => 0 end.
Definition passes_left (p : Place) : nat :=
  match p with InTry => 1 | _ => 0 end.

(** The thread [t] with the flag of its runner at [b]. *)
Definition with_event (b : bool) (t : Thread) : Thread :=
  mkThread (mkRunner (_config (self t)) b (_meta_ts (self t)))
           (place t) (trace t) (uncaught t).

(** The interval of the configuration is one [time.sleep] accepts:
    [secs] seconds, not negative. *)
Definition sleeps_for (cfg : Config) (secs : Z) : Prop :=
  min_collection_interval cfg = Some secs /\ 0 <= secs.

(** The sentence on faults as the specification has it, for the first
    pass of a new runner: what the body raises is logged, the delay
    elapses once, and the thread is back at the test of the flag for
    the next pass. *)
Definition isolation_as_stated (cfg : Config) (w : World) : Prop :=
  let t := run (__init__ cfg) in
  let t' := exec (cycle w) t in
  forall e,
    res (try_body w (self t)) = Raise e ->
    In (LogException log_line e) (trace t') /\
    count is_Sleep (trace t') = 1%nat /\
    place t' = LoopTop.

End Runner.

Arguments World Metadata : clear implicits.
Arguments Event Metadata : clear implicits.
Arguments Thread Metadata : clear implicits.
Arguments Action Metadata : clear implicits.
Arguments mkWorld {Metadata}.
Arguments GetHostname {Metadata}.
Arguments GetMetadata {Metadata}.
Arguments SubmitMetadata {Metadata}.
Arguments RunChecks {Metadata}.
Arguments SerializeAndPush {Metadata}.
Arguments LogException {Metadata}.
Arguments LogInfo {Metadata}.
Arguments Sleep {Metadata}.
Arguments mkThread {Metadata}.
Arguments self {Metadata}.
Arguments place {Metadata}.
Arguments trace {Metadata}.
Arguments uncaught {Metadata}.
Arguments Tick {Metadata}.
Arguments CallStop {Metadata}.
Arguments time_monotonic {Metadata}.
Arguments get_hostname {Metadata}.
Arguments get_metadata {Metadata}.
Arguments submit_metadata {Metadata}.
Arguments run_checks {Metadata}.
Arguments serialize_and_push {Metadata}.
Arguments set_meta_ts {Metadata}.
Arguments try_body {Metadata}.
Arguments guarded_body {Metadata}.
Arguments time_sleep {Metadata}.
Arguments sleep {Metadata}.
Arguments stop {Metadata}.
Arguments advance {Metadata}.
Arguments called {Metadata}.
Arguments step {Metadata}.
Arguments act {Metadata}.
Arguments exec {Metadata}.
Arguments cycle {Metadata}.
Arguments run {Metadata}.
Arguments joined {Metadata}.
Arguments is_Tick {Metadata}.
Arguments is_Sleep {Metadata}.
Arguments is_SubmitMetadata {Metadata}.
Arguments is_GetMetadata {Metadata}.
Arguments is_work {Metadata}.
Arguments work {Metadata}.
Arguments is_RunChecks {Metadata}.
Arguments count {Metadata}.
Arguments metadata_failed {Metadata}.
Arguments metadata_raises {Metadata}.
Arguments metadata_passes {Metadata}.
Arguments with_event {Metadata}.
Arguments isolation_as_stated {Metadata}.

End Agent.

(** ** Python dictionaries and small helpers *)

(** A [dict] with string keys, in insertion order as Python keeps it. *)
Definition dict (V : Type) : Type := list (string * V).

(** [d.get(k)] *)
Fixpoint dict_get {V} (k : string) (d : dict V) : option V :=
  match d with
  | [] => None
  | (k', v) :: rest => if String.eqb k k' then Some v else dict_get k rest
  end.

(** [d[k] = v]: an existing key keeps its place, a new key goes last. *)
Fixpoint dict_set {V} (k : string) (v : V) (d : dict V) : dict V :=
  match d with
  | [] => [(k, v)]
  | (k', v') :: rest =>
      if String.eqb k k' then (k', v) :: rest else (k', v') :: dict_set k v rest
  end.

(** [dict(base, **extra)] *)
Definition dict_merge {V} (base extra : dict V) : dict V :=
  fold_left (fun d kv => dict_set (fst kv) (snd kv) d) extra base.

Definition dict_keys {V} (d : dict V) : list string := map fst d.

(** [x in xs] for a list or a set of strings. *)
Definition str_in (x : string) (xs : list string) : bool :=
  existsb (String.eqb x) xs.

(** ['{}'.format(x)] where [x] is a string or [None]. *)
Definition format_opt (x : option string) : string :=
  match x with Some s => s | None => "None" end.

(** Python truth of a string or [None]. *)
Definition str_truthy (x : option string) : bool :=
  match x with
  | Some s => negb (String.eqb s EmptyString)
  | None => false
  end.

(** ** ibm_was.py: [IbmWasCheck] *)

Module IbmWas.

(** *** The parsed document *)

(** An element of the parsed document: [e.tag], the attributes read by
    [e.get(name)], and the children [for child in e] goes through. *)
#[warnings="-register-all"] Inductive Element : Type :=
| Elem (tag : string) (attrib : dict string) (children : list Element).

Definition tag (e : Element) : string :=
  match e with Elem t _ _ => t end.
Definition children (e : Element) : list Element :=
  match e with Elem _ _ cs => cs end.
(** [e.get(name)] *)
Definition attr (e : Element) (name : string) : option string :=
  match e with Elem _ a _ => dict_get name a end.

(** [xml_data.findall(path)] for a path that is a bare tag: the direct
    children with that tag. *)
Definition findall (xml_data : Element) (path : string) : list Element :=
  filter (fun c => String.eqb (tag c) path) (children xml_data).

(** All elements below [e], in document order. *)
Fixpoint descendants (e : Element) : list Element :=
  match e with
  | Elem _ _ cs => flat_map (fun c => c :: descendants c) cs
  end.

Definition is_xml_space (c : ascii) : bool :=
  match c with
  | " "%char | "009"%char | "010"%char | "013"%char => true
  | _ => false
  end.

(** XPath [normalize-space]: leading and trailing white space dropped,
    inner runs of white space replaced by one space.  [pending] says that
    a run of white space was passed after some text. *)
Fixpoint normalize_space_from (started pending : bool) (s : string) : string :=
  match s with
  | EmptyString => EmptyString
  | String c rest =>
      if is_xml_space c then normalize_space_from started started rest
      else if pending
           then String " "%char (String c (normalize_space_from true false rest))
           else String c (normalize_space_from true false rest)
  end.

Definition normalize_space (s : string) : string :=
  normalize_space_from false false s.

(** [xml_data.xpath('.//Stat[normalize-space(@name)="{}"]'.format(path))],
    for a [path] without a double quote; an absent [name] attribute is the
    empty string there. *)
Definition xpath_stat_named (xml_data : Element) (path : string) : list Element :=
  filter (fun e =>
            String.eqb (tag e) "Stat" &&
            String.eqb (normalize_space (match attr e "name" with
                                         | Some n => n
                                         | None => EmptyString
                                         end)) path)
         (descendants xml_data).

(** *** What the check hands to its host *)

Inductive Kind : Type := GAUGE | MONOTONIC_COUNT | RATE.

(** [AgentCheck.OK], [AgentCheck.CRITICAL]. *)
Inductive Status : Type := OK | CRITICAL.

(** A submitted value: the integer of the connection gauge, or an
    attribute of a statistic as read ([None] when the attribute is absent). *)
Inductive Value : Type :=
| VInt (n : Z)
| VAttr (a : option string).

Inductive Event : Type :=
| Submit (kind : Kind) (name : string) (value : Value) (tags : list string)
| ServiceCheck (name : string) (status : Status) (tags : list string)
| Warning (msg : string)
| LogError (msg : string)
| LogDebug (msg : string).

(** *** Configuration *)

(** A value of the instance mapping, as the YAML loader gives it. *)
Inductive PyVal : Type :=
| PyNone
| PyBool (b : bool)
| PyInt (n : Z)
| PyStr (s : string).

(** One entry of [custom_queries]: the keys the check reads. *)
Record Query : Type := mkQuery {
  q_stat : option string;
  q_metric_prefix : option string;
  q_tag_keys : option (list string) }.

(** The options of the instance the part of the check modelled here reads
    ([username], [password] and the [tls_*] options only shape the
    arguments of [requests.get], whose outcome is given by [World]). *)
Record Instance : Type := mkInstance {
  servlet_url : option string;
  custom_queries : list Query;
  custom_queries_units_gauge : list string;
  tags : list string;
  options : dict PyVal }.

(** The modules the check imports and whose code is elsewhere: the tables
    of [metrics], [validation.validate_query], [utils.util._is_affirmative]
    and [AgentCheck.normalize(metric, prefix=..., fix_case=True)]. *)
Record Deps : Type := mkDeps {
  METRIC_VALUE_FIELDS : dict string;
  CATEGORY_FIELDS : list string;
  NESTED_TAGS : dict (list string);
  METRIC_CATEGORIES : dict string;
  validate_query : Query -> result unit;
  _is_affirmative : PyVal -> bool;
  normalize : string -> string -> string }.

Definition SERVICE_CHECK_CONNECT : string := "ibm_was.can_connect".
Definition METRIC_PREFIX : string := "ibm_was".

(** [self.metric_type_mapping], with the submission method replaced by the
    kind of sample it submits. *)
Definition metric_type_mapping : dict Kind :=
  [ ("AverageStatistic", GAUGE);
    ("BoundedRangeStatistic", GAUGE);
    ("CountStatistic", MONOTONIC_COUNT);
    ("DoubleStatistic", RATE);
    ("RangeStatistic", GAUGE);
    ("TimeStatistic", GAUGE) ].

Record IbmWasCheck : Type := mkCheck {
  instance : Instance;
  url : option string;
  custom_tags : list string;
  units_gauge : list string;      (* self.custom_queries_units_gauge *)
  collect_stats : dict bool;
  nested_tags : dict (list string);
  metric_categories : dict string;
  custom_stats : list string;
  service_check_tags : list string }.

(** What the outside answers during one run of [check]: the outcome of
    [requests.get(self.url, **self.http_options)], with the outcome of
    [raise_for_status()] on the response and its [content], and what
    [etree.fromstring] does on a given content. *)
Record Response : Type := mkResponse {
  raise_for_status : result unit;
  content : string }.

Record World : Type := mkWorld {
  requests_get : result Response;
  fromstring : string -> result Element }.

Section Check.
Variable deps : Deps.

(** [setup_configured_stats] *)
Definition setup_configured_stats (inst : Instance) : dict bool :=
  fold_left
    (fun collect cp =>
       let '(category, prefix) := cp in
       let opt := match dict_get ("collect_" ++ prefix ++ "_stats") (options inst) with
                  | Some v => v
                  | None => PyBool true
                  end in
       if _is_affirmative deps opt then dict_set category true collect else collect)
    (METRIC_CATEGORIES deps) [].

(** The three dictionaries the loop of [append_custom_queries] fills:
    [custom_recursion_tags], [custom_metric_categories] and
    [self.collect_stats]. *)
Definition Custom : Type := (dict (list string) * dict string * dict bool)%type.

(** One pass of the loop of [append_custom_queries]. *)
Definition append_one (acc : Custom) (query : Query) : result Custom :=
  let '(custom_recursion_tags, custom_metric_categories, collect) := acc in
  match validate_query deps query with
  | Raise e => Raise e
  | Return _ =>
      match q_metric_prefix query, q_stat query with
      | None, _ => Raise (mkExc KeyError "metric_prefix")
      | Some _, None => Raise (mkExc KeyError "stat")
      | Some metric_prefix, Some stat =>
          let tag_keys := match q_tag_keys query with
                          | Some ks => ks
                          | None => []
                          end in
          Return (dict_set metric_prefix tag_keys custom_recursion_tags,
                  dict_set stat metric_prefix custom_metric_categories,
                  dict_set stat true collect)
      end
  end.

Fixpoint append_loop (queries : list Query) (acc : Custom) : result Custom :=
  match queries with
  | [] => Return acc
  | query :: rest =>
      match append_one acc query with
      | Raise e => Raise e
      | Return acc' => append_loop rest acc'
      end
  end.

(** [append_custom_queries]: the merged [nested_tags] and
    [metric_categories], and [self.collect_stats] as the loop leaves it. *)
Definition append_custom_queries (queries : list Query) (collect : dict bool)
  : result Custom :=
  match append_loop queries ([], [], collect) with
  | Raise e => Raise e
  | Return (custom_recursion_tags, custom_metric_categories, collect') =>
      Return (dict_merge (NESTED_TAGS deps) custom_recursion_tags,
              dict_merge (METRIC_CATEGORIES deps) custom_metric_categories,
              collect')
  end.

(** [IbmWasCheck.__init__], up to the HTTP options. *)
Definition __init__ (inst : Instance) : result IbmWasCheck :=
  let collect := setup_configured_stats inst in
  match append_custom_queries (custom_queries inst) collect with
  | Raise e => Raise e
  | Return (nested, categories, collect') =>
      Return (mkCheck inst
                      (servlet_url inst)
                      (tags inst)
                      (custom_queries_units_gauge inst)
                      collect'
                      nested
                      categories
                      (dict_keys nested)
                      (tags inst ++ [("url:" ++ format_opt (servlet_url inst))%string]))
  end.
Local Open Scope eff_scope.

Definition Check (A : Type) : Type := M IbmWasCheck Event A.

(** The value of a collaborator's call inside the monad. *)
Definition lift {A} (r : result A) : Check A :=
  match r with
  | Return a => ret a
  | Raise e => raise e
  end.

(** [d[k]], raising [KeyError] on a missing key. *)
Definition subscript {V} (d : dict V) (k : string) : Check V :=
  match dict_get k d with
  | Some v => ret v
  | None => raise (mkExc KeyError k)
  end.

(** [self.gauge], [self.monotonic_count] or [self.rate], by kind. *)
Definition submit (kind : Kind) (name : string) (value : Value)
           (tags : list string) : Check unit :=
  emit (Submit kind name value tags).

(** [submit_service_checks] *)
Definition submit_service_checks (value : Status) : Check unit :=
  self <- get ;;
  submit GAUGE SERVICE_CHECK_CONNECT
         (VInt (match value with OK => 1 | CRITICAL => 0 end))
         (service_check_tags self) ;;
  emit (ServiceCheck SERVICE_CHECK_CONNECT value (service_check_tags self)).

(** [make_request] *)
Definition make_request (w : World) : Check string :=
  self <- get ;;
  resp <- try_except
            (resp <- lift (requests_get w) ;;
             lift (raise_for_status resp) ;;
             submit_service_checks OK ;;
             ret resp)
            (Some [HTTPError; ConnectionError])
            (fun e =>
               emit (Warning ("Couldn't connect to URL: " ++ format_opt (url self)
                              ++ " with exception: " ++ exc_msg e
                              ++ ". Please verify the address is reachable")) ;;
               submit_service_checks CRITICAL ;;
               raise e) ;;
  ret (content resp).

(** [get_node_from_name]; [None] is the empty list the method returns
    when nothing matches. *)
Definition get_node_from_name (xml_data : Element) (path : string)
  : Check (option Element) :=
  match xpath_stat_named xml_data path with
  | first :: _ => ret (Some first)
  | [] =>
      emit (Warning ("Error finding " ++ path ++ " stats in XML output.")) ;;
      ret None
  end.

(** [get_node_from_root] *)
Definition get_node_from_root (xml_data : Element) (path : string)
  : list Element :=
  findall xml_data path.

(** [child.get('unit') in self.custom_queries_units_gauge] *)
Definition unit_in_gauge_units (self : IbmWasCheck) (child : Element) : bool :=
  match attr child "unit" with
  | Some u => str_in u (units_gauge self)
  | None => false
  end.

(** The key [submit_metrics] looks up in [metric_type_mapping]. *)
Definition dispatch_tag (self : IbmWasCheck) (child : Element)
           (prefix : string) : string :=
  if unit_in_gauge_units self child
     && str_in prefix (custom_stats self)
     && String.eqb (tag child) "CountStatistic"
  then "TimeStatistic"
  else tag child.

(** [submit_metrics]; [ensure_text] raises [TypeError] on [None]. *)
Definition submit_metrics (child : Element) (prefix : string)
           (tags : list string) : Check unit :=
  self <- get ;;
  field <- subscript (METRIC_VALUE_FIELDS deps) (tag child) ;;
  let value := VAttr (attr child field) in
  name <- match attr child "name" with
          | Some n => ret n
          | None => raise (mkExc TypeError "not expecting type NoneType")
          end ;;
  let metric_name := normalize deps name (METRIC_PREFIX ++ "." ++ prefix) in
  kind <- subscript metric_type_mapping (dispatch_tag self child prefix) ;;
  submit kind metric_name value tags ;;
  if String.eqb prefix "jvm"
  then submit GAUGE (metric_name ++ "_gauge") value tags
  else ret tt.

(** The tags [process_stats] recurses with under a category child. *)
Definition recursion_tags (self : IbmWasCheck) (child : Element)
           (prefix : string) (tags : list string) (recursion_level : nat)
  : list string :=
  match dict_get prefix (nested_tags self) with
  | Some tag_list =>
      if negb (Nat.eqb (length tag_list) 0)
         && Nat.ltb recursion_level (length tag_list)
      then tags ++ [(nth recursion_level tag_list EmptyString ++ ":"
                     ++ format_opt (attr child "name"))%string]
      else tags
  | None => tags
  end.

(** The body of the loop of [process_stats] for one child; the inner
    loop is the recursive call [self.process_stats(child, ...)]. *)
Fixpoint process_child (prefix : string) (tags : list string)
         (recursion_level : nat) (child : Element) {struct child} : Check unit :=
  match child with
  | Elem child_tag _ grandchildren =>
      if str_in child_tag (dict_keys (METRIC_VALUE_FIELDS deps)) then
        submit_metrics child prefix tags
      else if str_in child_tag (CATEGORY_FIELDS deps) then
        self <- get ;;
        let rtags := recursion_tags self child prefix tags recursion_level in
        (fix loop (cs : list Element) : Check unit :=
           match cs with
           | [] => ret tt
           | c :: rest =>
               process_child prefix rtags (S recursion_level) c ;; loop rest
           end) grandchildren
      else ret tt
  end.

(** What [for child in stats] goes through: the children of an element,
    nothing for the empty list. *)
Definition iter (stats : option Element) : list Element :=
  match stats with
  | Some e => children e
  | None => []
  end.

(** [process_stats] *)
Definition process_stats (stats : option Element) (prefix : string)
           (tags : list string) (recursion_level : nat) : Check unit :=
  for_each (iter stats) (process_child prefix tags recursion_level).

(** The part of [check] after a successful parse. *)
Definition walk_document (server_data_xml : Element) : Check unit :=
  self <- get ;;
  let node_list := get_node_from_root server_data_xml "Node" in
  for_each node_list (fun node =>
    let server_list := get_node_from_root node "Server" in
    let node_tags :=
      custom_tags self ++ [("node:" ++ format_opt (attr node "name"))%string] in
    for_each server_list (fun server =>
      let server_tags :=
        [("server:" ++ format_opt (attr server "name"))%string] ++ node_tags in
      for_each (metric_categories self) (fun cp =>
        let '(category, prefix) := cp in
        emit (LogDebug ("Collecting " ++ category ++ " stats")) ;;
        match dict_get category (collect_stats self) with
        | Some true =>
            stats <- get_node_from_name server category ;;
            process_stats stats prefix server_tags 0
        | _ => ret tt
        end))).

(** The [try] of [check] around [etree.fromstring]; the handler returns
    from the method, which is the [None] here. *)
Definition parse_document (w : World) (data : string)
  : Check (option Element) :=
  try_except
    (server_data_xml <- lift (fromstring w data) ;;
     ret (Some server_data_xml))
    (Some [ParseError])
    (fun e =>
       submit_service_checks CRITICAL ;;
       emit (LogError ("Unable to parse the XML response: " ++ exc_msg e)) ;;
       ret None).

(** [check] *)
Definition check (w : World) : Check unit :=
  self <- get ;;
  if negb (str_truthy (url self)) then
    raise (mkExc ValueError "Please specify a servlet_url in the configuration file")
  else
    data <- make_request w ;;
    parsed <- parse_document w data ;;
    match parsed with
    | None => ret tt
    | Some server_data_xml => walk_document server_data_xml
    end.

(** The samples among the calls of a run. *)
Definition samples (evs : list Event) : list Event :=
  filter (fun ev => match ev with Submit _ _ _ _ => true | _ => false end) evs.

Definition service_checks (evs : list Event) : list Event :=
  filter (fun ev => match ev with ServiceCheck _ _ _ => true | _ => false end) evs.

(** *** Vocabulary of the properties *)

(** The last entry of [custom_queries] whose [key] is [k]. *)
Fixpoint last_query (key : Query -> option string) (k : string)
         (queries : list Query) : option Query :=
  match queries with
  | [] => None
  | q :: rest =>
      match last_query key k rest with
      | Some q' => Some q'
      | None =>
          match key q with
          | Some k' => if String.eqb k k' then Some q else None
          | None => None
          end
      end
  end.

(** [query.get('tag_keys', [])] *)
Definition tag_keys_of (q : Query) : list string :=
  match q_tag_keys q with Some ks => ks | None => [] end.

(** The fetch fails with [e]: [requests.get] raises it, or
    [raise_for_status] does. *)
Definition fetch_fails (w : World) (e : Exception) : Prop :=
  requests_get w = Raise e \/
  exists resp, requests_get w = Return resp /\ raise_for_status resp = Raise e.

(** The fetch succeeds with the document [data]. *)
Definition fetched (w : World) (data : string) : Prop :=
  exists resp, requests_get w = Return resp /\
               raise_for_status resp = Return tt /\ content resp = data.

(** A child [process_stats] hands to [submit_metrics]. *)
Definition is_leaf (child : Element) : Prop :=
  str_in (tag child) (dict_keys (METRIC_VALUE_FIELDS deps)) = true.

(** A child [process_stats] recurses into. *)
Definition is_category (child : Element) : Prop :=
  str_in (tag child) (dict_keys (METRIC_VALUE_FIELDS deps)) = false /\
  str_in (tag child) (CATEGORY_FIELDS deps) = true.

(** The prefix is the [metric_prefix] of an entry of [custom_queries]. *)
Definition custom_extended (self : IbmWasCheck) (prefix : string) : Prop :=
  exists q, In q (custom_queries (instance self)) /\
            q_metric_prefix q = Some prefix.

(** The kind of the first sample among the calls of a run. *)
Definition first_kind (evs : list Event) : option Kind :=
  match samples evs with
  | Submit k _ _ _ :: _ => Some k
  | _ => None
  end.

(** The sentence on a failed fetch as the specification has it:
    CRITICAL result and no exception out of the check. *)
Definition fetch_failure_as_stated (w : World) (self : IbmWasCheck) : Prop :=
  forall e,
    fetch_fails w e -> isinstance e [HTTPError; ConnectionError] = true ->
    let o := check w self in
    In (ServiceCheck SERVICE_CHECK_CONNECT CRITICAL (service_check_tags self))
       (events o) /\
    raised (res o) = false.

(** The sentence on the gauge exception as the specification has it:
    the three conditions, the third being that the prefix comes from a
    custom query, give GAUGE, and the failure of any of them gives the
    kind of the raw type tag. *)
Definition remap_as_stated (self : IbmWasCheck) (child : Element)
           (prefix : string) (tags : list string) : Prop :=
  forall k,
    is_leaf child -> dict_get (tag child) metric_type_mapping = Some k ->
    let o := submit_metrics child prefix tags self in
    let three :=
      tag child = "CountStatistic" /\ unit_in_gauge_units self child = true /\
      custom_extended self prefix in
    (three -> first_kind (events o) = Some GAUGE) /\
    (~ three -> first_kind (events o) = Some k).
End Check.

End IbmWas.

(** ** Sample inputs *)

Module Samples.
Import IbmWas.

Definition lower (c : ascii) : ascii :=
  let n := nat_of_ascii c in
  if (Nat.leb 65 n && Nat.leb n 90)%bool then ascii_of_nat (n + 32) else c.

Definition is_alnum (c : ascii) : bool :=
  let n := nat_of_ascii c in
  ((Nat.leb 48 n && Nat.leb n 57) || (Nat.leb 65 n && Nat.leb n 90)
   || (Nat.leb 97 n && Nat.leb n 122))%bool.

Fixpoint squash (pending : bool) (s : string) : string :=
  match s with
  | EmptyString => EmptyString
  | String c rest =>
      if is_alnum c
      then if pending
           then String "_"%char (String (lower c) (squash false rest))
           else String (lower c) (squash false rest)
      else squash true rest
  end.

(** Modelled from the spec: [AgentCheck.normalize], whose class is not
    among the sources.  Section 4.3: lower-case, runs of other characters
    collapsed to one separator, prefixed with the namespace root. *)
Definition spec_normalize (metric prefix : string) : string :=
  (prefix ++ "." ++ squash false metric)%string.

(** Modelled from the spec: the tables of the [metrics] module and the
    helpers [validate_query] and [_is_affirmative], none of which is among
    the sources.  Section 8 gives the category [jvm] with the empty list
    of tag keys and [CountStatistic] leaves, section 3 a list of tag keys
    per built-in prefix; the other entries are sample values. *)
Definition spec_deps : Deps :=
  {| METRIC_VALUE_FIELDS :=
       [ ("AverageStatistic", "mean");
         ("BoundedRangeStatistic", "value");
         ("CountStatistic", "count");
         ("DoubleStatistic", "double");
         ("RangeStatistic", "value");
         ("TimeStatistic", "totalTime") ];
     CATEGORY_FIELDS := ["Stat"];
     NESTED_TAGS := [ ("jvm", []); ("thread_pools", ["thread_pool"]) ];
     METRIC_CATEGORIES :=
       [ ("JVM Runtime", "jvm"); ("Thread Pools", "thread_pools") ];
     validate_query := fun _ => Return tt;
     _is_affirmative := fun v =>
       match v with
       | PyBool b => b
       | PyInt n => negb (Z.eqb n 0)
       | PyStr s => String.eqb s "true" || String.eqb s "yes"
       | PyNone => false
       end;
     normalize := spec_normalize |}.

Definition instance0 : Instance :=
  {| servlet_url := Some "http://was:9080/wasPerfTool/servlet/perfservlet";
     custom_queries := [];
     custom_queries_units_gauge := ["unit.kbyte"];
     tags := ["env:dev"];
     options := [] |}.

(** The check built from [instance0]: no custom query. *)
Definition check0 : IbmWasCheck :=
  match __init__ spec_deps instance0 with
  | Return c => c
  | Raise _ => mkCheck instance0 None [] [] [] [] [] [] []
  end.

(** An instance with three custom queries: the first takes over a
    built-in category, the last two name the same category. *)
Definition instance1 : Instance :=
  {| servlet_url := Some "http://was:9080/wasPerfTool/servlet/perfservlet";
     custom_queries :=
       [ mkQuery (Some "JVM Runtime") (Some "my_jvm") None;
         mkQuery (Some "Object Pool") (Some "object_pool") (Some ["implementations"]);
         mkQuery (Some "Object Pool") (Some "pool") (Some ["pool_impl"]) ];
     custom_queries_units_gauge := ["unit.kbyte"];
     tags := [];
     options := [] |}.

(** [<CountStatistic name="requestCount" unit="unit.kbyte" count="7"/>] *)
Definition leaf_count : Element :=
  Elem "CountStatistic"
       [("name", "requestCount"); ("unit", "unit.kbyte"); ("count", "7")] [].

(** A document with one node, one server, the JVM category with one
    counter, and a thread pool with one counter. *)
Definition document : Element :=
  Elem "PerformanceMonitor" []
    [ Elem "Node" [("name", "N1")]
        [ Elem "Server" [("name", "S1")]
            [ Elem "Stat" [("name", "JVM Runtime")] [ leaf_count ];
              Elem "Stat" [("name", "Thread Pools")]
                [ Elem "Stat" [("name", "WebContainer")]
                    [ Elem "CountStatistic"
                           [("name", "CreateCount"); ("unit", "N/A"); ("count", "3")]
                           [] ] ] ] ] ].

(** The tags of the service check of [check0]. *)
Definition sct0 : list string :=
  ["env:dev"; "url:http://was:9080/wasPerfTool/servlet/perfservlet"].

(** What [lxml.etree.fromstring] raises on text that is not well-formed. *)
Definition syntax_error : Exception :=
  mkExc XMLSyntaxError
        "Couldn't find end of Start Tag PerformanceMonitor line 1".

(** The fetch succeeds and the text of the document is cut short. *)
Definition world_malformed : World :=
  {| requests_get := Return (mkResponse (Return tt) "<PerformanceMonitor");
     fromstring := fun _ => Raise syntax_error |}.

Definition world_ok : World :=
  {| requests_get := Return (mkResponse (Return tt) "<PerformanceMonitor/>");
     fromstring := fun _ => Return document |}.

Definition refused : Exception := mkExc ConnectionError "Connection refused".

Definition world_refused : World :=
  {| requests_get := Raise refused;
     fromstring := fun _ => Return document |}.

Definition world_500 : World :=
  {| requests_get :=
       Return (mkResponse (Raise (mkExc HTTPError "500 Server Error")) EmptyString);
     fromstring := fun _ => Return document |}.

(** The loop of the agent: a configuration, and answers of the outside. *)
Definition config0 : Agent.Config :=
  Agent.mkConfig 14400 (Some 15%Z).

(** A configuration whose interval [time.sleep] refuses. *)
Definition config_negative : Agent.Config :=
  Agent.mkConfig 14400 (Some (-1)%Z).

Definition world_at (now : Z) (checks : result unit) : Agent.World string :=
  Agent.mkWorld now (Return "host1")
    (fun h v start => Return (h ++ "/" ++ v ++ (if start then "/start" else EmptyString))%string)
    (fun _ => Return tt) checks (Return tt).

Definition boom : Exception := mkExc RuntimeError "check failed".

Definition world_submit_fails (now : Z) : Agent.World string :=
  Agent.mkWorld now (Return "host1")
    (fun h v start => Return (h ++ "/" ++ v ++ (if start then "/start" else EmptyString))%string)
    (fun _ => Raise boom) (Return tt) (Return tt).

End Samples.

(** ** Words for further properties of computations *)

Module EffWords.
Section Words.
Context {S E : Type}.

(** Every call a computation makes satisfies [P], from any object. *)
Definition emits_only {A} (P : E -> Prop) (m : M S E A) : Prop :=
  forall s, Forall P (events (m s)).

(** The outcome [o] after the calls [evs]. *)
Definition prepend {A} (evs : list E) (o : Out S E A) : Out S E A :=
  mkOut (state o) (evs ++ events o) (res o).

(** [l1] is the beginning of [l2]. *)
Definition begins {X} (l1 l2 : list X) : Prop := exists more, l2 = l1 ++ more.

(** [m] does what [m'] does, or raises after a beginning of the calls
    of [m']. *)
Definition cut_short {A} (m m' : M S E A) : Prop :=
  forall s,
    m s = m' s \/
    ((exists e, res (m s) = Raise e) /\ begins (events (m s)) (events (m' s))).
End Words.
End EffWords.

(** ** ibm_was.py: the HTTP options of [__init__] *)

Module IbmWasHttp.
Import IbmWas.

(** Python truth of a value of the instance. *)
Definition py_truthy (v : PyVal) : bool :=
  match v with
  | PyNone => false
  | PyBool b => b
  | PyInt n => negb (Z.eqb n 0)
  | PyStr s => negb (String.eqb s EmptyString)
  end.

(** [self.instance.get(key)] for the keys kept in [options]. *)
Definition instance_get (inst : Instance) (key : string) : PyVal :=
  match dict_get key (options inst) with
  | Some v => v
  | None => PyNone
  end.

(** The [verify] argument of [requests.get]: [True], [False] or the path
    of a bundle of certificates. *)
Inductive Verify : Type :=
| VerifyTrue
| VerifyFalse
| VerifyBundle (path : string).

(** The [cert] argument: [None], a file, or a pair of a file and a key. *)
Inductive Cert : Type :=
| CertNone
| CertFile (tls_cert : string)
| CertPair (tls_cert tls_private_key : string).

Record HttpOptions : Type := mkHttpOptions {
  auth : option (PyVal * PyVal);
  cert : Cert;
  verify : Verify }.

Section Options.
Variable deps : Deps.

(** The end of [IbmWasCheck.__init__]: [self.http_options]. *)
Definition http_options (inst : Instance) : HttpOptions :=
  let username := instance_get inst "username" in
  let password := instance_get inst "password" in
  let tls_verify :=
    _is_affirmative deps (match dict_get "tls_verify" (options inst) with
                          | Some v => v
                          | None => PyBool true
                          end) in
  let tls_cert := instance_get inst "tls_cert" in
  let tls_private_key := instance_get inst "tls_private_key" in
  let tls_ca_cert := instance_get inst "tls_ca_cert" in
  let auth := if py_truthy username && py_truthy password
              then Some (username, password)
              else None in
  let verify := match tls_ca_cert with
                | PyStr path => VerifyBundle path
                | _ => if negb tls_verify then VerifyFalse else VerifyTrue
                end in
  let cert := match tls_cert with
              | PyStr c =>
                  match tls_private_key with
                  | PyStr k => CertPair c k
                  | _ => CertFile c
                  end
              | _ => CertNone
              end in
  mkHttpOptions auth cert verify.

(** A child [process_stats] does something with. *)
Definition known_child (c : Element) : bool :=
  str_in (tag c) (dict_keys (METRIC_VALUE_FIELDS deps))
  || str_in (tag c) (CATEGORY_FIELDS deps).
End Options.

(** A call that is a sample whose tags satisfy [P], or no sample. *)
Definition sample_tags (P : list string -> Prop) (ev : Event) : Prop :=
  match ev with
  | Submit _ _ _ tags => P tags
  | _ => True
  end.

(** A call that is a sample whose tags begin with [tags]. *)
Definition sample_extending (tags : list string) (ev : Event) : Prop :=
  match ev with
  | Submit _ _ _ tags' => EffWords.begins tags tags'
  | _ => False
  end.

(** The option [collect_<prefix>_stats] of the instance is affirmative,
    or absent. *)
Definition collect_option_on (deps : Deps) (inst : Instance) (prefix : string)
  : bool :=
  _is_affirmative deps
    (match dict_get ("collect_" ++ prefix ++ "_stats") (options inst) with
     | Some v => v
     | None => PyBool true
     end).

(** A query [append_custom_queries] accepts. *)
Definition query_ok (deps : Deps) (q : Query) : Prop :=
  validate_query deps q = Return tt /\
  q_metric_prefix q <> None /\ q_stat q <> None.


(** The tags [check] starts the walk of a server with. *)
Definition server_tags (self : IbmWasCheck) (node server : Element)
  : list string :=
  [("server:" ++ format_opt (attr server "name"))%string]
    ++ (custom_tags self ++ [("node:" ++ format_opt (attr node "name"))%string]).

(** A call that, when it is a sample, carries the tags of a server of a
    node of the document and whatever the walk appended. *)
Definition sample_of_a_server (self : IbmWasCheck) (xml : Element)
           (ev : Event) : Prop :=
  match ev with
  | Submit _ _ _ tags' =>
      exists node server,
        In node (findall xml "Node") /\ In server (findall node "Server") /\
        EffWords.begins (server_tags self node server) tags'
  | _ => True
  end.


(** A call that is no service check and no error line. *)
Definition quiet (ev : Event) : Prop :=
  match ev with
  | ServiceCheck _ _ _ | LogError _ => False
  | _ => True
  end.

(** An instance with a bundle of certificates and [tls_verify] off. *)
Definition instance_tls : Instance :=
  {| servlet_url := Some "https://was:9443/wasPerfTool/servlet/perfservlet";
     custom_queries := [];
     custom_queries_units_gauge := [];
     tags := [];
     options := [ ("username", PyStr "monitor");
                  ("tls_verify", PyBool false);
                  ("tls_ca_cert", PyStr "/etc/ssl/was-ca.pem");
                  ("tls_private_key", PyStr "/etc/ssl/was.key") ] |}.

End IbmWasHttp.

(** ** agent.py: words for further properties of the loop *)

Module AgentWords.
Import Agent.
Section Words.
Variable Metadata : Type.

Definition is_SerializeAndPush (e : Event Metadata) : bool :=
  match e with SerializeAndPush => true | _ => false end.

(** The call that builds a payload marked as the start event. *)
Definition is_start_event (e : Event Metadata) : bool :=
  match e with GetMetadata _ _ true => true | _ => false end.
End Words.
Arguments is_SerializeAndPush {Metadata}.
Arguments is_start_event {Metadata}.
End AgentWords.

(** ** agent.py: configuration, commands and the life of the daemon *)

Module AgentCli.
Import IbmWasHttp.

(** A path as the code builds it, not evaluated: [os.path] and the
    configuration object are elsewhere. *)
Inductive Path : Type :=
| Lit (s : string)
| DEFAULT_PATH                      (* config.default.DEFAULT_PATH *)
| ScriptPath                        (* os.path.realpath(__file__) *)
| LoadedConfig                      (* config.get_loaded_config() *)
| ConfigGet (key : string)          (* config.get(key) *)
| ConfigGet2 (key sub : string)     (* config.get(key).get(sub) *)
| Join (a b : Path)                 (* os.path.join(a, b) *)
| Dirname (p : Path).               (* os.path.dirname(p) *)

Inductive Level : Type := Debug | Info | Error | Critical.

(** The objects [Agent.run] builds and drives. *)
Inductive Obj : Type :=
| Forwarder | MetricsAggregator | Serializer | Collector | Runner
| Reporter | DsdServer | Dsd | Api | Handler.

(** The calls to the outside, in the order they are made. *)
Inductive Call : Type :=
(* init_config *)
| AddSearchPath (p : Path)
| ConfigLoad
| InitializeLogging (name : string)
| NewFileProvider
| AddPlace (p : Path)
| AddProvider (name : string)
| CollectCheckConfigs
(* logging and the terminal *)
| Log (level : Level) (msg : string)
| StderrWrite (text : string)
| Print (text : string)
| Input (prompt : string)
(* Agent.status *)
| HttpGet (target : string) (timeout : Z)
| Render
(* Agent.flare *)
| NewFlare (case_id : option Z) (email : string)
| FlareAddPath (p : Path)
| CreateArchive (status : option string)
| FlareSubmit
| FlareCleanup
(* Agent.run *)
| GetHostname
| GetProxy
| GetSiteUrl
| New (o : Obj)
| LoadCheckClasses
| InstantiateChecks
| InitDogstatsd
| Register (name : string) (o : Obj)
| Handle (signal : string)
| Start (o : Obj)
| Stop (o : Obj)
| Join_ (o : Obj)
| DsdRaiseForStatus
(* main *)
| NewAgent (pid_dir : Path)
| AgentStart (foreground : bool)
| AgentStop
| AgentRestart.

(** What [get_hostname] answers in [Agent.run]: a name, the
    [HostnameException] of its handler, or another exception. *)
Inductive HostnameAnswer : Type :=
| Resolved (hostname : string)
| NoHostname (msg : string)
| HostnameFails (e : Exception).

(** The options [OptionParser] gives [main]. *)
Record Options : Type := mkOptions {
  background : bool;
  logging : bool;
  manual : bool }.

(** [sys.exit] is no [Exception]: a computation ends normally with a
    value, or by [sys.exit(code)], which no [except Exception] catches. *)
Inductive Flow (A : Type) : Type :=
| Normal (a : A)
| SysExit (code : Z).
Arguments Normal {A} a.
Arguments SysExit {A} code.

Definition Plain (A : Type) : Type := M unit Call A.
Definition Cli (A : Type) : Type := M unit Call (Flow A).

(** The value or the exception of a call already answered. *)
Definition lift {A} (r : result A) : Plain A :=
  match r with
  | Return a => ret a
  | Raise e => raise e
  end.

Definition retn {A} (a : A) : Cli A := ret (Normal a).

Definition sys_exit {A} (code : Z) : Cli A := ret (SysExit code).

(** Sequence: what follows a [sys.exit] is not run. *)
Definition bindx {A B} (m : Cli A) (f : A -> Cli B) : Cli B :=
  bind m (fun r => match r with
                   | Normal a => f a
                   | SysExit code => ret (SysExit code)
                   end).

(** A part of the code without [sys.exit] inside a part with. *)
Definition plain {A} (m : Plain A) : Cli A := bind m (fun a => ret (Normal a)).

(** Every [sys.exit] of a computation is with a code that satisfies [P]. *)
Definition exits_with {A} (P : Z -> Prop) (m : Cli A) : Prop :=
  forall s code, res (m s) = Return (SysExit code) -> P code.

(** Every value a computation ends normally with satisfies [P]. *)
Definition returns_with {A} (P : A -> Prop) (m : Cli A) : Prop :=
  forall s a, res (m s) = Return (Normal a) -> P a.

Declare Scope cli_scope.
Delimit Scope cli_scope with cli.
Notation "x <- m ;; k" := (bindx m (fun x => k))
  (at level 61, m at next level, right associativity) : cli_scope.
Notation "m ;; k" := (bindx m (fun _ => k))
  (at level 61, right associativity) : cli_scope.

Definition nl : string := String "010"%char EmptyString.
Definition CRED : string := String "027"%char "[91m".
Definition CEND : string := String "027"%char "[0m".

Definition STATUS_TIMEOUT : Z := 5.
Definition PID_NAME : string := "datadog-unix-agent".

(** [Agent.COMMANDS] *)
Definition COMMANDS : dict bool :=
  [ ("start", true); ("stop", true); ("restart", false);
    ("status", false); ("flare", false) ].

(** ["|".join(keys)] *)
Fixpoint join_bar (keys : list string) : string :=
  match keys with
  | [] => EmptyString
  | [k] => k
  | k :: rest => (k ++ "|" ++ join_bar rest)%string
  end.

(** Words for the properties. *)
Definition is_InitializeLogging (c : Call) : bool :=
  match c with InitializeLogging _ => true | _ => false end.

Definition is_Print (c : Call) : bool :=
  match c with Print _ => true | _ => false end.

(** The calls that start, stop or wait for an object. *)
Definition is_lifecycle (c : Call) : bool :=
  match c with Start _ | Stop _ | Join_ _ => true | _ => false end.

(** The calls before any object is built: the host name and log lines. *)
Definition is_preamble (c : Call) : bool :=
  match c with GetHostname | Log _ _ => true | _ => false end.

(** The calls of [Agent.status]. *)
Definition status_call (c : Call) : Prop :=
  match c with
  | HttpGet _ _ | Log _ _ | Render | Print _ => True
  | _ => False
  end.

(** The calls of [Agent.flare] before the upload. *)
Definition flare_call (c : Call) : Prop :=
  match c with
  | Input _ | NewFlare _ _ | FlareAddPath _ | CreateArchive _ => True
  | _ => status_call c
  end.

(** The calls of [init_config]; logging only when asked. *)
Definition init_call (do_log : bool) (c : Call) : Prop :=
  match c with
  | InitializeLogging _ => do_log = true
  | AddSearchPath _ | ConfigLoad | NewFileProvider | AddPlace _
  | AddProvider _ | CollectCheckConfigs => True
  | _ => False
  end.

(** The four calls [init_config] starts with. *)
Definition search_paths : list Call :=
  [ AddSearchPath (Lit "/etc/datadog-agent");
    AddSearchPath (Join DEFAULT_PATH (Lit "etc/datadog-agent"));
    AddSearchPath (Lit "./etc/datadog-agent");
    AddSearchPath (Lit ".") ].

Section World.
(** The document the status endpoint answers with, parsed. *)
Variable StatusDoc : Type.

Record Response : Type := mkResponse {
  raise_for_status : result unit;
  json : result StatusDoc }.

(** What the outside answers.  [fails] says which of the calls that
    return nothing raise, and what; the other fields are the settings
    read and the outcomes of the calls that return a value. *)
Record World : Type := mkWorld {
  fails : Call -> option Exception;
  argv0 : string;
  (* settings *)
  bind_host : string;
  port : string;
  api_key : IbmWas.PyVal;
  dd_url : IbmWas.PyVal;
  dogstatsd_enabled : option IbmWas.PyVal;     (* config['dogstatsd'].get('enabled') *)
  dogstatsd_enable : option IbmWas.PyVal;      (* config['dogstatsd'].get('enable') *)
  default_path : string;
  packaged : bool;    (* the script runs from DEFAULT_PATH/agent *)
  (* values of calls *)
  get_hostname : HostnameAnswer;
  proxies : string;
  http_get : result Response;
  truthy : StatusDoc -> bool;
  render : StatusDoc -> result string;
  input : string -> string;
  str_lower : string -> string;
  str_strip : string -> string;
  py_int : string -> result Z;
  create_archive : option string -> result string;
  submit : result (bool * IbmWas.PyVal);
  show : IbmWas.PyVal -> string }.

Variable w : World.

Local Open Scope eff_scope.

(** A call that may raise. *)
Definition perform (c : Call) : Plain unit :=
  call c (match fails w c with
          | Some e => Raise e
          | None => Return tt
          end).

(** [input(prompt)]: the line typed, unless the call raises. *)
Definition ask (prompt : string) : Plain string :=
  call (Input prompt) (match fails w (Input prompt) with
                       | Some e => Raise e
                       | None => Return (input w prompt)
                       end).

(** [Agent.usage] *)
Definition usage : string :=
  ("Usage: " ++ argv0 w ++ " " ++ join_bar (dict_keys COMMANDS) ++ nl)%string.

(** [init_config] *)
Definition init_config (do_log : bool) : Plain unit :=
  perform (AddSearchPath (Lit "/etc/datadog-agent")) ;;
  perform (AddSearchPath (Join DEFAULT_PATH (Lit "etc/datadog-agent"))) ;;
  perform (AddSearchPath (Lit "./etc/datadog-agent")) ;;
  perform (AddSearchPath (Lit ".")) ;;
  try_except (perform ConfigLoad) None
    (fun e =>
       (if do_log then perform (InitializeLogging "agent") else ret tt) ;;
       raise e) ;;
  (if do_log then perform (InitializeLogging "agent") else ret tt) ;;
  perform NewFileProvider ;;
  perform (AddPlace (Join (Dirname LoadedConfig) (Lit "conf.d"))) ;;
  perform (AddPlace (Join (ConfigGet "conf_path") (Lit "conf.d"))) ;;
  perform (AddPlace (ConfigGet "additional_checksd")) ;;
  perform (AddProvider "file") ;;
  perform CollectCheckConfigs.

(** The handlers of [Agent.status], by the class of the exception. *)
Definition status_error_line (e : Exception) : string :=
  match exc_class e with
  | HTTPError => "HTTP error collecting agent status: " ++ exc_msg e
  | ConnectionError | Timeout =>
      "Problem connecting or connection timed out, is the agent up? Error: "
        ++ exc_msg e
  | _ => "There was a problem unmarshaling JSON response: " ++ exc_msg e
  end.

(** ['http://{host}:{port}/status'] for the address of the API. *)
Definition status_target : string :=
  ("http://" ++ bind_host w ++ ":" ++ port w ++ "/status")%string.

(** [Agent.status]; the value is [rendered]. *)
Definition status (to_screen : bool) : Plain (option string) :=
  doc <- try_except
           (r <- call (HttpGet status_target STATUS_TIMEOUT) (http_get w) ;;
            lift (raise_for_status r) ;;
            d <- lift (json r) ;;
            ret (Some d))
           (Some [HTTPError; ConnectionError; Timeout; ValueError])
           (fun e => emit (Log Error (status_error_line e)) ;; ret None) ;;
  match doc with
  | Some d =>
      if truthy w d then
        rendered <- call Render (render w d) ;;
        (if to_screen then emit (Print rendered) else ret tt) ;;
        ret (Some rendered)
      else ret None
  | None => ret None
  end.

(** The request of [Agent.status] fails with [e]: in [requests.get], in
    [raise_for_status] or in [json]. *)
Definition status_fails (e : Exception) : Prop :=
  http_get w = Raise e \/
  (exists r, http_get w = Return r /\ raise_for_status r = Raise e) \/
  (exists r, http_get w = Return r /\ raise_for_status r = Return tt /\
             json r = Raise e).

(** The world in which no call that returns nothing raises, but for
    [dsd.raise_for_status()], which does what it does in [w]. *)
Definition without_failures : World :=
  mkWorld (fun c => match c with
                    | DsdRaiseForStatus => fails w DsdRaiseForStatus
                    | _ => None
                    end)
          (argv0 w) (bind_host w) (port w) (api_key w) (dd_url w)
          (dogstatsd_enabled w) (dogstatsd_enable w) (default_path w)
          (packaged w) (get_hostname w) (proxies w) (http_get w) (truthy w)
          (render w) (input w) (str_lower w) (str_strip w) (py_int w)
          (create_archive w) (submit w) (show w).

Local Open Scope cli_scope.

(** The answers that let the flare go: [choice.strip().lower()] is one
    of ['yes', 'y', '']. *)
Definition consents (choice : string) : bool :=
  str_in (str_lower w (str_strip w choice)) ["yes"; "y"; EmptyString].

Definition upload_question : string := "Do you want to continue [Y/n]? ".
Definition email_question : string := "Please enter your contact email address: ".

(** [Agent.flare] *)
Definition flare (case_id : string) : Cli unit :=
  answer <- plain (ask email_question) ;;
  let email := str_lower w answer in
  case <- plain (if negb (String.eqb case_id EmptyString)
                 then bind (lift (py_int w case_id)) (fun n => ret (Some n))
                 else ret None) ;;
  plain (perform (NewFlare case email)) ;;
  plain (perform (FlareAddPath (ConfigGet "conf_path"))) ;;
  plain (perform (FlareAddPath LoadedConfig)) ;;
  plain (perform (FlareAddPath (ConfigGet2 "logging" "agent_log_file"))) ;;
  plain (perform (FlareAddPath (ConfigGet2 "logging" "dogstatsd_log_file"))) ;;
  plain (perform (FlareAddPath (ConfigGet "additional_checksd"))) ;;
  rendered <- plain (status false) ;;
  flarepath <- plain (call (CreateArchive rendered) (create_archive w rendered)) ;;
  plain (emit (Print "The flare is going to be uploaded to Datadog")) ;;
  choice <- plain (ask upload_question) ;;
  if negb (consents choice) then
    plain (emit (Print ("Aborting (you can still use " ++ flarepath ++ ")"))) ;;
    sys_exit 0
  else
    outcome <- plain (call FlareSubmit (submit w)) ;;
    let '(success, case_id') := outcome in
    if success then
      plain (if py_truthy case_id'
             then emit (Print ("Your flare was uploaded successfully, this is your case id: "
                               ++ show w case_id'))
             else emit (Print "Your flare was uploaded successfully, but a case id could not be retrieved.")) ;;
      plain (perform FlareCleanup)
    else retn tt.

(** [dsdconf.get('enabled', False) or dsdconf.get('enable', False)],
    tested by [if]. *)
Definition dsd_enable : bool :=
  let enabled := match dogstatsd_enabled w with Some v => v | None => IbmWas.PyBool false end in
  let enable := match dogstatsd_enable w with Some v => v | None => IbmWas.PyBool false end in
  py_truthy (if py_truthy enabled then enabled else enable).

(** What stops [Agent.run] before it builds anything: no host name, no
    URL of the intake, or no API key. *)
Definition cannot_start : Prop :=
  (exists msg, get_hostname w = NoHostname msg) \/
  ((exists h, get_hostname w = Resolved h) /\
   (py_truthy (dd_url w) = false \/ py_truthy (api_key w) = false)).

(** The calls of [Agent.run] that start, stop or wait for an object,
    when none of its other calls raises: [after_dsd] is what follows the
    wait for the dogstatsd server. *)
Definition lifecycle_order (after_dsd : list Call) : list Call :=
  [Start Forwarder; Start Handler; Start Runner; Start Api]
    ++ (if dsd_enable
        then [Start Reporter; Start Dsd; Join_ Dsd] ++ after_dsd
        else [])
    ++ [Join_ Runner; Join_ Api; Stop Handler; Join_ Handler].

(** [Agent.run] *)
Definition agent_run : Cli unit :=
  hostname <- match get_hostname w with
              | Resolved h => plain (call GetHostname (Return h))
              | HostnameFails e => plain (call GetHostname (Raise e))
              | NoHostname msg =>
                  plain (emit GetHostname) ;;
                  plain (emit (Log Critical
                                 (msg ++ " - You can define one in datadog.yaml or in your hosts file"))) ;;
                  sys_exit 1
              end ;;
  plain (emit (Log Info ("Starting the agent, hostname: " ++ hostname))) ;;
  plain (emit (Log Info "Starting the Forwarder")) ;;
  if negb (py_truthy (dd_url w)) then
    plain (emit (Log Error "No Datadog URL configured - cannot continue")) ;;
    sys_exit 1
  else if negb (py_truthy (api_key w)) then
    plain (emit (Log Error "No API key configured - cannot continue")) ;;
    sys_exit 1
  else
    plain (perform GetProxy) ;;
    plain (emit (Log Debug ("Proxy configuration used: " ++ proxies w))) ;;
    plain (perform GetSiteUrl) ;;
    plain (perform (New Forwarder)) ;;
    plain (perform (Start Forwarder)) ;;
    plain (perform (New MetricsAggregator)) ;;
    plain (perform (New Serializer)) ;;
    plain (perform (New Collector)) ;;
    plain (perform LoadCheckClasses) ;;
    plain (perform InstantiateChecks) ;;
    plain (perform (New Runner)) ;;
    (if dsd_enable
     then plain (perform InitDogstatsd) ;; plain (perform (New Dsd))
     else retn tt) ;;
    plain (perform (New Api)) ;;
    plain (perform (New Handler)) ;;
    plain (perform (Register "runner" Runner)) ;;
    plain (perform (Register "forwarder" Forwarder)) ;;
    plain (perform (Register "api" Api)) ;;
    (if dsd_enable
     then plain (perform (Register "reporter" Reporter)) ;;
          plain (perform (Register "dsd_server" DsdServer))
     else retn tt) ;;
    plain (perform (Handle "SIGTERM")) ;;
    plain (perform (Handle "SIGINT")) ;;
    plain (perform (Start Handler)) ;;
    plain (perform (Start Runner)) ;;
    plain (perform (Start Api)) ;;
    (if dsd_enable
     then plain (perform (Start Reporter)) ;;
          plain (perform (Start Dsd)) ;;
          plain (perform (Join_ Dsd)) ;;
          plain (emit (Log Info "Dogstatsd server done...")) ;;
          plain (try_except (perform DsdRaiseForStatus) None
                   (fun e =>
                      (emit (Log Error ("There was a problem with the dogstatsd server: "
                                        ++ exc_msg e)) ;;
                       perform (Stop Reporter))%eff))
     else retn tt) ;;
    plain (perform (Join_ Runner)) ;;
    plain (emit (Log Info "Collector done...")) ;;
    plain (perform (Join_ Api)) ;;
    plain (emit (Log Info "API done...")) ;;
    plain (perform (Stop Handler)) ;;
    plain (perform (Join_ Handler)) ;;
    plain (emit (Log Info "Signal handler done...")) ;;
    plain (emit (Log Info "Thank you for shopping at DataDog! Come back soon!")) ;;
    sys_exit 0.

(** [options.logging or Agent.COMMANDS[command]] *)
Definition wants_log (options : Options) (command : string) : bool :=
  logging options
  || match dict_get command COMMANDS with
     | Some b => b
     | None => false
     end.

(** The text [main] logs when the script is not where a package puts it. *)
Definition not_packaged_line : string :=
  ("You don't seem to be running a package installed agent (expected
                 at " ++ default_path w ++ "). You may need to specify sane locations for your configs,
                 logs, run path, etc. And remember to drop the configuration
                 file in one of the supported locations.")%string.

(** [main], after [parser.parse_args()]; the value is what [main]
    returns, [None] when it reaches its end. *)
Definition main (options : Options) (args : list string) : Cli (option Z) :=
  match args with
  | [] =>
      plain (emit (StderrWrite usage)) ;;
      retn (Some 2%Z)
  | command :: _ =>
      if negb (str_in command (dict_keys COMMANDS)) then
        plain (emit (StderrWrite (CRED ++ "Unknown command: " ++ command ++ nl ++ CEND))) ;;
        retn (Some 3%Z)
      else
        let do_log := wants_log options command in
        loaded <- plain (try_except
                           (init_config do_log ;; ret true)%eff None
                           (fun e =>
                              (emit (Log Error (CRED ++ "Problem initializing configuration: "
                                                ++ exc_msg e ++ CEND)) ;;
                               ret false)%eff)) ;;
        if negb loaded then retn (Some 1%Z)
        else
          pid_dir <- (if negb (packaged w)
                      then plain (emit (Log Info not_packaged_line)) ;;
                           retn (Join (Dirname ScriptPath) (Lit "run"))
                      else retn (ConfigGet "run_path")) ;;
          plain (perform (NewAgent pid_dir)) ;;
          let foreground := negb (background options) in
          if String.eqb "start" command then
            if manual options then
              plain (emit (Log Info "Start daemon")) ;;
              plain (perform (AgentStart foreground)) ;;
              retn None
            else
              plain (emit (StderrWrite (CRED ++ "Please use OS facilities to start the agent!"
                                        ++ nl ++ CEND))) ;;
              retn (Some 1%Z)
          else if String.eqb "stop" command then
            plain (emit (Log Info "Stop daemon")) ;;
            plain (perform AgentStop) ;;
            retn None
          else if String.eqb "restart" command then
            if manual options then
              plain (emit (Log Info "Restart daemon")) ;;
              plain (perform AgentRestart) ;;
              retn None
            else
              plain (emit (StderrWrite (CRED ++ "Please use OS facilities to restart the agent!"
                                        ++ nl ++ CEND))) ;;
              retn (Some 1%Z)
          else if String.eqb "status" command then
            plain (status true) ;;
            retn None
          else if String.eqb "flare" command then
            answer <- plain (ask "Do you have a support case id? Please enter it here (otherwise just hit enter): ") ;;
            flare (str_lower w answer) ;;
            retn None
          else retn None
  end.

End World.

Arguments mkResponse {StatusDoc}.
Arguments raise_for_status {StatusDoc}.
Arguments json {StatusDoc}.
Arguments fails {StatusDoc}.
Arguments argv0 {StatusDoc}.
Arguments bind_host {StatusDoc}.
Arguments port {StatusDoc}.
Arguments api_key {StatusDoc}.
Arguments dd_url {StatusDoc}.
Arguments dogstatsd_enabled {StatusDoc}.
Arguments dogstatsd_enable {StatusDoc}.
Arguments default_path {StatusDoc}.
Arguments packaged {StatusDoc}.
Arguments get_hostname {StatusDoc}.
Arguments proxies {StatusDoc}.
Arguments http_get {StatusDoc}.
Arguments truthy {StatusDoc}.
Arguments render {StatusDoc}.
Arguments input {StatusDoc}.
Arguments str_lower {StatusDoc}.
Arguments str_strip {StatusDoc}.
Arguments py_int {StatusDoc}.
Arguments create_archive {StatusDoc}.
Arguments submit {StatusDoc}.
Arguments show {StatusDoc}.
Arguments not_packaged_line {StatusDoc}.
Arguments perform {StatusDoc}.
Arguments ask {StatusDoc}.
Arguments usage {StatusDoc}.
Arguments init_config {StatusDoc}.
Arguments status {StatusDoc}.
Arguments status_target {StatusDoc}.
Arguments consents {StatusDoc}.
Arguments status_fails {StatusDoc}.
Arguments without_failures {StatusDoc}.
Arguments flare {StatusDoc}.
Arguments dsd_enable {StatusDoc}.
Arguments cannot_start {StatusDoc}.
Arguments lifecycle_order {StatusDoc}.
Arguments agent_run {StatusDoc}.
Arguments main {StatusDoc}.

End AgentCli.

(** ** Further sample inputs *)

Module MoreSamples.
Import IbmWas Samples.

Definition timed_out : Exception := mkExc Timeout "Read timed out.".

(** The fetch ends in a read timeout. *)
Definition world_timeout : World :=
  {| requests_get := Raise timed_out;
     fromstring := fun _ => Return document |}.

(** An instance that switches the thread pools off and names them in a
    custom query. *)
Definition instance_pools : Instance :=
  {| servlet_url := Some "http://was:9080/wasPerfTool/servlet/perfservlet";
     custom_queries :=
       [ mkQuery (Some "Thread Pools") (Some "pools") (Some ["pool"]) ];
     custom_queries_units_gauge := [];
     tags := [];
     options := [ ("collect_thread_pools_stats", PyBool false);
                  ("collect_jvm_stats", PyStr "no") ] |}.

(** [str.lower] and [str.strip] on text of letters and blanks. *)
Fixpoint ascii_lower (s : string) : string :=
  match s with
  | EmptyString => EmptyString
  | String c rest => String (lower c) (ascii_lower rest)
  end.

Fixpoint drop_blanks (s : string) : string :=
  match s with
  | String " "%char rest => drop_blanks rest
  | _ => s
  end.

Fixpoint rev_string (acc s : string) : string :=
  match s with
  | EmptyString => acc
  | String c rest => rev_string (String c acc) rest
  end.

Definition ascii_strip (s : string) : string :=
  rev_string EmptyString
    (drop_blanks (rev_string EmptyString (drop_blanks s))).

(** A terminal on which every question is answered with [line], an agent
    whose status endpoint answers with [answer], and the calls [bad]
    says raise; [int] is [to_int]. *)
Definition cli_world_with (to_int : string -> result Z) (line : string)
           (answer : result (AgentCli.Response string))
           (hostname : AgentCli.HostnameAnswer)
           (enabled : option PyVal)
           (bad : AgentCli.Call -> option Exception) : AgentCli.World string :=
  AgentCli.mkWorld string bad "agent.py" "localhost" "5000"
    (PyStr "0123456789abcdef") (PyStr "https://app.datadoghq.com")
    enabled None "/opt/datadog-agent" true
    hostname "{}" answer
    (fun d => negb (String.eqb d EmptyString))
    (fun d => Return ("Agent (v1.1.2) " ++ d)%string)
    (fun _ => line) ascii_lower ascii_strip
    to_int
    (fun _ => Return "/tmp/datadog-agent-flare.zip")
    (Return (true, PyInt 42))
    (fun _ => "42").

Definition cli_world : string -> result (AgentCli.Response string) ->
                       AgentCli.HostnameAnswer -> option PyVal ->
                       (AgentCli.Call -> option Exception) ->
                       AgentCli.World string :=
  cli_world_with (fun _ => Return 42%Z).

(** [int] on text that is no number. *)
Definition no_number (text : string) : Exception :=
  mkExc ValueError
        ("invalid literal for int() with base 10: '" ++ text ++ "'")%string.

(** The status endpoint answers with a document. *)
Definition agent_up : result (AgentCli.Response string) :=
  Return (AgentCli.mkResponse (Return tt) (Return "checks: 2")).

Definition host1 : AgentCli.HostnameAnswer := AgentCli.Resolved "host1".

Definition nothing_fails : AgentCli.Call -> option Exception := fun _ => None.

Definition agent_down : Exception :=
  mkExc ConnectionError "Connection refused".

Definition load_fails : AgentCli.Call -> option Exception :=
  fun c => match c with
           | AgentCli.ConfigLoad => Some (mkExc ValueError "no config file")
           | _ => None
           end.

Definition dsd_fails : AgentCli.Call -> option Exception :=
  fun c => match c with
           | AgentCli.DsdRaiseForStatus => Some (mkExc RuntimeError "socket in use")
           | _ => None
           end.

End MoreSamples.

(** * Properties of the collection loop *)

Module AgentSpec.
Import Agent.

Local Open Scope Z_scope.

(** Unfolds the monad down to matches on the answers of the outside. *)
Ltac run_monad :=
  cbv beta iota zeta delta
    [guarded_body try_body set_meta_ts stop
     try_except bind ret raise emit get put call
     state events res] in *.

(** Unfolds the sleep down to the test of its interval. *)
Ltac run_sleep :=
  cbv beta iota zeta delta
    [sleep time_sleep bind get raise emit state events res].

(** Splits on every answer of the outside still matched on in the goal,
    in the order of the calls. *)
Ltac case_results :=
  repeat match goal with
         | |- context [match get_hostname ?w with _ => _ end] =>
             destruct (get_hostname w); cbn
         | |- context [match get_metadata ?w ?h ?v ?b with _ => _ end] =>
             destruct (get_metadata w h v b); cbn
         | |- context [match submit_metadata ?w ?m with _ => _ end] =>
             destruct (submit_metadata w m) as [[]|]; cbn
         | |- context [match run_checks ?w with _ => _ end] =>
             destruct (run_checks w) as [[]|]; cbn
         | |- context [match serialize_and_push ?w with _ => _ end] =>
             destruct (serialize_and_push w) as [[]|]; cbn
         end.

Section Loop.
Variable Metadata : Type.
Let World := World Metadata.
Let Thread := Thread Metadata.
Let Event := Event Metadata.


(** *** The guarded body *)

(** Whatever the calls answer, nothing is raised out of the [try]
    statement. *)
Lemma guarded_body_returns (w : World) (r : AgentRunner) :
  res (guarded_body w r) = Return tt.
Proof.
  run_monad.
  destruct (metadata_due r (time_monotonic w));
    repeat match goal with
           | |- context [match ?x with Return _ => _ | Raise _ => _ end] =>
               destruct x as [[]|]; cbn
           end; reflexivity.
Qed.

Lemma guarded_body_flag (w : World) (r : AgentRunner) :
  _event (state (guarded_body w r)) = _event r /\
  _config (state (guarded_body w r)) = _config r.
Proof.
  run_monad.
  destruct (metadata_due r (time_monotonic w));
    repeat match goal with
           | |- context [match ?x with Return _ => _ | Raise _ => _ end] =>
               destruct x; cbn
           end; split; reflexivity.
Qed.

(** The guarded body logs exactly the exception the body raised. *)
Lemma guarded_body_events (w : World) (r : AgentRunner) :
  events (guarded_body w r) =
    events (try_body w r) ++
    match res (try_body w r) with
    | Return _ => []
    | Raise e => [LogException log_line e]
    end.
Proof.
  unfold guarded_body, try_except.
  destruct (res (try_body w r)); cbn; [now rewrite app_nil_r | reflexivity].
Qed.

Lemma guarded_body_state (w : World) (r : AgentRunner) :
  state (guarded_body w r) = state (try_body w r).
Proof.
  unfold guarded_body, try_except.
  destruct (res (try_body w r)); reflexivity.
Qed.

Lemma try_body_no_sleep (w : World) (r : AgentRunner) :
  count is_Sleep (events (guarded_body w r)) = 0%nat /\
  (count is_RunChecks (events (guarded_body w r)) <= 1)%nat.
Proof.
  run_monad. unfold count.
  destruct (metadata_due r (time_monotonic w));
    repeat match goal with
           | |- context [match ?x with Return _ => _ | Raise _ => _ end] =>
               destruct x; cbn
           end; split; lia.
Qed.

(** The body reads the flag nowhere: with another flag it makes the same
    calls, ends the same way and leaves the same record. *)
Lemma guarded_body_any_flag (w : World) (c : Config) (e b : bool)
      (mts : option Z) :
  let o := guarded_body w (mkRunner c e mts) in
  guarded_body w (mkRunner c b mts) =
    mkOut (mkRunner (_config (state o)) b (_meta_ts (state o)))
          (events o) (res o).
Proof.
  run_monad. unfold metadata_due. cbn [_meta_ts _config _event].
  destruct mts as [ts|];
    [destruct (host_metadata_interval c <=? time_monotonic w - ts)|];
    cbv beta iota;
    repeat match goal with
           | |- context [match get_hostname ?w with _ => _ end] =>
               destruct (get_hostname w)
           | |- context [match get_metadata ?w ?h ?v ?s with _ => _ end] =>
               destruct (get_metadata w h v s)
           | |- context [match submit_metadata ?w ?m with _ => _ end] =>
               destruct (submit_metadata w m) as [[]|]
           | |- context [match run_checks ?w with _ => _ end] =>
               destruct (run_checks w) as [[]|]
           | |- context [match serialize_and_push ?w with _ => _ end] =>
               destruct (serialize_and_push w) as [[]|]
           end; reflexivity.
Qed.

(** *** The sleep *)

Lemma sleep_state (r : AgentRunner) : state (sleep (Metadata := Metadata) r) = r.
Proof.
  run_sleep.
  destruct (min_collection_interval (_config r)) as [n|]; [|reflexivity].
  destruct (n <? 0); reflexivity.
Qed.

(** With an interval [time.sleep] accepts, the sleep is made and returns. *)
Lemma sleep_run (r : AgentRunner) (secs : Z) :
  sleeps_for (_config r) secs ->
  sleep (Metadata := Metadata) r = mkOut r [Sleep secs] (Return tt).
Proof.
  intros [Hs Hpos]. run_sleep. rewrite Hs.
  destruct (secs <? 0) eqn:E; [apply Z.ltb_lt in E; lia|reflexivity].
Qed.

(** With any other interval it raises, and nothing is slept. *)
Lemma sleep_refused (r : AgentRunner) :
  (forall secs, ~ sleeps_for (_config r) secs) ->
  exists e, sleep (Metadata := Metadata) r = mkOut r [] (Raise e).
Proof.
  intros Hno. run_sleep.
  destruct (min_collection_interval (_config r)) as [n|] eqn:Hs;
    [|eexists; reflexivity].
  destruct (n <? 0) eqn:E; [eexists; reflexivity|].
  exfalso. apply (Hno n). split; [exact Hs|]. apply Z.ltb_ge. exact E.
Qed.

Lemma sleep_only_sleeps (r : AgentRunner) :
  events (sleep (Metadata := Metadata) r) = [] \/
  exists n, events (sleep (Metadata := Metadata) r) = [Sleep n].
Proof.
  run_sleep.
  destruct (min_collection_interval (_config r)) as [n|]; [|now left].
  destruct (n <? 0); [now left|right; now exists n].
Qed.

(** The sleep reads the interval only. *)
Lemma sleep_any_flag (c : Config) (e b : bool) (mts : option Z) :
  let o := sleep (Metadata := Metadata) (mkRunner c e mts) in
  sleep (mkRunner c b mts) = mkOut (mkRunner c b mts) (events o) (res o).
Proof.
  run_sleep. cbn [_config].
  destruct (min_collection_interval c) as [n|]; [|reflexivity].
  destruct (n <? 0); reflexivity.
Qed.

(** *** Steps of the thread *)

Lemma advance_self (t : Thread) (m : M AgentRunner (Agent.Event Metadata) unit) (next : Place) :
  self (advance t m next) = state (m (self t)).
Proof. unfold advance. destruct (res _); reflexivity. Qed.

Lemma advance_trace (t : Thread) (m : M AgentRunner (Agent.Event Metadata) unit) (next : Place) :
  trace (advance t m next) = trace t ++ events (m (self t)).
Proof. unfold advance. destruct (res _); reflexivity. Qed.

Lemma advance_place (t : Thread) (m : M AgentRunner (Agent.Event Metadata) unit) (next : Place) :
  place (advance t m next) = next \/ place (advance t m next) = Exited.
Proof. unfold advance. destruct (res _); auto. Qed.

Lemma advance_returns (t : Thread) (m : M AgentRunner (Agent.Event Metadata) unit)
      (next : Place) :
  res (m (self t)) = Return tt ->
  advance t m next =
    mkThread (state (m (self t))) next (trace t ++ events (m (self t)))
             (uncaught t).
Proof. intros H. unfold advance. rewrite H. reflexivity. Qed.

Lemma step_LoopTop_clear (w : World) (t : Thread) :
  place t = LoopTop -> _event (self t) = false ->
  step w t = mkThread (self t) InTry (trace t) (uncaught t).
Proof. intros Hp He. unfold step. now rewrite Hp, He. Qed.

Lemma step_LoopTop_set (w : World) (t : Thread) :
  place t = LoopTop -> _event (self t) = true ->
  step w t = mkThread (self t) Exited (trace t) (uncaught t).
Proof. intros Hp He. unfold step. now rewrite Hp, He. Qed.

(** The step through the [try] statement always reaches the sleep. *)
Lemma step_InTry (w : World) (t : Thread) :
  place t = InTry ->
  step w t =
    mkThread (state (guarded_body w (self t))) AtSleep
             (trace t ++ events (guarded_body w (self t))) (uncaught t).
Proof.
  intros Hp. unfold step. rewrite Hp.
  apply advance_returns, guarded_body_returns.
Qed.

Lemma step_AtSleep (w : World) (t : Thread) (secs : Z) :
  place t = AtSleep -> sleeps_for (_config (self t)) secs ->
  step w t = mkThread (self t) LoopTop (trace t ++ [Sleep secs]) (uncaught t).
Proof.
  intros Hp Hs. unfold step. rewrite Hp. unfold advance.
  rewrite (sleep_run (self t) secs Hs). reflexivity.
Qed.

Lemma exec_app (s1 s2 : list (Action Metadata)) (t : Thread) :
  exec (s1 ++ s2) t = exec s2 (exec s1 t).
Proof. unfold exec. apply fold_left_app. Qed.

(** One undisturbed pass from the test of the flag, with the flag clear
    and an interval [time.sleep] accepts. *)
Lemma cycle_run (w : World) (t : Thread) (secs : Z) :
  place t = LoopTop -> _event (self t) = false ->
  sleeps_for (_config (self t)) secs ->
  exec (cycle w) t =
    mkThread (state (guarded_body w (self t))) LoopTop
             (trace t ++ events (guarded_body w (self t)) ++ [Sleep secs])
             (uncaught t).
Proof.
  intros Hp He Hs. unfold cycle, exec. cbn [fold_left act].
  rewrite (step_LoopTop_clear w t Hp He).
  rewrite (step_InTry w (mkThread (self t) InTry (trace t) (uncaught t))
                      eq_refl).
  cbn [self trace uncaught].
  assert (Hs' : sleeps_for (_config (state (guarded_body w (self t)))) secs).
  { destruct (guarded_body_flag w (self t)) as [_ Hc]. rewrite Hc. exact Hs. }
  rewrite (step_AtSleep w (mkThread (state (guarded_body w (self t))) AtSleep
                                    (trace t ++ events (guarded_body w (self t)))
                                    (uncaught t))
                        secs eq_refl Hs').
  cbn [self trace uncaught]. rewrite <- app_assoc. reflexivity.
Qed.

(** The same pass with any interval: the body is run, whatever the
    sleep does then. *)
Lemma cycle_any (w : World) (t : Thread) :
  place t = LoopTop -> _event (self t) = false ->
  self (exec (cycle w) t) = state (guarded_body w (self t)) /\
  exists rest,
    trace (exec (cycle w) t) =
      trace t ++ events (guarded_body w (self t)) ++ rest.
Proof.
  intros Hp He. unfold cycle, exec. cbn [fold_left act].
  rewrite (step_LoopTop_clear w t Hp He).
  rewrite (step_InTry w (mkThread (self t) InTry (trace t) (uncaught t))
                      eq_refl).
  cbn [self trace uncaught].
  unfold step. cbn [place]. rewrite advance_self, advance_trace.
  cbn [self trace]. rewrite sleep_state. split; [reflexivity|].
  eexists. rewrite <- app_assoc. reflexivity.
Qed.

(** A step never clears the flag, and only [stop] sets it. *)
Lemma act_flag (a : Action Metadata) (t : Thread) :
  _event (self (act a t)) = (_event (self t) || negb (is_Tick a))%bool.
Proof.
  destruct a as [w|]; cbn [act is_Tick negb].
  - rewrite orb_false_r. unfold step.
    destruct (place t); cbn [self]; try reflexivity.
    + destruct (_event (self t)) eqn:E; cbn; congruence.
    + rewrite advance_self. apply guarded_body_flag.
    + rewrite advance_self, sleep_state. reflexivity.
  - rewrite orb_true_r. reflexivity.
Qed.

(** Nothing changes the configuration. *)
Lemma act_config (a : Action Metadata) (t : Thread) :
  _config (self (act a t)) = _config (self t).
Proof.
  destruct a as [w|]; cbn [act].
  - unfold step. destruct (place t); cbn [self]; try reflexivity.
    + destruct (_event (self t)); reflexivity.
    + rewrite advance_self. apply guarded_body_flag.
    + rewrite advance_self, sleep_state. reflexivity.
  - reflexivity.
Qed.

(** Steps of the runner alone leave the flag as it is. *)
Lemma ticks_keep_flag (schedule : list (Action Metadata)) :
  forall t : Thread,
    forallb is_Tick schedule = true ->
    _event (self (exec schedule t)) = _event (self t).
Proof.
  induction schedule as [|a rest IH]; intros t Hs; [reflexivity|].
  cbn in Hs. apply andb_true_iff in Hs as [Ha Hrest].
  change (exec (a :: rest) t) with (exec rest (act a t)).
  rewrite IH by exact Hrest. rewrite act_flag, Ha. apply orb_false_r.
Qed.

Lemma cycles_are_ticks (ws : list World) :
  forallb is_Tick (flat_map cycle ws) = true.
Proof. induction ws as [|w ws IH]; [reflexivity|exact IH]. Qed.

(** With an interval [time.sleep] accepts and the flag clear, a step of
    the runner keeps the thread in the loop, and no exception is left
    uncaught. *)
Lemma step_stays (w : World) (t : Thread) (secs : Z) :
  _event (self t) = false -> place t <> Exited ->
  sleeps_for (_config (self t)) secs ->
  place (step w t) <> Exited /\ uncaught (step w t) = uncaught t.
Proof.
  intros He Hp Hs. destruct (place t) eqn:E.
  - rewrite (step_LoopTop_clear w t E He). split; [discriminate|reflexivity].
  - rewrite (step_InTry w t E). split; [discriminate|reflexivity].
  - rewrite (step_AtSleep w t secs E Hs). split; [discriminate|reflexivity].
  - congruence.
Qed.

(** Without a call to [stop], a running thread never leaves the loop. *)
Lemma no_stop_no_exit (schedule : list (Action Metadata)) (secs : Z) :
  forall t : Thread,
    forallb is_Tick schedule = true ->
    _event (self t) = false -> place t <> Exited ->
    sleeps_for (_config (self t)) secs ->
    place (exec schedule t) <> Exited /\
    _event (self (exec schedule t)) = false /\
    uncaught (exec schedule t) = uncaught t.
Proof.
  induction schedule as [|a rest IH]; intros t Hs He Hp Hsl; [now repeat split|].
  cbn in Hs. apply andb_true_iff in Hs as [Ha Hrest].
  change (exec (a :: rest) t) with (exec rest (act a t)).
  destruct a as [w|]; [|discriminate]. cbn [act].
  destruct (step_stays w t secs He Hp Hsl) as [Hp' Hu].
  destruct (IH (step w t) Hrest) as (H1 & H2 & H3).
  - change (step w t) with (act (Tick w) t). rewrite act_flag, He. reflexivity.
  - exact Hp'.
  - change (step w t) with (act (Tick w) t). rewrite act_config. exact Hsl.
  - repeat split; [exact H1|exact H2|]. rewrite H3. exact Hu.
Qed.

(** Passes with an interval [time.sleep] accepts come back to the test
    of the flag. *)
Lemma cycles_return (ws : list World) (secs : Z) :
  forall t : Thread,
    place t = LoopTop -> _event (self t) = false ->
    sleeps_for (_config (self t)) secs ->
    place (exec (flat_map cycle ws) t) = LoopTop.
Proof.
  induction ws as [|w ws IH]; intros t Hp He Hs; [exact Hp|].
  cbn [flat_map]. rewrite exec_app, (cycle_run w t secs Hp He Hs).
  apply IH; cbn [place self].
  - reflexivity.
  - destruct (guarded_body_flag w (self t)) as [-> _]. exact He.
  - destruct (guarded_body_flag w (self t)) as [_ ->]. exact Hs.
Qed.

(** *** The metadata part of a pass *)

(** A pass leaves the recorded timestamp as it was, or every call of the
    metadata part returned and the timestamp is the time of the pass. *)
Lemma meta_ts_after (w : World) (r : AgentRunner) :
  _meta_ts (state (guarded_body w r)) = _meta_ts r \/
  (metadata_due r (time_monotonic w) = true /\
   exists h m,
     get_hostname w = Return h /\
     get_metadata w h AGENT_VERSION (is_None (_meta_ts r)) = Return m /\
     submit_metadata w m = Return tt /\
     _meta_ts (state (guarded_body w r)) = Some (time_monotonic w)).
Proof.
  rewrite guarded_body_state. run_monad.
  destruct (metadata_due r (time_monotonic w)) eqn:Hdue; cbn.
  - destruct (get_hostname w) as [h|e] eqn:Hh; cbn; [|now left].
    destruct (get_metadata w h AGENT_VERSION (is_None (_meta_ts r)))
      as [m|e] eqn:Hm; cbn; [|now left].
    destruct (submit_metadata w m) as [[]|e] eqn:Hs; cbn; [|now left].
    right. split; [reflexivity|]. exists h, m. repeat split; try assumption.
    destruct (run_checks w) as [[]|]; cbn; [|reflexivity].
    destruct (serialize_and_push w); reflexivity.
  - left. destruct (run_checks w) as [[]|]; cbn; [|reflexivity].
    destruct (serialize_and_push w); reflexivity.
Qed.

Lemma failed_keeps_meta_ts (w : World) (r : AgentRunner) :
  metadata_failed w (is_None (_meta_ts r)) ->
  _meta_ts (state (guarded_body w r)) = _meta_ts r.
Proof.
  intros [e Hf].
  destruct (meta_ts_after w r) as [H|[_ (h & m & Hh & Hm & Hs & _)]];
    [exact H|].
  exfalso. destruct Hf as [H|[(h' & H1 & H2)|(h' & m' & H1 & H2 & H3)]];
    congruence.
Qed.

(** The calls a pass starts with when metadata is due and both the host
    name and the payload are obtained. *)
Lemma due_pass_events (w : World) (r : AgentRunner) (h : string) (m : Metadata) :
  metadata_due r (time_monotonic w) = true ->
  get_hostname w = Return h ->
  get_metadata w h AGENT_VERSION (is_None (_meta_ts r)) = Return m ->
  exists rest,
    events (guarded_body w r) =
      GetHostname :: GetMetadata h AGENT_VERSION (is_None (_meta_ts r))
                  :: SubmitMetadata m :: rest.
Proof.
  intros Hdue Hh Hm. run_monad. rewrite Hdue. cbn.
  rewrite Hh. cbn. rewrite Hm. cbn.
  case_results; eexists; reflexivity.
Qed.

(** When the three calls of the metadata part return, the time of the
    pass is recorded. *)
Lemma submitted_records (w : World) (r : AgentRunner) (h : string) (m : Metadata) :
  metadata_due r (time_monotonic w) = true ->
  get_hostname w = Return h ->
  get_metadata w h AGENT_VERSION (is_None (_meta_ts r)) = Return m ->
  submit_metadata w m = Return tt ->
  _meta_ts (state (guarded_body w r)) = Some (time_monotonic w).
Proof.
  intros Hdue Hh Hm Hs. run_monad. rewrite Hdue. cbn.
  rewrite Hh. cbn. rewrite Hm. cbn. rewrite Hs. cbn.
  case_results; reflexivity.
Qed.

(** A pass in which metadata is due starts by asking for the host name. *)
Lemma due_pass_attempts (w : World) (r : AgentRunner) :
  metadata_due r (time_monotonic w) = true ->
  exists rest, events (guarded_body w r) = GetHostname :: rest.
Proof.
  intros Hdue. run_monad. rewrite Hdue. cbn.
  case_results; eexists; reflexivity.
Qed.

(** The calls of a pass in which metadata is not due. *)
Lemma not_due_pass_events (w : World) (r : AgentRunner) :
  metadata_due r (time_monotonic w) = false ->
  count is_GetMetadata (events (guarded_body w r)) = 0%nat /\
  count is_SubmitMetadata (events (guarded_body w r)) = 0%nat /\
  _meta_ts (state (guarded_body w r)) = _meta_ts r.
Proof.
  intros Hdue. run_monad. rewrite Hdue. unfold count. cbn.
  destruct (run_checks w) as [[]|]; cbn; [|auto].
  destruct (serialize_and_push w); cbn; auto.
Qed.

(** A step whose metadata part fails leaves a runner that never
    submitted in that state, wherever the thread is. *)
Lemma failed_step_keeps_None (w : World) (t : Thread) :
  _meta_ts (self t) = None -> metadata_failed w true ->
  _meta_ts (self (step w t)) = None.
Proof.
  intros Hm Hw. unfold step. destruct (place t); cbn [self]; try exact Hm.
  - destruct (_event (self t)); exact Hm.
  - rewrite advance_self, failed_keeps_meta_ts; [exact Hm|].
    rewrite Hm. exact Hw.
  - rewrite advance_self, sleep_state. exact Hm.
Qed.

(** Passes whose metadata part fails leave a runner that never
    submitted in that state. *)
Lemma failed_passes_keep_None (ws : list World) :
  forall t : Thread,
    _meta_ts (self t) = None ->
    Forall (fun w => metadata_failed w true) ws ->
    _meta_ts (self (exec (flat_map cycle ws) t)) = None.
Proof.
  induction ws as [|w ws IH]; intros t Hm Hall; [exact Hm|].
  inversion Hall as [|? ? Hw Hws]; subst.
  cbn [flat_map]. rewrite exec_app. apply IH; [|exact Hws].
  unfold cycle, exec. cbn [fold_left act].
  repeat apply failed_step_keeps_None; assumption.
Qed.

(** *** After [stop] *)

Lemma stopped_exits (schedule : list (Action Metadata)) :
  forall t : Thread,
    _event (self t) = true ->
    (steps_left (place t) <= length (filter is_Tick schedule))%nat ->
    place (exec schedule t) = Exited.
Proof.
  induction schedule as [|a rest IH]; intros t He Hn.
  - cbn in Hn |- *. destruct (place t); cbn in Hn; try lia. reflexivity.
  - change (exec (a :: rest) t) with (exec rest (act a t)).
    apply IH; [rewrite act_flag, He; reflexivity|].
    destruct a as [w|]; cbn [act filter is_Tick length] in Hn |- *.
    + unfold step. destruct (place t) eqn:Hp; cbn [steps_left] in Hn.
      * rewrite He. cbn. lia.
      * destruct (advance_place t (guarded_body w) AtSleep) as [-> | ->];
          cbn; lia.
      * destruct (advance_place t sleep LoopTop) as [-> | ->]; cbn; lia.
      * rewrite Hp. cbn. lia.
    + exact Hn.
Qed.

Lemma sleep_counts (r : AgentRunner) :
  (count is_Sleep (events (sleep (Metadata := Metadata) r)) <= 1)%nat /\
  count is_RunChecks (events (sleep (Metadata := Metadata) r)) = 0%nat.
Proof.
  destruct (sleep_only_sleeps r) as [-> | [n ->]]; cbn; lia.
Qed.

Lemma stopped_budget (schedule : list (Action Metadata)) :
  forall t : Thread,
    _event (self t) = true ->
    (count is_Sleep (trace (exec schedule t))
       <= count is_Sleep (trace t) + sleeps_left (place t))%nat /\
    (count is_RunChecks (trace (exec schedule t))
       <= count is_RunChecks (trace t) + passes_left (place t))%nat.
Proof.
  induction schedule as [|a rest IH]; intros t He; [cbn; lia|].
  change (exec (a :: rest) t) with (exec rest (act a t)).
  assert (He' : _event (self (act a t)) = true)
    by (rewrite act_flag, He; reflexivity).
  destruct (IH (act a t) He') as [IHs IHr].
  assert (count is_Sleep (trace (act a t)) + sleeps_left (place (act a t))
            <= count is_Sleep (trace t) + sleeps_left (place t) /\
          count is_RunChecks (trace (act a t)) + passes_left (place (act a t))
            <= count is_RunChecks (trace t) + passes_left (place t))%nat
    as [Hs Hr]; [|lia].
  clear IH IHs IHr He'. destruct a as [w|]; cbn [act].
  - unfold step, count. destruct (place t) eqn:Hp; cbn [sleeps_left passes_left].
    + rewrite He. cbn. lia.
    + rewrite advance_trace, !filter_app, !length_app.
      destruct (try_body_no_sleep w (self t)) as [H0 H1].
      unfold count in H0, H1.
      destruct (advance_place t (guarded_body w) AtSleep) as [-> | ->];
        cbn [sleeps_left passes_left]; lia.
    + rewrite advance_trace, !filter_app, !length_app.
      destruct (sleep_counts (self t)) as [H0 H1].
      unfold count in H0, H1.
      destruct (advance_place t sleep LoopTop) as [-> | ->];
        cbn [sleeps_left passes_left]; lia.
    + rewrite Hp. cbn. lia.
  - unfold count. cbn. rewrite !filter_app, !length_app. cbn. lia.
Qed.

(** Once the flag has been seen set, or the loop is left, only the log
    lines of further calls to [stop] follow. *)
Lemma stopped_no_work (schedule : list (Action Metadata)) :
  forall t : Thread,
    _event (self t) = true -> place t = LoopTop \/ place t = Exited ->
    work (trace (exec schedule t)) = work (trace t).
Proof.
  induction schedule as [|a rest IH]; intros t He Hp; [reflexivity|].
  change (exec (a :: rest) t) with (exec rest (act a t)).
  rewrite IH.
  - destruct a as [w|]; cbn.
    + unfold step. destruct Hp as [Hp|Hp]; rewrite Hp; [rewrite He|]; reflexivity.
    + unfold work. rewrite filter_app. cbn. now rewrite app_nil_r.
  - rewrite act_flag, He. reflexivity.
  - destruct a as [w|]; cbn; [|exact Hp].
    unfold step. destruct Hp as [Hp|Hp]; rewrite Hp; [rewrite He|]; cbn; auto.
Qed.

(** *** Which calls make the body raise *)

Lemma metadata_raise_raises (w : World) (r : AgentRunner) (e : Exception) :
  metadata_due r (time_monotonic w) = true ->
  metadata_raises w (is_None (_meta_ts r)) e ->
  res (try_body w r) = Raise e.
Proof.
  intros Hdue Hf. run_monad. rewrite Hdue. cbn.
  destruct Hf as [Hh|[(h & Hh & Hm)|(h & m & Hh & Hm & Hs)]].
  - rewrite Hh. reflexivity.
  - rewrite Hh. cbn. rewrite Hm. reflexivity.
  - rewrite Hh. cbn. rewrite Hm. cbn. rewrite Hs. reflexivity.
Qed.

Lemma later_raise_raises (w : World) (r : AgentRunner) (e : Exception) :
  metadata_passes w r ->
  (run_checks w = Raise e \/
   (run_checks w = Return tt /\ serialize_and_push w = Raise e)) ->
  res (try_body w r) = Raise e.
Proof.
  intros Hpass Hlater. run_monad.
  destruct Hpass as [Hdue|(h & m & Hh & Hm & Hs)].
  - rewrite Hdue. cbn.
    destruct Hlater as [Hr|[Hr Hp]]; rewrite Hr; cbn; [reflexivity|].
    rewrite Hp. reflexivity.
  - destruct (metadata_due r (time_monotonic w)); cbn.
    + rewrite Hh. cbn. rewrite Hm. cbn. rewrite Hs. cbn.
      destruct Hlater as [Hr|[Hr Hp]]; rewrite Hr; cbn; [reflexivity|].
      rewrite Hp. reflexivity.
    + destruct Hlater as [Hr|[Hr Hp]]; rewrite Hr; cbn; [reflexivity|].
      rewrite Hp. reflexivity.
Qed.

(** *** The loop as a whole *)

(** C3. With an interval [time.sleep] accepts: in a pass of the loop in
    which metadata submission, the batch of checks or serialize-and-push
    raises, the exception does not leave the [try] statement and is
    logged by the loop, the sleep of [min_collection_interval] follows,
    the thread is back at the test of the flag with the flag clear and
    no exception uncaught, and its next step enters the next pass.
    Whatever the calls answer, no schedule made of steps of the runner
    alone takes the thread out of the loop. *)
Theorem C3_faults_stay_in_the_cycle (w w' : World) (t : Thread) (secs : Z) :
  place t = LoopTop -> _event (self t) = false ->
  min_collection_interval (_config (self t)) = Some secs -> 0 <= secs ->
  let body := try_body w (self t) in
  let t' := exec (cycle w) t in
  (forall e,
      (metadata_due (self t) (time_monotonic w) = true /\
       metadata_raises w (is_None (_meta_ts (self t))) e) \/
      (metadata_passes w (self t) /\
       (run_checks w = Raise e \/
        (run_checks w = Return tt /\ serialize_and_push w = Raise e))) ->
      res body = Raise e /\
      trace t' = trace t ++ events body
                   ++ [LogException log_line e; Sleep secs]) /\
  (res body = Return tt ->
     trace t' = trace t ++ events body ++ [Sleep secs]) /\
  res (guarded_body w (self t)) = Return tt /\
  place t' = LoopTop /\ _event (self t') = false /\
  uncaught t' = uncaught t /\
  place (step w' t') = InTry /\
  (forall schedule,
      forallb is_Tick schedule = true ->
      place (exec schedule t) <> Exited /\
      uncaught (exec schedule t) = uncaught t).
Proof.
  intros Hp He Hsecs Hpos body t'.
  assert (Hs : sleeps_for (_config (self t)) secs) by (split; assumption).
  assert (Ht' : t' = mkThread (state (guarded_body w (self t))) LoopTop
                       (trace t ++ events (guarded_body w (self t))
                        ++ [Sleep secs])
                       (uncaught t))
    by (apply cycle_run; assumption).
  assert (Hflag : _event (self t') = false).
  { rewrite Ht'. cbn. destruct (guarded_body_flag w (self t)) as [-> _].
    exact He. }
  assert (Hraise : forall e,
             (metadata_due (self t) (time_monotonic w) = true /\
              metadata_raises w (is_None (_meta_ts (self t))) e) \/
             (metadata_passes w (self t) /\
              (run_checks w = Raise e \/
               (run_checks w = Return tt /\ serialize_and_push w = Raise e))) ->
             res body = Raise e).
  { intros e [[Hdue Hf]|[Hpass Hl]].
    - now apply metadata_raise_raises.
    - now apply later_raise_raises. }
  split; [|split; [|split; [|split; [|split; [|split; [|split]]]]]].
  - intros e H. pose proof (Hraise e H) as Hres. split; [exact Hres|].
    rewrite Ht'. cbn [trace]. rewrite guarded_body_events.
    fold body. rewrite Hres, <- app_assoc. reflexivity.
  - intros Hres. rewrite Ht'. cbn [trace]. rewrite guarded_body_events.
    fold body. rewrite Hres, app_nil_r. reflexivity.
  - apply guarded_body_returns.
  - rewrite Ht'. reflexivity.
  - exact Hflag.
  - rewrite Ht'. reflexivity.
  - rewrite step_LoopTop_clear; [reflexivity| |exact Hflag].
    rewrite Ht'. reflexivity.
  - intros schedule Hsch.
    destruct (no_stop_no_exit schedule secs t Hsch He) as (H1 & _ & H3);
      [rewrite Hp; discriminate|exact Hs|].
    split; assumption.
Qed.

(** C4. On the first pass of a new runner the payload is built with the
    start-event flag true and submitted; on a pass at which less than
    [host_metadata_interval] has gone by since the recorded submission
    nothing is built or submitted and the record stays; on a pass at
    which the interval has gone by the payload is built with the flag
    false and submitted.  When the submission returns, the time of the
    pass is recorded. *)
Theorem C4_metadata_schedule (cfg : Config) (w : World) (h : string)
        (m : bool -> Metadata) :
  get_hostname w = Return h ->
  (forall start_event,
      get_metadata w h AGENT_VERSION start_event = Return (m start_event)) ->
  let now := time_monotonic w in
  (let first := exec (cycle w) (run (__init__ cfg)) in
   (exists rest,
       trace first =
         LogInfo "Starting Agent Runner..."
           :: GetHostname :: GetMetadata h AGENT_VERSION true
           :: SubmitMetadata (m true) :: rest) /\
   (submit_metadata w (m true) = Return tt ->
    _meta_ts (self first) = Some now)) /\
  (forall (r : AgentRunner) (ts : Z),
      _meta_ts r = Some ts ->
      let pass := guarded_body w r in
      (now - ts < host_metadata_interval (_config r) ->
       count is_GetMetadata (events pass) = 0%nat /\
       count is_SubmitMetadata (events pass) = 0%nat /\
       _meta_ts (state pass) = Some ts) /\
      (host_metadata_interval (_config r) <= now - ts ->
       (exists rest,
           events pass =
             GetHostname :: GetMetadata h AGENT_VERSION false
                         :: SubmitMetadata (m false) :: rest) /\
       (submit_metadata w (m false) = Return tt ->
        _meta_ts (state pass) = Some now))).
Proof.
  intros Hh Hm now. split; [|intros r ts Hts pass; split].
  - cbv zeta.
    destruct (cycle_any w (run (__init__ cfg)) eq_refl eq_refl)
      as [Hself [rest0 Htrace]].
    cbn [trace self run] in Hself, Htrace.
    destruct (due_pass_events w (__init__ cfg) h (m true))
      as [rest Hev]; [reflexivity|exact Hh|apply Hm|].
    split.
    + rewrite Htrace, Hev. eexists. cbn. reflexivity.
    + intros Hs. rewrite Hself.
      apply (submitted_records w (__init__ cfg) h (m true));
        [reflexivity|exact Hh|apply Hm|exact Hs].
  - intros Hlt. unfold pass. rewrite <- Hts. apply not_due_pass_events.
    unfold metadata_due. rewrite Hts. apply Z.leb_gt. exact Hlt.
  - intros Hge.
    assert (Hdue : metadata_due r (time_monotonic w) = true)
      by (unfold metadata_due; rewrite Hts; apply Z.leb_le; exact Hge).
    split.
    + destruct (due_pass_events w r h (m false) Hdue Hh) as [rest Hev].
      * rewrite Hts. apply Hm.
      * exists rest. unfold pass. rewrite Hev, Hts. reflexivity.
    + intros Hs. apply (submitted_records w r h (m false) Hdue Hh);
        [rewrite Hts; apply Hm|exact Hs].
Qed.

(** C8. [stop] sets the flag and nothing else of the runner (it logs one
    line and does not wait), and a second call leaves the runner as the
    first did.  The steps inside the pass and at the sleep do not read
    the flag.  Once [stop] was called, whatever else is scheduled, the
    thread is out of the loop (so [join] returns) after at most three
    steps of its own, and the trace gains at most one sleep and at most
    one run of the checks; from the test of the flag on, it gains no
    work at all. *)
Theorem C8_stop_sets_the_flag_only (t : Thread) (w : World)
        (schedule : list (Action Metadata)) :
  let stopped := act CallStop t in
  (self stopped = mkRunner (_config (self t)) true (_meta_ts (self t)) /\
   place stopped = place t /\
   trace stopped = trace t ++ [LogInfo "Stopping Agent Runner..."] /\
   res (stop (Metadata := Metadata) (self t)) = Return tt) /\
  self (act CallStop stopped) = self stopped /\
  (forall b, place t <> LoopTop ->
             step w (with_event b t) = with_event b (step w t)) /\
  ((3 <= length (filter is_Tick schedule))%nat ->
   joined (exec schedule stopped) = true) /\
  (count is_Sleep (trace (exec schedule stopped))
     <= count is_Sleep (trace t) + 1)%nat /\
  (count is_RunChecks (trace (exec schedule stopped))
     <= count is_RunChecks (trace t) + 1)%nat /\
  (place t = LoopTop ->
   work (trace (exec schedule stopped)) = work (trace t)).
Proof.
  intros stopped.
  assert (Hflag : _event (self stopped) = true) by reflexivity.
  assert (Hplace : place stopped = place t) by reflexivity.
  repeat split.
  - intros b Hp. clear stopped Hflag Hplace.
    destruct t as [[c e mts] p tr u]. cbn in Hp.
    unfold step, with_event. cbn [place self trace uncaught _config _meta_ts].
    destruct p; [congruence| | |reflexivity].
    + unfold advance. cbn [self trace uncaught].
      rewrite (guarded_body_any_flag w c e b mts). cbn [state events res].
      destruct (res (guarded_body w (mkRunner c e mts))); reflexivity.
    + unfold advance. cbn [self trace uncaught].
      rewrite (sleep_any_flag c e b mts). cbn [state events res].
      rewrite (sleep_state (mkRunner c e mts)).
      destruct (res (sleep (mkRunner c e mts))); reflexivity.
  - intros Hn. unfold joined.
    rewrite (stopped_exits schedule stopped Hflag); [reflexivity|].
    destruct (place stopped); cbn; lia.
  - destruct (stopped_budget schedule stopped Hflag) as [Hs _].
    assert (count is_Sleep (trace stopped) = count is_Sleep (trace t)).
    { unfold stopped, count. cbn. rewrite filter_app, length_app. cbn. lia. }
    assert (sleeps_left (place stopped) <= 1)%nat
      by (destruct (place stopped); cbn; lia).
    lia.
  - destruct (stopped_budget schedule stopped Hflag) as [_ Hr].
    assert (count is_RunChecks (trace stopped) = count is_RunChecks (trace t)).
    { unfold stopped, count. cbn. rewrite filter_app, length_app. cbn. lia. }
    assert (passes_left (place stopped) <= 1)%nat
      by (destruct (place stopped); cbn; lia).
    lia.
  - intros Hp. rewrite (stopped_no_work schedule stopped Hflag).
    + unfold stopped, work. cbn. rewrite filter_app. cbn.
      now rewrite app_nil_r.
    + left. rewrite Hplace. exact Hp.
Qed.

(** C10. The recorded timestamp changes only in a pass whose three
    metadata calls returned: a pass in which building or submitting the
    payload raises leaves the record as it was.  So after any number of
    failed passes a new runner is still in the never-submitted state
    (and, with an interval [time.sleep] accepts, back at the test of the
    flag), its next pass asks for the metadata again and builds it with
    the start-event flag true; and a pass that failed when due leaves a
    runner for which the metadata is due at every later time. *)
Theorem C10_timestamp_waits_for_success (cfg : Config) (ws : list World)
        (w' : World) (h : string) :
  Forall (fun w => metadata_failed w true) ws ->
  get_hostname w' = Return h ->
  let t := exec (flat_map cycle ws) (run (__init__ cfg)) in
  (_meta_ts (self t) = None /\
   ((exists secs, sleeps_for cfg secs) -> place t = LoopTop) /\
   _event (self t) = false) /\
  (exists rest,
      events (guarded_body w' (self t)) =
        GetHostname :: GetMetadata h AGENT_VERSION true :: rest) /\
  (forall (w : World) (r : AgentRunner),
      _meta_ts (state (guarded_body w r)) = _meta_ts r \/
      (metadata_due r (time_monotonic w) = true /\
       exists h m,
         get_hostname w = Return h /\
         get_metadata w h AGENT_VERSION (is_None (_meta_ts r)) = Return m /\
         submit_metadata w m = Return tt /\
         _meta_ts (state (guarded_body w r)) = Some (time_monotonic w))) /\
  (forall (w : World) (r : AgentRunner),
      metadata_failed w (is_None (_meta_ts r)) ->
      _meta_ts (state (guarded_body w r)) = _meta_ts r) /\
  (forall (w w2 : World) (r : AgentRunner),
      metadata_due r (time_monotonic w) = true ->
      metadata_failed w (is_None (_meta_ts r)) ->
      time_monotonic w <= time_monotonic w2 ->
      let r' := state (guarded_body w r) in
      metadata_due r' (time_monotonic w2) = true /\
      exists rest, events (guarded_body w2 r') = GetHostname :: rest).
Proof.
  intros Hall Hh t.
  assert (Hm : _meta_ts (self t) = None)
    by (apply failed_passes_keep_None; [reflexivity|exact Hall]).
  assert (He : _event (self t) = false)
    by (unfold t; rewrite ticks_keep_flag;
        [reflexivity|apply cycles_are_ticks]).
  split; [|split; [|split; [|split]]].
  - split; [exact Hm|]. split; [|exact He].
    intros [secs Hs]. apply (cycles_return ws secs); [reflexivity..|exact Hs].
  - run_monad. unfold metadata_due. rewrite Hm. cbn. rewrite Hh. cbn.
    case_results; eexists; reflexivity.
  - apply meta_ts_after.
  - apply failed_keeps_meta_ts.
  - intros w w2 r Hdue Hf Hle r'.
    assert (Hdue' : metadata_due r' (time_monotonic w2) = true).
    { unfold metadata_due, r'.
      rewrite (failed_keeps_meta_ts w r Hf).
      destruct (guarded_body_flag w r) as [_ ->].
      unfold metadata_due in Hdue.
      destruct (_meta_ts r) as [ts|]; [|reflexivity].
      apply Z.leb_le in Hdue. apply Z.leb_le. lia. }
    split; [exact Hdue'|]. apply due_pass_attempts. exact Hdue'.
Qed.

End Loop.

(** *** A sample run *)

(** Three passes: the submission of the metadata fails in the first and
    is made again, still as the start event, in the second; the third is
    too early for another one. *)
Example loop_sample_run :
  trace (exec (cycle (Samples.world_submit_fails 100)
               ++ cycle (Samples.world_at 115 (Return tt))
               ++ cycle (Samples.world_at 130 (Return tt)))
              (run (__init__ Samples.config0))) =
    [ LogInfo "Starting Agent Runner...";
      GetHostname; GetMetadata "host1" "1.1.2" true;
      SubmitMetadata "host1/1.1.2/start";
      LogException log_line Samples.boom; Sleep 15;
      GetHostname; GetMetadata "host1" "1.1.2" true;
      SubmitMetadata "host1/1.1.2/start";
      RunChecks; SerializeAndPush; Sleep 15;
      RunChecks; SerializeAndPush; Sleep 15 ].
Proof. reflexivity. Qed.

(** With a negative interval the first pass is the last: the exception
    of the batch of checks is logged, then [time.sleep] raises outside
    the [try] and the thread is out of the loop with the flag clear. *)
Example loop_ends_on_negative_interval :
  let t := exec (cycle (Samples.world_at 100 (Raise Samples.boom))
                 ++ cycle (Samples.world_at 115 (Return tt)))
                (run (Metadata := string) (__init__ Samples.config_negative)) in
  trace t =
    [ LogInfo "Starting Agent Runner...";
      GetHostname; GetMetadata "host1" "1.1.2" true;
      SubmitMetadata "host1/1.1.2/start";
      RunChecks; LogException log_line Samples.boom ] /\
  place t = Exited /\ _event (self t) = false /\
  uncaught t = Some (mkExc ValueError "sleep length must be non-negative").
Proof. repeat split. Qed.

(** *** The properties at sample inputs *)

Import Samples.

(** The first pass of a new runner whose batch of checks raises. *)
Lemma C3_faults_stay_in_the_cycle_witness :
  let t := run (Metadata := string) (__init__ config0) in
  let t' := exec (cycle (world_at 100 (Raise boom))) t in
  (place t = LoopTop /\ _event (self t) = false /\
   min_collection_interval (_config (self t)) = Some 15 /\ 0 <= 15) /\
  trace t' =
    [ LogInfo "Starting Agent Runner..."; GetHostname;
      GetMetadata "host1" "1.1.2" true; SubmitMetadata "host1/1.1.2/start";
      RunChecks; LogException log_line boom; Sleep 15 ] /\
  place (step (world_at 115 (Return tt)) t') = InTry.
Proof.
  intros t t'.
  assert (Hpos : 0 <= 15) by discriminate.
  split; [repeat split; exact Hpos|].
  destruct (C3_faults_stay_in_the_cycle string
              (world_at 100 (Raise boom)) (world_at 115 (Return tt)) t 15
              eq_refl eq_refl eq_refl Hpos)
    as (Hraise & _ & _ & _ & _ & _ & Hnext & _).
  split; [|exact Hnext].
  destruct (Hraise boom) as [_ Htrace]; [|exact Htrace].
  right. split; [|left; reflexivity].
  right. exists "host1", "host1/1.1.2/start". repeat split.
Defined.

(** The sentence of the specification fails with a negative interval:
    the delay does not elapse and the thread is not back at the test of
    the flag. *)
Lemma C3_negative_interval_counterexample :
  ~ isolation_as_stated (Metadata := string) config_negative
      (world_at 100 (Raise boom)).
Proof.
  intros H. destruct (H boom eq_refl) as (_ & _ & Hplace).
  vm_compute in Hplace. discriminate Hplace.
Qed.

(** A pass at time 100 in which every call returns. *)
Lemma C4_metadata_schedule_witness :
  let w := world_at 100 (Return tt) in
  get_hostname w = Return "host1" /\
  _meta_ts (self (exec (cycle w) (run (__init__ config0)))) = Some 100%Z /\
  count is_SubmitMetadata
        (events (guarded_body w (mkRunner config0 false (Some 90%Z)))) = 0%nat.
Proof.
  intros w. split; [reflexivity|].
  destruct (C4_metadata_schedule string config0 w "host1"
              (fun start => if start then "host1/1.1.2/start" else "host1/1.1.2")
              eq_refl) as [[_ Hfirst] Hlater].
  - intros [|]; reflexivity.
  - split; [exact (Hfirst eq_refl)|].
    destruct (Hlater (mkRunner config0 false (Some 90%Z)) 90%Z eq_refl)
      as [Hearly _].
    destruct Hearly as (_ & Hnone & _); [cbn; lia|exact Hnone].
Defined.

(** [stop] called during the first pass, then the rest of that pass. *)
Lemma C8_stop_sets_the_flag_only_witness :
  let w := world_at 100 (Return tt) in
  let t := step w (run (Metadata := string) (__init__ config0)) in
  joined (exec (cycle w) (act CallStop t)) = true /\
  (count is_Sleep (trace (exec (cycle w) (act CallStop t))) <= 0 + 1)%nat.
Proof.
  intros w t.
  destruct (C8_stop_sets_the_flag_only string t w (cycle w))
    as (_ & _ & _ & Hjoin & Hsleep & _).
  split; [apply Hjoin; cbn; lia|exact Hsleep].
Defined.

(** Two passes whose submission raises, then a pass at time 130. *)
Lemma C10_timestamp_waits_for_success_witness :
  let ws := [world_submit_fails 100; world_submit_fails 115] in
  let t := exec (flat_map cycle ws) (run (__init__ config0)) in
  Forall (fun w => metadata_failed w true) ws /\
  _meta_ts (self t) = None /\
  exists rest,
    events (guarded_body (world_at 130 (Return tt)) (self t)) =
      GetHostname :: GetMetadata "host1" AGENT_VERSION true :: rest.
Proof.
  intros ws t.
  assert (Hall : Forall (fun w => metadata_failed (Metadata := string) w true) ws).
  { repeat constructor; exists boom; right; right;
      exists "host1", "host1/1.1.2/start"; repeat split. }
  split; [exact Hall|].
  destruct (C10_timestamp_waits_for_success string config0 ws
              (world_at 130 (Return tt)) "host1" Hall eq_refl)
    as ((Hnone & _) & Hnext & _).
  split; [exact Hnone|exact Hnext].
Defined.

End AgentSpec.

(** * Properties of dictionaries *)

Module DictFacts.
Section Dict.
Context {V : Type}.
Implicit Types (d : dict V) (k : string) (v : V).

Lemma dict_get_set k k' v d :
  dict_get k (dict_set k' v d) =
    if String.eqb k k' then Some v else dict_get k d.
Proof.
  induction d as [|[k0 v0] d IH]; cbn.
  - reflexivity.
  - destruct (String.eqb_spec k' k0) as [->|Hne]; cbn.
    + destruct (String.eqb k k0); reflexivity.
    + rewrite IH. destruct (String.eqb_spec k k0) as [->|]; [|reflexivity].
      destruct (String.eqb_spec k0 k'); [congruence|reflexivity].
Qed.

Lemma str_in_keys k d :
  str_in k (dict_keys d) = match dict_get k d with Some _ => true | None => false end.
Proof.
  induction d as [|[k0 v0] d IH]; cbn; [reflexivity|].
  destruct (String.eqb k k0); cbn; [reflexivity|exact IH].
Qed.

Lemma dict_get_app k d1 d2 :
  dict_get k (d1 ++ d2) =
    match dict_get k d1 with Some v => Some v | None => dict_get k d2 end.
Proof.
  induction d1 as [|[k0 v0] d1 IH]; cbn; [reflexivity|].
  destruct (String.eqb k k0); [reflexivity|exact IH].
Qed.

(** [dict_set] keeps keys apart. *)
Lemma dict_set_keys k v d :
  dict_keys (dict_set k v d) =
    if str_in k (dict_keys d) then dict_keys d else dict_keys d ++ [k].
Proof.
  unfold dict_keys, str_in.
  induction d as [|[k0 v0] d IH]; cbn; [reflexivity|].
  destruct (String.eqb_spec k k0) as [->|Hne]; cbn; [reflexivity|].
  rewrite IH. destruct (existsb (String.eqb k) (map fst d)); reflexivity.
Qed.

Lemma str_in_In k (l : list string) : str_in k l = true <-> In k l.
Proof.
  unfold str_in. rewrite existsb_exists. split.
  - intros (x & Hx & Heq). apply String.eqb_eq in Heq. now subst.
  - intros H. exists k. split; [exact H|apply String.eqb_refl].
Qed.

Lemma dict_set_NoDup k v d :
  NoDup (dict_keys d) -> NoDup (dict_keys (dict_set k v d)).
Proof.
  intros Hd. rewrite dict_set_keys.
  destruct (str_in k (dict_keys d)) eqn:E; [exact Hd|].
  apply NoDup_app; [exact Hd|repeat constructor; intros []|].
  intros x Hx [<-|[]].
  apply str_in_In in Hx. congruence.
Qed.

(** [dict(base, **extra)]: an entry of [extra] wins over [base]. *)
Lemma dict_get_merge k (base extra : dict V) :
  NoDup (dict_keys extra) ->
  dict_get k (dict_merge base extra) =
    match dict_get k extra with
    | Some v => Some v
    | None => dict_get k base
    end.
Proof.
  unfold dict_merge. revert base.
  induction extra as [|[k0 v0] extra IH]; intros base Hnd; cbn;
    [reflexivity|].
  inversion Hnd as [|? ? Hnotin Hnd']; subst.
  rewrite IH by exact Hnd'. rewrite dict_get_set.
  destruct (String.eqb_spec k k0) as [->|Hne]; [|reflexivity].
  destruct (dict_get k0 extra) eqn:E; [|reflexivity].
  exfalso. apply Hnotin. apply str_in_In. rewrite str_in_keys, E. reflexivity.
Qed.
End Dict.
End DictFacts.

(** * Properties of the monad *)

Module EffFacts.
Section Frame.
Context {S E : Type}.
Let M := M S E.

Lemma keeps_ret {A} (a : A) : keeps_state (ret a : M A).
Proof. intros s. reflexivity. Qed.

Lemma keeps_raise {A} (e : Exception) : keeps_state (raise e : M A).
Proof. intros s. reflexivity. Qed.

Lemma keeps_emit (ev : E) : keeps_state (emit ev : M unit).
Proof. intros s. reflexivity. Qed.

Lemma keeps_bind {A B} (m : M A) (f : A -> M B) :
  keeps_state m -> (forall a, keeps_state (f a)) -> keeps_state (bind m f).
Proof.
  intros Hm Hf s. unfold bind.
  destruct (res (m s)) as [a|e]; cbn; [|apply Hm].
  rewrite Hm. apply Hf.
Qed.

Lemma keeps_get_bind {B} (f : S -> M B) :
  (forall s, keeps_state (f s)) -> keeps_state (bind get f).
Proof. intros Hf. apply keeps_bind; [intros s; reflexivity|exact Hf]. Qed.

Lemma keeps_try_except {A} (m : M A) classes (h : Exception -> M A) :
  keeps_state m -> (forall e, keeps_state (h e)) ->
  keeps_state (try_except m classes h).
Proof.
  intros Hm Hh s. unfold try_except.
  destruct (res (m s)) as [a|e]; [apply Hm|].
  destruct (match classes with None => true | Some cs => isinstance e cs end);
    cbn; [|apply Hm].
  rewrite Hm. apply Hh.
Qed.

Lemma keeps_for_each {A} (xs : list A) (body : A -> M unit) :
  Forall (fun x => keeps_state (body x)) xs -> keeps_state (for_each xs body).
Proof.
  induction 1 as [|x xs Hx _ IH]; cbn; [apply keeps_ret|].
  apply keeps_bind; [exact Hx|intros _; exact IH].
Qed.

(** A sequence whose first part returns, and one whose first part
    raises. *)
Lemma bind_run {A B} (m : M A) (f : A -> M B) (s s1 : S) (ev : list E) (a : A) :
  m s = mkOut s1 ev (Return a) ->
  bind m f s = mkOut (state (f a s1)) (ev ++ events (f a s1)) (res (f a s1)).
Proof. intros H. unfold bind. rewrite H. reflexivity. Qed.

Lemma bind_raise {A B} (m : M A) (f : A -> M B) (s s1 : S) (ev : list E)
      (e : Exception) :
  m s = mkOut s1 ev (Raise e) ->
  bind m f s = mkOut s1 ev (Raise e).
Proof. intros H. unfold bind. rewrite H. reflexivity. Qed.

End Frame.
End EffFacts.

(** * Properties of the check *)

Module IbmWasSpec.
Import IbmWas DictFacts EffFacts.

(** Induction on a document, with the property known of every child. *)
Lemma Element_forall_ind (P : Element -> Prop) :
  (forall t a cs, Forall P cs -> P (Elem t a cs)) -> forall e, P e.
Proof.
  intros H. fix IH 1. intros [t a cs]. apply H.
  induction cs as [|c cs IHcs]; constructor; [apply IH|exact IHcs].
Qed.

Section Check.
Variable deps : Deps.

Local Open Scope eff_scope.

(** *** The recursion of [process_stats] *)

(** The loop inside [process_child] is the loop of [process_stats]. *)
Lemma inner_loop_for_each (prefix : string) (rtags : list string)
      (level : nat) (cs : list Element) :
  (fix loop (cs : list Element) : Check unit :=
     match cs with
     | [] => ret tt
     | c :: rest => process_child deps prefix rtags level c ;; loop rest
     end) cs
  = for_each cs (process_child deps prefix rtags level).
Proof.
  induction cs as [|c cs IH]; [reflexivity|].
  cbn [for_each]. rewrite <- IH. reflexivity.
Qed.

(** A category child is walked by [process_stats] itself, one level
    down, with the tags of the recursion. *)
Lemma process_child_category (prefix : string) (tags : list string)
      (level : nat) (child : Element) (s : IbmWasCheck) :
  is_category deps child ->
  process_child deps prefix tags level child s =
    process_stats deps (Some child) prefix
                  (recursion_tags s child prefix tags level) (S level) s.
Proof.
  intros [Hleaf Hcat]. destruct child as [t a cs]. cbn in Hleaf, Hcat.
  cbn [process_child]. rewrite Hleaf, Hcat.
  unfold process_stats. cbn [iter children].
  unfold bind at 1. cbn [get res state events app].
  rewrite inner_loop_for_each.
  destruct (for_each cs _ s). reflexivity.
Qed.

Lemma process_child_leaf (prefix : string) (tags : list string)
      (level : nat) (child : Element) :
  is_leaf deps child ->
  process_child deps prefix tags level child =
    submit_metrics deps child prefix tags.
Proof.
  intros Hleaf. destruct child as [t a cs]. cbn in Hleaf.
  cbn [process_child]. rewrite Hleaf. reflexivity.
Qed.

Lemma process_child_other (prefix : string) (tags : list string)
      (level : nat) (child : Element) :
  str_in (tag child) (dict_keys (METRIC_VALUE_FIELDS deps)) = false ->
  str_in (tag child) (CATEGORY_FIELDS deps) = false ->
  process_child deps prefix tags level child = ret tt.
Proof.
  intros H1 H2. destruct child as [t a cs]. cbn in H1, H2.
  cbn [process_child]. rewrite H1, H2. reflexivity.
Qed.

(** The tags of the recursion, by the entry of the list of tag keys at
    the level of the recursion. *)
Lemma recursion_tags_nth_error (s : IbmWasCheck) (child : Element)
      (prefix : string) (tags : list string) (level : nat) :
  recursion_tags s child prefix tags level =
    match dict_get prefix (nested_tags s) with
    | Some tag_list =>
        match nth_error tag_list level with
        | Some key => tags ++ [(key ++ ":" ++ format_opt (attr child "name"))%string]
        | None => tags
        end
    | None => tags
    end.
Proof.
  unfold recursion_tags.
  destruct (dict_get prefix (nested_tags s)) as [tl|]; [|reflexivity].
  destruct (Nat.ltb_spec level (length tl)) as [Hlt|Hge].
  - rewrite (nth_error_nth' tl EmptyString Hlt).
    destruct tl; [cbn in Hlt; lia|reflexivity].
  - rewrite andb_false_r.
    apply nth_error_None in Hge. rewrite Hge. reflexivity.
Qed.

(** *** Leaves *)

(** What [submit_metrics] does on a child whose value field, name and
    kind are found. *)
Lemma submit_metrics_run (s : IbmWasCheck) (child : Element)
      (prefix : string) (tags : list string) (field n : string) (k : Kind) :
  dict_get (tag child) (METRIC_VALUE_FIELDS deps) = Some field ->
  attr child "name" = Some n ->
  dict_get (dispatch_tag s child prefix) metric_type_mapping = Some k ->
  let name := normalize deps n (METRIC_PREFIX ++ "." ++ prefix) in
  let value := VAttr (attr child field) in
  submit_metrics deps child prefix tags s =
    mkOut s
          (if String.eqb prefix "jvm"
           then [Submit k name value tags;
                 Submit GAUGE (name ++ "_gauge") value tags]
           else [Submit k name value tags])
          (Return tt).
Proof.
  intros Hf Hn Hk name value.
  unfold submit_metrics, subscript, submit.
  unfold bind at 1. cbn [get res state events app].
  rewrite Hf. unfold bind at 1. cbn [ret res state events app].
  rewrite Hn. unfold bind at 1. cbn [ret res state events app].
  rewrite Hk. unfold bind at 1. cbn [ret res state events app].
  fold name value.
  destruct (String.eqb prefix "jvm"); reflexivity.
Qed.

Lemma leaf_has_field (child : Element) (field : string) :
  dict_get (tag child) (METRIC_VALUE_FIELDS deps) = Some field ->
  is_leaf deps child.
Proof. intros H. unfold is_leaf. rewrite str_in_keys, H. reflexivity. Qed.

(** C6. A leaf walked under the prefix [jvm] gives exactly two samples,
    the normalized name with the dispatched kind and the same name with
    [_gauge] appended as a GAUGE, with the same tags and value; under
    any other prefix it gives exactly the first of the two. *)
Theorem C6_two_samples_under_jvm (s : IbmWasCheck) (child : Element)
        (prefix : string) (tags : list string) (level : nat)
        (field n : string) (k : Kind) :
  dict_get (tag child) (METRIC_VALUE_FIELDS deps) = Some field ->
  attr child "name" = Some n ->
  dict_get (dispatch_tag s child prefix) metric_type_mapping = Some k ->
  let o := process_child deps prefix tags level child s in
  let name := normalize deps n (METRIC_PREFIX ++ "." ++ prefix) in
  let value := VAttr (attr child field) in
  res o = Return tt /\
  (prefix = "jvm" ->
   events o = [Submit k name value tags;
               Submit GAUGE (name ++ "_gauge") value tags]) /\
  (prefix <> "jvm" -> events o = [Submit k name value tags]).
Proof.
  intros Hf Hn Hk o name value. unfold o.
  rewrite (process_child_leaf prefix tags level child (leaf_has_field _ _ Hf)).
  rewrite (submit_metrics_run s child prefix tags field n k Hf Hn Hk).
  cbn [res events]. fold name value.
  split; [reflexivity|]. split; intros Hp.
  - rewrite Hp. reflexivity.
  - apply String.eqb_neq in Hp. rewrite Hp. reflexivity.
Qed.

(** *** Categories *)

(** C7. In the walk over the children of a node, a child that is a
    category is walked with the same prefix one level down, before the
    children after it; its tags are the current tags followed by
    [key:name], [key] being the entry of the list of tag keys of the
    prefix at the current level and [name] the name of the child, when
    the prefix has such a list with an entry at that level, and the
    current tags otherwise. *)
Theorem C7_category_children_in_order (s : IbmWasCheck) (t : string)
        (a : dict string) (child : Element) (rest : list Element)
        (prefix : string) (tags : list string) (level : nat) :
  is_category deps child ->
  let rtags :=
    match dict_get prefix (nested_tags s) with
    | Some tag_list =>
        match nth_error tag_list level with
        | Some key => tags ++ [(key ++ ":" ++ format_opt (attr child "name"))%string]
        | None => tags
        end
    | None => tags
    end in
  process_stats deps (Some (Elem t a (child :: rest))) prefix tags level s =
    (process_stats deps (Some child) prefix rtags (S level) ;;
     process_stats deps (Some (Elem t a rest)) prefix tags level) s.
Proof.
  intros Hcat rtags. unfold process_stats at 1. cbn [iter children for_each].
  unfold bind. rewrite (process_child_category prefix tags level child s Hcat).
  rewrite recursion_tags_nth_error. fold rtags. reflexivity.
Qed.

(** *** Construction *)

Lemma last_query_Some (key : Query -> option string) (k : string)
      (queries : list Query) (q : Query) :
  last_query key k queries = Some q -> In q queries /\ key q = Some k.
Proof.
  induction queries as [|q0 rest IH]; cbn; [discriminate|].
  destruct (last_query key k rest) as [q'|].
  - intros H. destruct (IH H) as [Hin Hk]. auto.
  - destruct (key q0) as [k'|] eqn:E; [|discriminate].
    destruct (String.eqb_spec k k') as [->|]; [|discriminate].
    intros H. inversion H; subst. auto.
Qed.

Lemma last_query_None (key : Query -> option string) (k : string)
      (queries : list Query) :
  last_query key k queries = None ->
  forall q, In q queries -> key q <> Some k.
Proof.
  induction queries as [|q0 rest IH]; cbn; [intros _ q []|].
  destruct (last_query key k rest) as [q'|]; [discriminate|].
  intros H q [<-|Hin]; [|now apply IH].
  destruct (key q0) as [k'|]; [|discriminate].
  destruct (String.eqb_spec k k') as [->|Hne]; [discriminate|congruence].
Qed.

(** The dictionaries of the loop of [append_custom_queries] after the
    loop: for each key the last query to set it, else what was there. *)
Lemma append_loop_spec (queries : list Query) :
  forall acc acc' : Custom,
    append_loop deps queries acc = Return acc' ->
    (NoDup (dict_keys (fst (fst acc))) -> NoDup (dict_keys (fst (fst acc')))) /\
    (NoDup (dict_keys (snd (fst acc))) -> NoDup (dict_keys (snd (fst acc')))) /\
    (forall k,
        dict_get k (fst (fst acc')) =
          match last_query q_metric_prefix k queries with
          | Some q => Some (tag_keys_of q)
          | None => dict_get k (fst (fst acc))
          end) /\
    (forall k,
        dict_get k (snd (fst acc')) =
          match last_query q_stat k queries with
          | Some q => q_metric_prefix q
          | None => dict_get k (snd (fst acc))
          end).
Proof.
  induction queries as [|q rest IH]; intros acc acc' Hrun; cbn in Hrun.
  - inversion Hrun; subst. cbn. auto.
  - destruct (append_one deps acc q) as [acc1|e] eqn:Hone; [|discriminate].
    destruct (IH acc1 acc' Hrun) as (Hnd1 & Hnd2 & Hrec & Hcat).
    destruct acc as [[rec cats] col]. unfold append_one in Hone.
    destruct (validate_query deps q); [|discriminate].
    destruct (q_metric_prefix q) as [p|] eqn:Hp; [|discriminate].
    destruct (q_stat q) as [st|] eqn:Hst; [|discriminate].
    inversion Hone; subst acc1; clear Hone. cbn [fst snd] in *.
    repeat split.
    + intros H. apply Hnd1. now apply dict_set_NoDup.
    + intros H. apply Hnd2. now apply dict_set_NoDup.
    + intros k. rewrite Hrec. cbn [last_query].
      destruct (last_query q_metric_prefix k rest); [reflexivity|].
      rewrite dict_get_set, Hp.
      destruct (String.eqb k p); reflexivity.
    + intros k. rewrite Hcat. cbn [last_query].
      destruct (last_query q_stat k rest); [reflexivity|].
      rewrite dict_get_set, Hst.
      destruct (String.eqb k st); [now rewrite Hp|reflexivity].
Qed.

(** A query the loop went through has both keys. *)
Lemma append_loop_keys (queries : list Query) :
  forall acc acc' : Custom,
    append_loop deps queries acc = Return acc' ->
    forall q, In q queries ->
              q_metric_prefix q <> None /\ q_stat q <> None.
Proof.
  induction queries as [|q0 rest IH]; intros acc acc' Hrun q Hin;
    [destruct Hin|].
  cbn in Hrun.
  destruct (append_one deps acc q0) as [acc1|e] eqn:Hone; [|discriminate].
  destruct Hin as [->|Hin]; [|exact (IH acc1 acc' Hrun q Hin)].
  destruct acc as [[rec cats] col]. unfold append_one in Hone.
  destruct (validate_query deps q); [|discriminate].
  destruct (q_metric_prefix q); [|discriminate].
  destruct (q_stat q); [|discriminate].
  split; discriminate.
Qed.

(** The check [__init__] builds. *)
Lemma init_spec (inst : Instance) (s : IbmWasCheck) :
  __init__ deps inst = Return s ->
  instance s = inst /\
  custom_stats s = dict_keys (nested_tags s) /\
  (forall p,
      dict_get p (nested_tags s) =
        match last_query q_metric_prefix p (custom_queries inst) with
        | Some q => Some (tag_keys_of q)
        | None => dict_get p (NESTED_TAGS deps)
        end) /\
  (forall c,
      dict_get c (metric_categories s) =
        match last_query q_stat c (custom_queries inst) with
        | Some q => q_metric_prefix q
        | None => dict_get c (METRIC_CATEGORIES deps)
        end).
Proof.
  unfold __init__, append_custom_queries. intros Hinit.
  destruct (append_loop deps (custom_queries inst)
                        ([], [], setup_configured_stats deps inst))
    as [[[rec cats] col]|e] eqn:Hloop; [|discriminate].
  inversion Hinit; subst s; clear Hinit. cbn.
  destruct (append_loop_spec _ _ _ Hloop) as (Hnd1 & Hnd2 & Hrec & Hcat).
  cbn [fst snd] in *.
  repeat split.
  - intros p. rewrite dict_get_merge by (apply Hnd1; constructor).
    rewrite Hrec. cbn.
    destruct (last_query q_metric_prefix p (custom_queries inst)); reflexivity.
  - intros c. rewrite dict_get_merge by (apply Hnd2; constructor).
    rewrite Hcat. cbn.
    destruct (last_query q_stat c (custom_queries inst)) as [q|] eqn:E;
      [|reflexivity].
    destruct (q_metric_prefix q) eqn:Hq; [reflexivity|].
    exfalso. destruct (last_query_Some _ _ _ _ E) as [Hin _].
    destruct (append_loop_keys _ _ _ Hloop q Hin) as [Hsome _]. congruence.
Qed.

(** The prefixes of [custom_stats]: the keys of the built-in table of
    tag keys and the prefixes of the custom queries. *)
Lemma custom_stats_spec (inst : Instance) (s : IbmWasCheck) (prefix : string) :
  __init__ deps inst = Return s ->
  str_in prefix (custom_stats s) = true <->
  In prefix (dict_keys (NESTED_TAGS deps)) \/ custom_extended s prefix.
Proof.
  intros Hinit. destruct (init_spec inst s Hinit) as (Hi & Hcs & Hnest & _).
  rewrite Hcs, str_in_keys, Hnest, <- str_in_In, str_in_keys.
  unfold custom_extended. rewrite Hi.
  destruct (last_query q_metric_prefix prefix (custom_queries inst))
    as [q|] eqn:E.
  - split; [intros _|reflexivity]. right. exists q.
    now apply last_query_Some in E.
  - split.
    + intros H. left. exact H.
    + intros [H|(q & Hin & Hq)]; [exact H|].
      exfalso. exact (last_query_None _ _ _ E q Hin Hq).
Qed.

(** C5, as the code has it.  For a leaf whose value field, name and
    kind are found, submitted by a check [__init__] built: the sample
    is a GAUGE when the type tag is [CountStatistic], the unit is in
    [custom_queries_units_gauge] and the prefix has an entry in the
    merged table of tag keys, that is, is a key of the built-in table
    or the prefix of a custom query; when one of the three fails the
    kind is the one of the type tag. *)
Theorem C5_gauge_for_prefixes_with_tag_keys (inst : Instance)
        (s : IbmWasCheck) (child : Element) (prefix : string)
        (tags : list string) (field n : string) (k : Kind) :
  __init__ deps inst = Return s ->
  dict_get (tag child) (METRIC_VALUE_FIELDS deps) = Some field ->
  attr child "name" = Some n ->
  dict_get (tag child) metric_type_mapping = Some k ->
  let o := submit_metrics deps child prefix tags s in
  let three :=
    tag child = "CountStatistic" /\ unit_in_gauge_units s child = true /\
    (In prefix (dict_keys (NESTED_TAGS deps)) \/ custom_extended s prefix) in
  (three -> first_kind (events o) = Some GAUGE) /\
  (~ three -> first_kind (events o) = Some k).
Proof.
  intros Hinit Hf Hn Hk o three.
  assert (Hthree : three <->
                   (unit_in_gauge_units s child
                    && str_in prefix (custom_stats s)
                    && String.eqb (tag child) "CountStatistic")%bool = true).
  { unfold three. rewrite !andb_true_iff, String.eqb_eq.
    rewrite (custom_stats_spec inst s prefix Hinit). tauto. }
  assert (Hkind : forall k',
             dict_get (dispatch_tag s child prefix) metric_type_mapping = Some k' ->
             first_kind (events o) = Some k').
  { intros k' Hk'. unfold o.
    rewrite (submit_metrics_run s child prefix tags field n k' Hf Hn Hk').
    cbn [events]. destruct (String.eqb prefix "jvm"); reflexivity. }
  split; intros H; apply Hkind; unfold dispatch_tag.
  - apply Hthree in H. rewrite H. reflexivity.
  - destruct (unit_in_gauge_units s child
              && str_in prefix (custom_stats s)
              && String.eqb (tag child) "CountStatistic")%bool eqn:E;
      [|exact Hk].
    exfalso. apply H, Hthree. reflexivity.
Qed.

(** *** The object is only read *)

Lemma keeps_lift {A} (r : result A) : keeps_state (lift r).
Proof. destruct r; intros s; reflexivity. Qed.

Lemma keeps_subscript {V} (d : dict V) (k : string) :
  keeps_state (subscript d k).
Proof. unfold subscript. destruct (dict_get k d); intros s; reflexivity. Qed.

Lemma keeps_submit_service_checks (value : Status) :
  keeps_state (submit_service_checks value).
Proof. intros s. reflexivity. Qed.

Lemma keeps_make_request (w : World) : keeps_state (make_request w).
Proof.
  unfold make_request. apply keeps_get_bind. intros self.
  apply keeps_bind; [|intros; apply keeps_ret].
  apply keeps_try_except.
  - apply keeps_bind; [apply keeps_lift|]. intros resp.
    apply keeps_bind; [apply keeps_lift|]. intros _.
    apply keeps_bind; [apply keeps_submit_service_checks|].
    intros _. apply keeps_ret.
  - intros e. apply keeps_bind; [apply keeps_emit|]. intros _.
    apply keeps_bind; [apply keeps_submit_service_checks|].
    intros _. apply keeps_raise.
Qed.

Lemma keeps_get_node_from_name (xml_data : Element) (path : string) :
  keeps_state (get_node_from_name xml_data path).
Proof.
  unfold get_node_from_name.
  destruct (xpath_stat_named xml_data path); intros s; reflexivity.
Qed.

Lemma keeps_submit_metrics (child : Element) (prefix : string)
      (tags : list string) :
  keeps_state (submit_metrics deps child prefix tags).
Proof.
  unfold submit_metrics. apply keeps_get_bind. intros self.
  apply keeps_bind; [apply keeps_subscript|]. intros field.
  apply keeps_bind.
  { destruct (attr child "name"); [apply keeps_ret|apply keeps_raise]. }
  intros name. apply keeps_bind; [apply keeps_subscript|]. intros kind.
  apply keeps_bind; [apply keeps_emit|]. intros _.
  destruct (String.eqb prefix "jvm"); [apply keeps_emit|apply keeps_ret].
Qed.

Lemma keeps_process_child (child : Element) :
  forall prefix tags level,
    keeps_state (process_child deps prefix tags level child).
Proof.
  induction child as [t a cs IH] using Element_forall_ind.
  intros prefix tags level.
  destruct (str_in t (dict_keys (METRIC_VALUE_FIELDS deps))) eqn:Hleaf.
  - rewrite process_child_leaf by exact Hleaf. apply keeps_submit_metrics.
  - destruct (str_in t (CATEGORY_FIELDS deps)) eqn:Hcat.
    + intros s. rewrite process_child_category by (split; assumption).
      unfold process_stats. cbn [iter children].
      apply keeps_for_each.
      apply Forall_forall. intros c Hc.
      rewrite Forall_forall in IH. apply IH. exact Hc.
    + rewrite process_child_other by assumption. apply keeps_ret.
Qed.

Lemma keeps_process_stats (stats : option Element) (prefix : string)
      (tags : list string) (level : nat) :
  keeps_state (process_stats deps stats prefix tags level).
Proof.
  unfold process_stats. apply keeps_for_each, Forall_forall.
  intros c _. apply keeps_process_child.
Qed.

Lemma keeps_walk_document (xml : Element) : keeps_state (walk_document deps xml).
Proof.
  unfold walk_document. apply keeps_get_bind. intros self.
  apply keeps_for_each, Forall_forall. intros node _.
  apply keeps_for_each, Forall_forall. intros server _.
  apply keeps_for_each, Forall_forall. intros [category prefix] _.
  apply keeps_bind; [apply keeps_emit|]. intros _.
  destruct (dict_get category (collect_stats self)) as [[|]|];
    try apply keeps_ret.
  apply keeps_bind; [apply keeps_get_node_from_name|].
  intros stats. apply keeps_process_stats.
Qed.

Lemma keeps_check (w : World) : keeps_state (check deps w).
Proof.
  unfold check. apply keeps_get_bind. intros self.
  destruct (negb (str_truthy (url self))); [apply keeps_raise|].
  apply keeps_bind; [apply keeps_make_request|]. intros data.
  apply keeps_bind.
  - unfold parse_document. apply keeps_try_except.
    + apply keeps_bind; [apply keeps_lift|]. intros; apply keeps_ret.
    + intros e. apply keeps_bind; [apply keeps_submit_service_checks|].
      intros _. apply keeps_bind; [apply keeps_emit|].
      intros _. apply keeps_ret.
  - intros [xml|]; [apply keeps_walk_document|apply keeps_ret].
Qed.

(** C9. The two maps of a check are those [__init__] builds, once, from
    the built-in tables and the custom queries: the prefix of a category
    is the one of the last custom query that names the category, else
    the built-in one; the tag keys of a prefix are those of the last
    custom query with that prefix, else the built-in ones.  No method
    of the check changes them (none changes the object at all). *)
Theorem C9_maps_are_built_once (inst : Instance) (s : IbmWasCheck) :
  __init__ deps inst = Return s ->
  (forall category,
      dict_get category (metric_categories s) =
        match last_query q_stat category (custom_queries inst) with
        | Some q => q_metric_prefix q
        | None => dict_get category (METRIC_CATEGORIES deps)
        end) /\
  (forall prefix,
      dict_get prefix (nested_tags s) =
        match last_query q_metric_prefix prefix (custom_queries inst) with
        | Some q => Some (tag_keys_of q)
        | None => dict_get prefix (NESTED_TAGS deps)
        end) /\
  (forall w, state (check deps w s) = s) /\
  (forall w, state (make_request w s) = s) /\
  (forall value, state (submit_service_checks value s) = s) /\
  (forall xml path, state (get_node_from_name xml path s) = s) /\
  (forall stats prefix tags level,
      state (process_stats deps stats prefix tags level s) = s) /\
  (forall child prefix tags,
      state (submit_metrics deps child prefix tags s) = s).
Proof.
  intros Hinit. destruct (init_spec inst s Hinit) as (_ & _ & Hnest & Hcat).
  split; [exact Hcat|]. split; [exact Hnest|].
  repeat split; intros.
  - apply keeps_check.
  - apply keeps_make_request.
  - apply keeps_get_node_from_name.
  - apply keeps_process_stats.
  - apply keeps_submit_metrics.
Qed.

(** *** The error paths of [check] *)

(** [make_request] when the fetch succeeds. *)
Lemma make_request_fetched (w : World) (s : IbmWasCheck) (data : string) :
  fetched w data ->
  make_request w s =
    mkOut s
          [ Submit GAUGE SERVICE_CHECK_CONNECT (VInt 1) (service_check_tags s);
            ServiceCheck SERVICE_CHECK_CONNECT OK (service_check_tags s) ]
          (Return data).
Proof.
  intros (resp & Hget & Hstatus & Hdata).
  unfold make_request, try_except, bind, lift, submit_service_checks,
    submit, emit, get, ret.
  cbn. rewrite Hget. cbn. rewrite Hstatus. cbn. rewrite Hdata. reflexivity.
Qed.

(** [make_request] when the fetch fails with one of the two classes of
    its handler. *)
Lemma make_request_fails (w : World) (s : IbmWasCheck) (e : Exception) :
  fetch_fails w e ->
  isinstance e [HTTPError; ConnectionError] = true ->
  make_request w s =
    mkOut s
          [ Warning ("Couldn't connect to URL: " ++ format_opt (url s)
                     ++ " with exception: " ++ exc_msg e
                     ++ ". Please verify the address is reachable");
            Submit GAUGE SERVICE_CHECK_CONNECT (VInt 0) (service_check_tags s);
            ServiceCheck SERVICE_CHECK_CONNECT CRITICAL (service_check_tags s) ]
          (Raise e).
Proof.
  intros Hfail Hclass.
  unfold make_request, try_except, bind, lift, submit_service_checks,
    submit, emit, get, ret, raise.
  cbn [state events res app].
  destruct Hfail as [Hget|(resp & Hget & Hstatus)].
  - rewrite Hget. cbn [state events res app]. rewrite Hclass. reflexivity.
  - rewrite Hget. cbn [state events res app]. rewrite Hstatus.
    cbn [state events res app]. rewrite Hclass. reflexivity.
Qed.

(** The [try] around the parser when it raises the class of the
    handler. *)
Lemma parse_document_error (w : World) (s : IbmWasCheck) (data : string)
      (e : Exception) :
  fromstring w data = Raise e ->
  exc_class e = ParseError ->
  parse_document w data s =
    mkOut s
          [ Submit GAUGE SERVICE_CHECK_CONNECT (VInt 0) (service_check_tags s);
            ServiceCheck SERVICE_CHECK_CONNECT CRITICAL (service_check_tags s);
            LogError ("Unable to parse the XML response: " ++ exc_msg e) ]
          (Return None).
Proof.
  intros Hparse Hclass.
  unfold parse_document, try_except.
  rewrite (bind_raise _ _ s s [] e); [|rewrite Hparse; reflexivity].
  cbn [res state events]. unfold isinstance. rewrite Hclass. reflexivity.
Qed.

(** A parser error of another class goes through the [try]. *)
Lemma parse_document_other (w : World) (s : IbmWasCheck) (data : string)
      (e : Exception) :
  fromstring w data = Raise e ->
  exc_class e <> ParseError ->
  parse_document w data s = mkOut s [] (Raise e).
Proof.
  intros Hparse Hclass.
  unfold parse_document, try_except.
  rewrite (bind_raise _ _ s s [] e); [|rewrite Hparse; reflexivity].
  cbn [res state events]. unfold isinstance.
  destruct (exc_class e); try reflexivity. congruence.
Qed.

(** C1, as the code does it.  The handler around the parser names the
    [ParseError] of [xml.etree.ElementTree]; the parser is that of
    [lxml], whose error for text that is not well-formed is of another
    class.  When the document is fetched and the parser raises an
    exception that is no such [ParseError], the handler is not entered:
    the exception leaves [check] after the OK result of the fetch, and
    the run holds no CRITICAL result and no error line. *)
Theorem C1_syntax_error_leaves_check (w : World) (s : IbmWasCheck)
        (data : string) (e : Exception) :
  str_truthy (url s) = true ->
  fetched w data ->
  fromstring w data = Raise e ->
  exc_class e <> ParseError ->
  let o := check deps w s in
  res o = Raise e /\
  state o = s /\
  events o =
    [ Submit GAUGE SERVICE_CHECK_CONNECT (VInt 1) (service_check_tags s);
      ServiceCheck SERVICE_CHECK_CONNECT OK (service_check_tags s) ] /\
  ~ In (ServiceCheck SERVICE_CHECK_CONNECT CRITICAL (service_check_tags s))
       (events o) /\
  (forall msg, ~ In (LogError msg) (events o)).
Proof.
  intros Hurl Hfetch Hparse Hclass o.
  assert (Ho : o = mkOut s
                 [ Submit GAUGE SERVICE_CHECK_CONNECT (VInt 1) (service_check_tags s);
                   ServiceCheck SERVICE_CHECK_CONNECT OK (service_check_tags s) ]
                 (Raise e)).
  { unfold o, check.
    rewrite (bind_run get _ s s [] s eq_refl). rewrite Hurl. cbn [negb].
    rewrite (bind_run _ _ s s _ data (make_request_fetched w s data Hfetch)).
    rewrite (bind_raise _ _ s s [] e (parse_document_other w s data e Hparse Hclass)).
    reflexivity. }
  rewrite Ho. cbn [res state events]. repeat split.
  - intros [H|[H|[]]]; discriminate H.
  - intros msg [H|[H|[]]]; discriminate H.
Qed.

(** C2, as the code has it.  When the fetch fails with an HTTP error or
    a connection error, [check] logs a warning, hands in the connection
    gauge 0 and a CRITICAL result, and raises the same exception again,
    out of [check]: nothing is parsed and no other sample is made. *)
Theorem C2_fetch_failure_is_raised_again (w : World) (s : IbmWasCheck)
        (e : Exception) :
  str_truthy (url s) = true ->
  fetch_fails w e ->
  isinstance e [HTTPError; ConnectionError] = true ->
  let o := check deps w s in
  res o = Raise e /\
  state o = s /\
  events o =
    [ Warning ("Couldn't connect to URL: " ++ format_opt (url s)
               ++ " with exception: " ++ exc_msg e
               ++ ". Please verify the address is reachable");
      Submit GAUGE SERVICE_CHECK_CONNECT (VInt 0) (service_check_tags s);
      ServiceCheck SERVICE_CHECK_CONNECT CRITICAL (service_check_tags s) ].
Proof.
  intros Hurl Hfail Hclass o. unfold o, check.
  rewrite (bind_run get _ s s [] s eq_refl). rewrite Hurl. cbn [negb].
  rewrite (bind_raise _ _ s s _ e (make_request_fails w s e Hfail Hclass)).
  repeat split.
Qed.

End Check.

(** *** Sample runs *)

(** The sample document through [check0]: the counter of [jvm] twice, as
    a GAUGE since its unit is in the set of gauge units, and the counter
    of the thread pool with the tag of its pool. *)
Example check_sample_document :
  events (check Samples.spec_deps Samples.world_ok Samples.check0) =
    [ Submit GAUGE "ibm_was.can_connect" (VInt 1) Samples.sct0;
      ServiceCheck "ibm_was.can_connect" OK Samples.sct0;
      LogDebug "Collecting JVM Runtime stats";
      Submit GAUGE "ibm_was.jvm.requestcount" (VAttr (Some "7"))
             ["server:S1"; "env:dev"; "node:N1"];
      Submit GAUGE "ibm_was.jvm.requestcount_gauge" (VAttr (Some "7"))
             ["server:S1"; "env:dev"; "node:N1"];
      LogDebug "Collecting Thread Pools stats";
      Submit MONOTONIC_COUNT "ibm_was.thread_pools.createcount"
             (VAttr (Some "3"))
             ["server:S1"; "env:dev"; "node:N1"; "thread_pool:WebContainer"] ].
Proof. reflexivity. Qed.

(** An HTTP error status: same path as a refused connection. *)
Example check_http_error :
  res (check Samples.spec_deps Samples.world_500 Samples.check0) =
    Raise (mkExc HTTPError "500 Server Error").
Proof. reflexivity. Qed.

(** [normalize-space] of XPath. *)
Example normalize_space_sample :
  normalize_space "  JVM   Runtime " = "JVM Runtime".
Proof. reflexivity. Qed.

(** *** The properties at sample inputs *)

Import Samples.

(** The text of the document is cut short: the parser of [lxml] raises
    its syntax error, and [check] raises it in turn. *)
Lemma C1_syntax_error_leaves_check_witness :
  let o := check spec_deps world_malformed check0 in
  (fetched world_malformed "<PerformanceMonitor" /\
   exc_class syntax_error <> ParseError) /\
  res o = Raise syntax_error /\
  service_checks (events o) = [ServiceCheck SERVICE_CHECK_CONNECT OK sct0] /\
  (forall msg, ~ In (LogError msg) (events o)).
Proof.
  intros o.
  assert (Hf : fetched world_malformed "<PerformanceMonitor")
    by (eexists; repeat split).
  assert (Hc : exc_class syntax_error <> ParseError) by discriminate.
  split; [split; assumption|].
  destruct (C1_syntax_error_leaves_check spec_deps world_malformed check0
              "<PerformanceMonitor" syntax_error eq_refl Hf eq_refl Hc)
    as (Hres & _ & Hev & _ & Hlog).
  split; [exact Hres|]. split; [|exact Hlog].
  unfold o. rewrite Hev. reflexivity.
Defined.

(** The connection is refused. *)
Lemma C2_fetch_failure_is_raised_again_witness :
  let o := check spec_deps world_refused check0 in
  fetch_fails world_refused refused /\
  res o = Raise refused /\
  service_checks (events o) = [ServiceCheck SERVICE_CHECK_CONNECT CRITICAL sct0].
Proof.
  intros o.
  assert (Hf : fetch_fails world_refused refused) by (left; reflexivity).
  split; [exact Hf|].
  destruct (C2_fetch_failure_is_raised_again spec_deps world_refused check0
              refused eq_refl Hf eq_refl) as (Hres & _ & Hev).
  split; [exact Hres|].
  unfold o. rewrite Hev. reflexivity.
Defined.

(** The sentence of the specification fails on that run: the exception
    leaves [check]. *)
Lemma C2_not_raised_counterexample :
  ~ fetch_failure_as_stated spec_deps world_refused check0.
Proof.
  intros H.
  destruct (H refused) as (_ & Hquiet);
    [left; reflexivity|reflexivity|].
  vm_compute in Hquiet. discriminate Hquiet.
Qed.

(** A counter of the built-in category [jvm], with no custom query. *)
Lemma C5_gauge_for_prefixes_with_tag_keys_witness :
  __init__ spec_deps instance0 = Return check0 /\
  ~ custom_extended check0 "jvm" /\
  first_kind (events (submit_metrics spec_deps leaf_count "jvm" ["node:N1"] check0))
    = Some GAUGE.
Proof.
  split; [reflexivity|]. split.
  - intros (q & Hin & _). exact Hin.
  - destruct (C5_gauge_for_prefixes_with_tag_keys spec_deps instance0 check0
                leaf_count "jvm" ["node:N1"] "count" "requestCount"
                MONOTONIC_COUNT eq_refl eq_refl eq_refl eq_refl) as [Hyes _].
    apply Hyes. split; [reflexivity|]. split; [reflexivity|].
    left. left. reflexivity.
Defined.

(** The sentence of the specification fails there: the prefix [jvm]
    comes from no custom query, and the counter is still a GAUGE. *)
Lemma C5_builtin_prefix_diverges :
  ~ remap_as_stated spec_deps check0 leaf_count "jvm" ["node:N1"].
Proof.
  intros H.
  destruct (H MONOTONIC_COUNT eq_refl eq_refl) as [_ Hno].
  assert (Hk : first_kind
                 (events (submit_metrics spec_deps leaf_count "jvm"
                                         ["node:N1"] check0))
               = Some MONOTONIC_COUNT).
  { apply Hno. intros (_ & _ & (q & Hin & _)). exact Hin. }
  vm_compute in Hk. discriminate Hk.
Qed.

(** The counter of the scenario of the specification, with no unit in the
    set of gauge units. *)
Lemma C6_two_samples_under_jvm_witness :
  let s := mkCheck instance0 (servlet_url instance0) [] [] [] [("jvm", [])]
                   [("JVM Runtime", "jvm")] ["jvm"] [] in
  events (process_child spec_deps "jvm" ["node:N1"; "server:S1"] 0 leaf_count s) =
    [ Submit MONOTONIC_COUNT "ibm_was.jvm.requestcount" (VAttr (Some "7"))
             ["node:N1"; "server:S1"];
      Submit GAUGE "ibm_was.jvm.requestcount_gauge" (VAttr (Some "7"))
             ["node:N1"; "server:S1"] ].
Proof.
  intros s.
  destruct (C6_two_samples_under_jvm spec_deps s leaf_count "jvm"
              ["node:N1"; "server:S1"] 0 "count" "requestCount"
              MONOTONIC_COUNT eq_refl eq_refl eq_refl) as (_ & Hjvm & _).
  exact (Hjvm eq_refl).
Defined.

(** The thread pool of the sample document: the list of tag keys of
    [thread_pools] has an entry at level 0. *)
Lemma C7_category_children_in_order_witness :
  let pool :=
    Elem "Stat" [("name", "WebContainer")]
         [ Elem "CountStatistic"
                [("name", "CreateCount"); ("unit", "N/A"); ("count", "3")] [] ] in
  is_category spec_deps pool /\
  events (process_stats spec_deps
            (Some (Elem "Stat" [("name", "Thread Pools")] [pool]))
            "thread_pools" ["server:S1"] 0 check0) =
    [ Submit MONOTONIC_COUNT "ibm_was.thread_pools.createcount"
             (VAttr (Some "3")) ["server:S1"; "thread_pool:WebContainer"] ].
Proof.
  intros pool.
  assert (Hcat : is_category spec_deps pool) by (split; reflexivity).
  split; [exact Hcat|].
  rewrite (C7_category_children_in_order spec_deps check0 "Stat"
             [("name", "Thread Pools")] pool [] "thread_pools"
             ["server:S1"] 0 Hcat).
  reflexivity.
Defined.

(** The check built from [instance1]: the category [JVM Runtime] goes to
    the prefix of the custom query, [Object Pool] to the prefix of the
    later of its two queries. *)
Lemma C9_maps_are_built_once_witness :
  exists s,
    __init__ spec_deps instance1 = Return s /\
    dict_get "JVM Runtime" (metric_categories s) = Some "my_jvm" /\
    dict_get "Object Pool" (metric_categories s) = Some "pool" /\
    dict_get "Thread Pools" (metric_categories s) = Some "thread_pools" /\
    dict_get "pool" (nested_tags s) = Some ["pool_impl"] /\
    state (check spec_deps world_ok s) = s.
Proof.
  destruct (__init__ spec_deps instance1) as [s|e] eqn:Hinit;
    [|vm_compute in Hinit; discriminate Hinit].
  exists s.
  destruct (C9_maps_are_built_once spec_deps instance1 s Hinit)
    as (Hcat & Hnest & Hcheck & _).
  split; [reflexivity|].
  rewrite !Hcat, Hnest. repeat split. apply Hcheck.
Defined.

End IbmWasSpec.

(** * Further properties of computations *)

Module EffMore.
Import EffWords.
Section Emits.
Context {S E : Type}.
Let M := M S E.

Lemma emits_ret {A} (P : E -> Prop) (a : A) : emits_only P (ret a : M A).
Proof. intros s. constructor. Qed.

Lemma emits_raise {A} (P : E -> Prop) (e : Exception) :
  emits_only P (raise e : M A).
Proof. intros s. constructor. Qed.

Lemma emits_emit (P : E -> Prop) (ev : E) : P ev -> emits_only P (emit ev : M unit).
Proof. intros H s. repeat constructor. exact H. Qed.

Lemma emits_bind {A B} (P : E -> Prop) (m : M A) (f : A -> M B) :
  emits_only P m -> (forall a, emits_only P (f a)) -> emits_only P (bind m f).
Proof.
  intros Hm Hf s. unfold bind.
  destruct (res (m s)) as [a|e]; cbn; [|apply Hm].
  apply Forall_app. split; [apply Hm|apply Hf].
Qed.

Lemma emits_get_bind {B} (P : E -> Prop) (f : S -> M B) :
  (forall s, emits_only P (f s)) -> emits_only P (bind get f).
Proof. intros Hf. apply emits_bind; [intros s; constructor|exact Hf]. Qed.

Lemma emits_try_except {A} (P : E -> Prop) (m : M A) classes
      (h : Exception -> M A) :
  emits_only P m -> (forall e, emits_only P (h e)) ->
  emits_only P (try_except m classes h).
Proof.
  intros Hm Hh s. unfold try_except.
  destruct (res (m s)) as [a|e]; [apply Hm|].
  destruct (match classes with None => true | Some cs => isinstance e cs end);
    cbn; [|apply Hm].
  apply Forall_app. split; [apply Hm|apply Hh].
Qed.

Lemma emits_for_each {A} (P : E -> Prop) (xs : list A) (body : A -> M unit) :
  (forall x, In x xs -> emits_only P (body x)) ->
  emits_only P (for_each xs body).
Proof.
  induction xs as [|x xs IH]; intros H; cbn; [apply emits_ret|].
  apply emits_bind; [apply H; now left|].
  intros _. apply IH. intros y Hy. apply H. now right.
Qed.

Lemma emits_weaken {A} (P Q : E -> Prop) (m : M A) :
  (forall ev, P ev -> Q ev) -> emits_only P m -> emits_only Q m.
Proof.
  intros HPQ Hm s. eapply Forall_impl; [exact HPQ|apply Hm].
Qed.

(** A loop whose body does nothing on the items [keep] rejects is the
    loop over the items it keeps. *)
Lemma for_each_filter {A} (keep : A -> bool) (xs : list A) (body : A -> M unit) :
  (forall x s, keep x = false -> body x s = mkOut s [] (Return tt)) ->
  forall s, for_each xs body s = for_each (filter keep xs) body s.
Proof.
  intros Hskip. induction xs as [|x xs IH]; intros s; [reflexivity|].
  cbn [for_each filter]. destruct (keep x) eqn:Hk.
  - cbn [for_each]. unfold bind.
    destruct (res (body x s)); [|reflexivity]. rewrite IH. reflexivity.
  - unfold bind. rewrite (Hskip x s Hk). cbn [res state events app].
    rewrite <- IH. destruct (for_each xs body s). reflexivity.
Qed.

Lemma begins_refl {X} (l : list X) : begins l l.
Proof. exists []. now rewrite app_nil_r. Qed.

Lemma begins_trans {X} (l1 l2 l3 : list X) :
  begins l1 l2 -> begins l2 l3 -> begins l1 l3.
Proof.
  intros [m1 ->] [m2 ->]. exists (m1 ++ m2). now rewrite app_assoc.
Qed.

Lemma begins_app {X} (l l1 l2 : list X) :
  begins l1 l2 -> begins (l ++ l1) (l ++ l2).
Proof. intros [m ->]. exists m. now rewrite app_assoc. Qed.

Lemma prepend_prepend {A} (evs evs' : list E) (o : Out S E A) :
  prepend evs (prepend evs' o) = prepend (evs ++ evs') o.
Proof. unfold prepend. cbn. now rewrite app_assoc. Qed.

Lemma bind_emit {B} (ev : E) (f : unit -> M B) (s : S) :
  bind (emit ev) f s = prepend [ev] (f tt s).
Proof. reflexivity. Qed.

Lemma bind_ret {A B} (a : A) (f : A -> M B) (s : S) :
  bind (ret a) f s = prepend [] (f a s).
Proof. reflexivity. Qed.

Lemma bind_call {A B} (ev : E) (r : result A) (f : A -> M B) (s : S) :
  bind (call ev r) f s =
    match r with
    | Return a => prepend [ev] (f a s)
    | Raise e => mkOut s [ev] (Raise e)
    end.
Proof. unfold bind, call. destruct r; reflexivity. Qed.

Lemma bind_assoc {A B C} (m : M A) (f : A -> M B) (g : B -> M C) (s : S) :
  bind (bind m f) g s = bind m (fun a => bind (f a) g) s.
Proof.
  unfold bind. destruct (res (m s)) as [a|e]; cbn; [|reflexivity].
  destruct (res (f a (state (m s)))); cbn; [|reflexivity].
  now rewrite app_assoc.
Qed.

Lemma cut_refl {A} (m : M A) : cut_short m m.
Proof. intros s. left. reflexivity. Qed.

Lemma cut_bind {A B} (m m' : M A) (f f' : A -> M B) :
  cut_short m m' -> (forall a, cut_short (f a) (f' a)) ->
  cut_short (bind m f) (bind m' f').
Proof.
  intros Hm Hf s. destruct (Hm s) as [Heq|[[e He] Hb]].
  - unfold bind. rewrite Heq.
    destruct (res (m' s)) as [a|e]; [|left; reflexivity].
    destruct (Hf a (state (m' s))) as [Heq2|[[e He2] Hb2]].
    + left. rewrite Heq2. reflexivity.
    + right. cbn. split; [exists e; exact He2|apply begins_app, Hb2].
  - right. unfold bind. rewrite He. cbn. split; [eexists; reflexivity|].
    destruct (res (m' s)); cbn; [|exact Hb].
    eapply begins_trans; [exact Hb|]. eexists. reflexivity.
Qed.

Lemma cut_try_except {A} (m : M A) classes (h h' : Exception -> M A) :
  (forall e, cut_short (h e) (h' e)) ->
  cut_short (try_except m classes h) (try_except m classes h').
Proof.
  intros Hh s. unfold try_except.
  destruct (res (m s)) as [a|e]; [left; reflexivity|].
  destruct (match classes with None => true | Some cs => isinstance e cs end);
    [|left; reflexivity].
  destruct (Hh e (state (m s))) as [Heq|[[e' He'] Hb]].
  - left. rewrite Heq. reflexivity.
  - right. cbn. split; [exists e'; exact He'|apply begins_app, Hb].
Qed.
End Emits.
End EffMore.

(** * Further properties of the check *)

Module IbmWasMore.
Import IbmWas IbmWasHttp DictFacts EffFacts EffWords EffMore IbmWasSpec.

Section Check.
Variable deps : Deps.

Local Open Scope eff_scope.

Lemma emits_lift {A} (P : Event -> Prop) (r : result A) :
  emits_only P (lift r : Check A).
Proof. destruct r; intros s; constructor. Qed.

Lemma emits_subscript {V} (P : Event -> Prop) (d : dict V) (k : string) :
  emits_only P (subscript d k).
Proof. unfold subscript. destruct (dict_get k d); intros s; constructor. Qed.

(** *** [submit_metrics] *)

Lemma submit_metrics_tags (child : Element) (prefix : string)
      (tags : list string) :
  emits_only (sample_extending tags) (submit_metrics deps child prefix tags).
Proof.
  unfold submit_metrics. apply emits_get_bind. intros self.
  apply emits_bind; [apply emits_subscript|]. intros field.
  apply emits_bind.
  { destruct (attr child "name"); [apply emits_ret|apply emits_raise]. }
  intros name. apply emits_bind; [apply emits_subscript|]. intros kind.
  apply emits_bind; [apply emits_emit; apply begins_refl|]. intros _.
  destruct (String.eqb prefix "jvm");
    [apply emits_emit; apply begins_refl|apply emits_ret].
Qed.

(** X1. [submit_metrics] hands in one or two samples and returns, or
    hands in nothing and raises a [KeyError] (no value field for the type
    tag, or no kind for it) or a [TypeError] (no [name] attribute); it
    never leaves a sample behind an exception. *)
Theorem submit_metrics_all_or_nothing (s : IbmWasCheck) (child : Element)
        (prefix : string) (tags : list string) :
  let o := submit_metrics deps child prefix tags s in
  (res o = Return tt /\
   (length (events o) = 1 \/ length (events o) = 2) /\
   Forall (sample_extending tags) (events o)) \/
  (exists e, res o = Raise e /\ events o = [] /\
             (exc_class e = KeyError \/ exc_class e = TypeError)).
Proof.
  intros o. unfold o. clear o.
  destruct (dict_get (tag child) (METRIC_VALUE_FIELDS deps)) as [field|] eqn:Hf.
  - destruct (attr child "name") as [n|] eqn:Hn.
    + destruct (dict_get (dispatch_tag s child prefix) metric_type_mapping)
        as [k|] eqn:Hk.
      * left.
        rewrite (submit_metrics_run deps s child prefix tags field n k Hf Hn Hk).
        cbn [res events].
        destruct (String.eqb prefix "jvm"); cbn [length];
          (split; [reflexivity|split; [auto|]]);
          repeat constructor; apply begins_refl.
      * right. exists (mkExc KeyError (dispatch_tag s child prefix)).
        unfold submit_metrics.
        rewrite (bind_run get _ s s [] s eq_refl).
        rewrite (bind_run (subscript _ _) _ s s [] field)
          by (unfold subscript; rewrite Hf; reflexivity).
        rewrite Hn. rewrite (bind_run (ret n) _ s s [] n eq_refl).
        rewrite (bind_raise (subscript _ _) _ s s []
                            (mkExc KeyError (dispatch_tag s child prefix)))
          by (unfold subscript; rewrite Hk; reflexivity).
        cbn. split; [reflexivity|split; [reflexivity|left; reflexivity]].
    + right. exists (mkExc TypeError "not expecting type NoneType").
      unfold submit_metrics.
      rewrite (bind_run get _ s s [] s eq_refl).
      rewrite (bind_run (subscript _ _) _ s s [] field)
        by (unfold subscript; rewrite Hf; reflexivity).
      rewrite Hn.
      rewrite (bind_raise (raise _) _ s s []
                          (mkExc TypeError "not expecting type NoneType") eq_refl).
      cbn. split; [reflexivity|split; [reflexivity|right; reflexivity]].
  - right. exists (mkExc KeyError (tag child)).
    unfold submit_metrics.
    rewrite (bind_run get _ s s [] s eq_refl).
    rewrite (bind_raise (subscript _ _) _ s s [] (mkExc KeyError (tag child)))
      by (unfold subscript; rewrite Hf; reflexivity).
    cbn. split; [reflexivity|split; [reflexivity|left; reflexivity]].
Qed.

(** *** [process_stats] *)

Lemma process_child_tags (child : Element) :
  forall prefix tags level,
    emits_only (sample_extending tags)
               (process_child deps prefix tags level child).
Proof.
  induction child as [t a cs IH] using Element_forall_ind.
  intros prefix tags level.
  destruct (str_in t (dict_keys (METRIC_VALUE_FIELDS deps))) eqn:Hleaf.
  - rewrite process_child_leaf by exact Hleaf. apply submit_metrics_tags.
  - destruct (str_in t (CATEGORY_FIELDS deps)) eqn:Hcat.
    + intros s. rewrite process_child_category by (split; assumption).
      assert (Hb : begins tags
                     (recursion_tags s (Elem t a cs) prefix tags level)).
      { rewrite recursion_tags_nth_error.
        destruct (dict_get prefix (nested_tags s)) as [tl|];
          [|apply begins_refl].
        destruct (nth_error tl level); [eexists; reflexivity|apply begins_refl]. }
      unfold process_stats. cbn [iter children].
      eapply Forall_impl;
        [|apply emits_for_each; intros c Hc;
          rewrite Forall_forall in IH; apply (IH c Hc)].
      intros [k n v tg| | | |]; cbn; try tauto.
      intros Htg. exact (begins_trans _ _ _ Hb Htg).
    + rewrite process_child_other by assumption. apply emits_ret.
Qed.

Lemma process_stats_tags (stats : option Element) (prefix : string)
      (tags : list string) (level : nat) :
  emits_only (sample_extending tags)
             (process_stats deps stats prefix tags level).
Proof.
  unfold process_stats. apply emits_for_each.
  intros c _. apply process_child_tags.
Qed.

(** X2. Whatever the statistics below a node, [process_stats] hands in
    samples only, and the tags of each begin with the tags it was called
    with: the walk only ever appends tags. *)
Theorem process_stats_only_appends_tags (stats : option Element)
        (prefix : string) (tags : list string) (level : nat) (s : IbmWasCheck) :
  Forall (sample_extending tags)
         (events (process_stats deps stats prefix tags level s)).
Proof. apply process_stats_tags. Qed.

(** X3. Children that are neither statistics nor categories do not count:
    the walk over the children of a node is the walk over those of them
    whose type tag is known. *)
Theorem process_stats_skips_unknown_children (t : string) (a : dict string)
        (cs : list Element) (prefix : string) (tags : list string)
        (level : nat) (s : IbmWasCheck) :
  process_stats deps (Some (Elem t a cs)) prefix tags level s =
    process_stats deps (Some (Elem t a (filter (known_child deps) cs)))
                  prefix tags level s.
Proof.
  unfold process_stats. cbn [iter children].
  apply for_each_filter. intros c s' Hk. unfold known_child in Hk.
  apply orb_false_iff in Hk as [H1 H2].
  rewrite process_child_other by assumption. reflexivity.
Qed.

(** *** [check] after the fetch *)

Lemma parse_document_ok (w : World) (s : IbmWasCheck) (data : string)
      (xml : Element) :
  fromstring w data = Return xml ->
  parse_document w data s = mkOut s [] (Return (Some xml)).
Proof.
  intros Hparse. unfold parse_document, try_except.
  rewrite (bind_run _ _ s s [] xml); [reflexivity|].
  rewrite Hparse. reflexivity.
Qed.

(** What [walk_document] hands in, call by call. *)
Lemma walk_document_emits (P : Event -> Prop) (xml : Element) (s : IbmWasCheck) :
  (forall msg, P (LogDebug msg)) ->
  (forall msg, P (Warning msg)) ->
  (forall node server ev,
      In node (findall xml "Node") -> In server (findall node "Server") ->
      sample_extending (server_tags s node server) ev -> P ev) ->
  Forall P (events (walk_document deps xml s)).
Proof.
  intros Hdebug Hwarn Hsample. unfold walk_document.
  rewrite (bind_run get _ s s [] s eq_refl). cbn [events app].
  apply emits_for_each. intros node Hnode.
  apply emits_for_each. intros server Hserver.
  apply emits_for_each. intros [category prefix] _.
  apply emits_bind; [apply emits_emit; apply Hdebug|]. intros _.
  destruct (dict_get category (collect_stats s)) as [[|]|];
    try apply emits_ret.
  apply emits_bind.
  - unfold get_node_from_name.
    destruct (xpath_stat_named server category);
      [apply emits_bind; [apply emits_emit; apply Hwarn|intros; apply emits_ret]
      |apply emits_ret].
  - intros stats s'.
    eapply Forall_impl; [|apply process_stats_tags].
    intros ev Hev. exact (Hsample node server ev Hnode Hserver Hev).
Qed.

Lemma walk_document_quiet (xml : Element) (s : IbmWasCheck) :
  Forall quiet (events (walk_document deps xml s)).
Proof.
  apply walk_document_emits; try (intros; exact I).
  intros node server [k n v tg| | | |] _ _; cbn; tauto.
Qed.

Lemma quiet_no_service_checks (evs : list Event) :
  Forall quiet evs -> service_checks evs = [].
Proof.
  induction 1 as [|ev evs Hev _ IH]; [reflexivity|].
  unfold service_checks in *. cbn [filter].
  destruct ev; cbn in Hev; try contradiction; exact IH.
Qed.

(** X4. Every sample [check] makes from the document carries the tag of
    a server, the tags of the instance and the tag of the node of that
    server, in this order, before anything the walk appended; the node
    is a [Node] child of the root and the server a [Server] child of it. *)
Theorem walk_samples_carry_server_tags (xml : Element) (s : IbmWasCheck) :
  Forall (sample_of_a_server s xml) (events (walk_document deps xml s)).
Proof.
  apply walk_document_emits; try (intros; exact I).
  intros node server [k n v tg| | | |] Hnode Hserver; cbn; try tauto.
  intros Htg. exists node, server. repeat split; assumption.
Qed.

(** X5. A run of [check] whose fetch and parse succeed hands in the
    connection gauge 1 and the OK result first, then only what the walk
    of the document gives, in which there is no further service check
    and no error line: exactly one service check, OK, whatever the
    document holds and whether or not the walk raises. *)
Theorem check_parsed_gives_one_ok (w : World) (s : IbmWasCheck)
        (data : string) (xml : Element) :
  str_truthy (url s) = true ->
  fetched w data ->
  fromstring w data = Return xml ->
  let o := check deps w s in
  let walk := walk_document deps xml s in
  events o =
    Submit GAUGE SERVICE_CHECK_CONNECT (VInt 1) (service_check_tags s)
      :: ServiceCheck SERVICE_CHECK_CONNECT OK (service_check_tags s)
      :: events walk /\
  res o = res walk /\
  Forall quiet (events walk) /\
  service_checks (events o) =
    [ServiceCheck SERVICE_CHECK_CONNECT OK (service_check_tags s)].
Proof.
  intros Hurl Hfetch Hparse o walk.
  assert (Ho : o = mkOut (state walk)
                     (Submit GAUGE SERVICE_CHECK_CONNECT (VInt 1) (service_check_tags s)
                        :: ServiceCheck SERVICE_CHECK_CONNECT OK (service_check_tags s)
                        :: events walk)
                     (res walk)).
  { unfold o, check.
    rewrite (bind_run get _ s s [] s eq_refl). rewrite Hurl. cbn [negb].
    rewrite (bind_run _ _ s s _ data (make_request_fetched w s data Hfetch)).
    rewrite (bind_run _ _ s s _ (Some xml) (parse_document_ok w s data xml Hparse)).
    reflexivity. }
  pose proof (walk_document_quiet xml s) as Hquiet. fold walk in Hquiet.
  rewrite Ho. cbn [events res]. repeat split; [exact Hquiet|].
  unfold service_checks. cbn [filter]. f_equal.
  apply quiet_no_service_checks. exact Hquiet.
Qed.

(** X6. A fetch that fails with an exception of another class than the
    two of the handler (a read timeout, say) leaves [check] as it came:
    no warning, no gauge, no service check, neither OK nor CRITICAL. *)
Theorem check_unhandled_fetch_error_is_silent (w : World) (s : IbmWasCheck)
        (e : Exception) :
  str_truthy (url s) = true ->
  fetch_fails w e ->
  isinstance e [HTTPError; ConnectionError] = false ->
  check deps w s = mkOut s [] (Raise e).
Proof.
  intros Hurl Hfail Hclass. unfold check.
  rewrite (bind_run get _ s s [] s eq_refl). rewrite Hurl. cbn [negb].
  rewrite (bind_raise _ _ s s [] e); [reflexivity|].
  unfold make_request.
  rewrite (bind_run get _ s s [] s eq_refl).
  rewrite (bind_raise _ _ s s [] e); [reflexivity|].
  unfold try_except.
  destruct Hfail as [Hget|(resp & Hget & Hstatus)].
  - rewrite (bind_raise _ _ s s [] e) by (rewrite Hget; reflexivity).
    cbn [res]. rewrite Hclass. reflexivity.
  - rewrite (bind_run _ _ s s [] resp) by (rewrite Hget; reflexivity).
    rewrite (bind_raise _ _ s s [] e) by (rewrite Hstatus; reflexivity).
    cbn [res state events app]. rewrite Hclass. reflexivity.
Qed.

(** *** [get_node_from_name] *)




(** *** Construction *)

Lemma append_loop_ok (queries : list Query) :
  forall acc : Custom,
    Forall (query_ok deps) queries ->
    exists acc', append_loop deps queries acc = Return acc'.
Proof.
  induction queries as [|q rest IH]; intros acc Hall; [eexists; reflexivity|].
  inversion Hall as [|? ? (Hv & Hp & Hs) Hrest]; subst.
  cbn. destruct acc as [[rec cats] col]. unfold append_one. rewrite Hv.
  destruct (q_metric_prefix q); [|congruence].
  destruct (q_stat q); [|congruence].
  apply IH. exact Hrest.
Qed.

Lemma append_loop_all_ok (queries : list Query) :
  forall acc acc' : Custom,
    append_loop deps queries acc = Return acc' ->
    Forall (query_ok deps) queries.
Proof.
  induction queries as [|q rest IH]; intros acc acc' Hrun; [constructor|].
  cbn in Hrun.
  destruct (append_one deps acc q) as [acc1|e] eqn:Hone; [|discriminate].
  constructor; [|exact (IH acc1 acc' Hrun)].
  destruct acc as [[rec cats] col]. unfold append_one in Hone.
  unfold query_ok.
  destruct (validate_query deps q) as [[]|]; [|discriminate].
  destruct (q_metric_prefix q); [|discriminate].
  destruct (q_stat q); [|discriminate].
  repeat split; discriminate.
Qed.

Lemma append_loop_first_bad (good : list Query) (bad : Query)
      (rest : list Query) (e : Exception) :
  forall acc : Custom,
    Forall (query_ok deps) good ->
    validate_query deps bad = Raise e ->
    append_loop deps (good ++ bad :: rest) acc = Raise e.
Proof.
  induction good as [|q good IH]; intros acc Hgood Hbad.
  - cbn. destruct acc as [[rec cats] col]. unfold append_one.
    rewrite Hbad. reflexivity.
  - inversion Hgood as [|? ? (Hv & Hp & Hs) Hrest]; subst.
    cbn. destruct acc as [[rec cats] col]. unfold append_one. rewrite Hv.
    destruct (q_metric_prefix q); [|congruence].
    destruct (q_stat q); [|congruence].
    apply IH; assumption.
Qed.

(** X9. [__init__] builds a check exactly when every custom query passes
    [validate_query] and has its [stat] and its [metric_prefix]; and when
    a query fails the validation, the queries before it being accepted,
    [__init__] raises what the validation raised: no check is built on a
    part of the queries. *)
Theorem init_needs_every_query_valid (inst : Instance) :
  ((exists s, __init__ deps inst = Return s) <->
   Forall (query_ok deps) (custom_queries inst)) /\
  (forall good bad rest e,
      custom_queries inst = good ++ bad :: rest ->
      Forall (query_ok deps) good ->
      validate_query deps bad = Raise e ->
      __init__ deps inst = Raise e).
Proof.
  split; [split|].
  - intros [s Hinit]. unfold __init__, append_custom_queries in Hinit.
    destruct (append_loop deps (custom_queries inst)
                          ([], [], setup_configured_stats deps inst))
      as [acc'|e] eqn:Hloop; [|discriminate].
    exact (append_loop_all_ok _ _ _ Hloop).
  - intros Hall. unfold __init__, append_custom_queries.
    destruct (append_loop_ok _ ([], [], setup_configured_stats deps inst) Hall)
      as [[[rec cats] col] ->].
    eexists. reflexivity.
  - intros good bad rest e Hq Hgood Hbad.
    unfold __init__, append_custom_queries. rewrite Hq.
    rewrite (append_loop_first_bad good bad rest e _ Hgood Hbad). reflexivity.
Qed.

(** *** The categories collected *)

Lemma setup_fold_get (inst : Instance) (c : string) (l : dict string) :
  forall acc : dict bool,
    dict_get c
      (fold_left
         (fun collect cp =>
            let '(category, prefix) := cp in
            let opt := match dict_get ("collect_" ++ prefix ++ "_stats")
                                      (options inst) with
                       | Some v => v
                       | None => PyBool true
                       end in
            if _is_affirmative deps opt
            then dict_set category true collect else collect)
         l acc) =
      if existsb (fun cp => String.eqb c (fst cp)
                            && collect_option_on deps inst (snd cp)) l
      then Some true else dict_get c acc.
Proof.
  induction l as [|[category prefix] l IH]; intros acc; [reflexivity|].
  cbn [fold_left existsb fst snd]. rewrite IH. unfold collect_option_on at 2.
  destruct (existsb _ l); [now rewrite orb_true_r|]. rewrite orb_false_r.
  destruct (_is_affirmative deps _); [|now rewrite andb_false_r].
  rewrite dict_get_set, andb_true_r. reflexivity.
Qed.

Lemma append_loop_collect (queries : list Query) (c : string) :
  forall acc acc' : Custom,
    append_loop deps queries acc = Return acc' ->
    dict_get c (snd acc') =
      if existsb (fun q => match q_stat q with
                           | Some st => String.eqb c st
                           | None => false
                           end) queries
      then Some true else dict_get c (snd acc).
Proof.
  induction queries as [|q rest IH]; intros acc acc' Hrun; cbn in Hrun.
  - inversion Hrun; subst. reflexivity.
  - destruct (append_one deps acc q) as [acc1|e] eqn:Hone; [|discriminate].
    rewrite (IH acc1 acc' Hrun). cbn [existsb].
    destruct (existsb _ rest); [now rewrite orb_true_r|]. rewrite orb_false_r.
    destruct acc as [[rec cats] col]. unfold append_one in Hone.
    destruct (validate_query deps q); [|discriminate].
    destruct (q_metric_prefix q); [|discriminate].
    destruct (q_stat q) as [st|]; [|discriminate].
    inversion Hone; subst acc1. cbn [snd]. apply dict_get_set.
Qed.

(** X10. In a check [__init__] built, a category is collected exactly
    when it is a built-in category whose option [collect_<prefix>_stats]
    is affirmative or absent, or the [stat] of a custom query: a custom
    query turns its category on whatever the options say.  No category
    is ever recorded as switched off. *)
Theorem collected_categories (inst : Instance) (s : IbmWasCheck) (c : string) :
  __init__ deps inst = Return s ->
  (dict_get c (collect_stats s) = Some true <->
   (exists prefix, In (c, prefix) (METRIC_CATEGORIES deps) /\
                   collect_option_on deps inst prefix = true) \/
   (exists q, In q (custom_queries inst) /\ q_stat q = Some c)) /\
  dict_get c (collect_stats s) <> Some false.
Proof.
  unfold __init__, append_custom_queries. intros Hinit.
  destruct (append_loop deps (custom_queries inst)
                        ([], [], setup_configured_stats deps inst))
    as [[[rec cats] col]|e] eqn:Hloop; [|discriminate].
  inversion Hinit; subst s; clear Hinit. cbn [collect_stats].
  pose proof (append_loop_collect _ c _ _ Hloop) as Hcol. cbn [snd] in Hcol.
  unfold setup_configured_stats in Hcol. rewrite setup_fold_get in Hcol.
  cbn [dict_get] in Hcol. rewrite Hcol. clear Hcol Hloop.
  destruct (existsb _ (custom_queries inst)) eqn:Hq.
  - split; [|discriminate]. split; [intros _|reflexivity].
    right. apply existsb_exists in Hq as (q & Hin & Hst).
    exists q. split; [exact Hin|].
    destruct (q_stat q) as [st|]; [|discriminate].
    apply String.eqb_eq in Hst. now subst.
  - destruct (existsb _ (METRIC_CATEGORIES deps)) eqn:Hb.
    + split; [|discriminate]. split; [intros _|reflexivity].
      left. apply existsb_exists in Hb as ([category prefix] & Hin & Hcp).
      cbn [fst snd] in Hcp. apply andb_true_iff in Hcp as [Hc Hon].
      apply String.eqb_eq in Hc. subst. exists prefix. auto.
    + split; [|discriminate]. split; [discriminate|].
      intros [(prefix & Hin & Hon)|(q & Hin & Hst)]; exfalso.
      * assert (existsb (fun cp => String.eqb c (fst cp)
                                   && collect_option_on deps inst (snd cp))
                        (METRIC_CATEGORIES deps) = true); [|congruence].
        apply existsb_exists. exists (c, prefix). split; [exact Hin|].
        cbn [fst snd]. now rewrite String.eqb_refl, Hon.
      * assert (existsb (fun q => match q_stat q with
                                  | Some st => String.eqb c st
                                  | None => false
                                  end) (custom_queries inst) = true);
          [|congruence].
        apply existsb_exists. exists q. split; [exact Hin|].
        rewrite Hst. apply String.eqb_refl.
Qed.

(** *** The HTTP options *)

(** X11. The options [__init__] passes to [requests.get]: credentials are
    sent only when both [username] and [password] are set and not empty;
    a [tls_ca_cert] that is a string is the bundle to verify against,
    whatever [tls_verify] says, and without one verification is off
    exactly when [tls_verify] is not affirmative; a client certificate is
    sent only when [tls_cert] is a string, and [tls_private_key] alone
    never is. *)
Theorem http_options_rules (inst : Instance) :
  let o := http_options deps inst in
  let tls_verify :=
    _is_affirmative deps (match dict_get "tls_verify" (options inst) with
                          | Some v => v
                          | None => PyBool true
                          end) in
  (auth o <> None <->
   py_truthy (instance_get inst "username") = true /\
   py_truthy (instance_get inst "password") = true) /\
  (forall a, auth o = Some a ->
             a = (instance_get inst "username", instance_get inst "password")) /\
  (forall path, verify o = VerifyBundle path <->
                instance_get inst "tls_ca_cert" = PyStr path) /\
  (verify o = VerifyFalse <->
   (forall path, instance_get inst "tls_ca_cert" <> PyStr path) /\
   tls_verify = false) /\
  (cert o = CertNone <->
   forall c, instance_get inst "tls_cert" <> PyStr c) /\
  (forall c k, cert o = CertPair c k <->
               instance_get inst "tls_cert" = PyStr c /\
               instance_get inst "tls_private_key" = PyStr k).
Proof.
  intros o tls_verify. unfold o, http_options. fold tls_verify.
  cbn [auth cert verify].
  split; [|split; [|split; [|split; [|split]]]].
  - destruct (py_truthy (instance_get inst "username"));
      destruct (py_truthy (instance_get inst "password")); cbn;
      intuition (try discriminate; try congruence).
  - intros a. destruct (_ && _)%bool; congruence.
  - intros path.
    destruct (instance_get inst "tls_ca_cert");
      destruct (negb tls_verify); split; congruence.
  - destruct (instance_get inst "tls_ca_cert") as [| | |p];
      destruct tls_verify; cbn; split;
      try (intros [Hno Hv]); try congruence; try discriminate;
      try (intros _; split; [intros ?|]; congruence);
      try (exfalso; exact (Hno p eq_refl)).
  - destruct (instance_get inst "tls_cert") as [| | |c].
    + split; [intros _ c; discriminate|reflexivity].
    + split; [intros _ c; discriminate|reflexivity].
    + split; [intros _ c; discriminate|reflexivity].
    + split.
      * destruct (instance_get inst "tls_private_key"); discriminate.
      * intros Hno. exfalso. exact (Hno c eq_refl).
  - intros c k.
    destruct (instance_get inst "tls_cert") as [| | |c'];
      try (split; [discriminate|intros [? ?]; discriminate]).
    destruct (instance_get inst "tls_private_key") as [| | |k'];
      try (split; [discriminate|intros [? ?]; discriminate]).
    split; [intros H; inversion H; auto|intros [H1 H2]; congruence].
Qed.

End Check.

(** *** The properties at sample inputs *)

Import Samples MoreSamples.

(** The sample document: one OK result, then the samples of the walk. *)
Lemma check_parsed_gives_one_ok_witness :
  fetched world_ok "<PerformanceMonitor/>" /\
  service_checks (events (check spec_deps world_ok check0)) =
    [ServiceCheck SERVICE_CHECK_CONNECT OK sct0].
Proof.
  assert (Hf : fetched world_ok "<PerformanceMonitor/>")
    by (eexists; repeat split).
  split; [exact Hf|].
  destruct (check_parsed_gives_one_ok spec_deps world_ok check0
              "<PerformanceMonitor/>" document eq_refl Hf eq_refl)
    as (_ & _ & _ & Hone).
  exact Hone.
Defined.

(** A read timeout. *)
Lemma check_unhandled_fetch_error_is_silent_witness :
  fetch_fails world_timeout timed_out /\
  check spec_deps world_timeout check0 = mkOut check0 [] (Raise timed_out).
Proof.
  assert (Hf : fetch_fails world_timeout timed_out) by (left; reflexivity).
  split; [exact Hf|].
  exact (check_unhandled_fetch_error_is_silent spec_deps world_timeout check0
           timed_out eq_refl Hf eq_refl).
Defined.

(** Thread pools switched off by their option and on again by a custom
    query; the JVM category switched off and left off. *)
Lemma collected_categories_witness :
  exists s,
    __init__ spec_deps instance_pools = Return s /\
    dict_get "Thread Pools" (collect_stats s) = Some true /\
    dict_get "JVM Runtime" (collect_stats s) = None.
Proof.
  destruct (__init__ spec_deps instance_pools) as [s|e] eqn:Hinit;
    [|vm_compute in Hinit; discriminate Hinit].
  exists s. split; [reflexivity|].
  destruct (collected_categories spec_deps instance_pools s "Thread Pools" Hinit)
    as [Hpools _].
  destruct (collected_categories spec_deps instance_pools s "JVM Runtime" Hinit)
    as [Hjvm Hnot].
  split.
  - apply Hpools. right. eexists. split; [left; reflexivity|reflexivity].
  - assert (Hoff : dict_get "JVM Runtime" (collect_stats s) <> Some true).
    { intros E. apply Hjvm in E.
      destruct E as [(prefix & Hin & Hon)|(q & Hin & Hq)].
      - destruct Hin as [Hin|[Hin|[]]]; inversion Hin; subst;
          vm_compute in Hon; discriminate Hon.
      - destruct Hin as [<-|[]]. discriminate Hq. }
    destruct (dict_get "JVM Runtime" (collect_stats s)) as [[|]|];
      [congruence|congruence|reflexivity].
Defined.

(** Both names of a category with white space around and inside. *)
Example get_node_from_name_spaces :
  res (get_node_from_name
         (Elem "Server" [("name", "S1")]
               [ Elem "Stat" [("name", " Thread
   Pools ")] [] ])
         "Thread Pools" Samples.check0) =
    Return (Some (Elem "Stat" [("name", " Thread
   Pools ")] [])).
Proof. reflexivity. Qed.

(** The options of [instance_tls]: the bundle wins over [tls_verify],
    the lone key and the lone user name are dropped. *)
Example http_options_sample :
  http_options spec_deps instance_tls =
    mkHttpOptions None CertNone (VerifyBundle "/etc/ssl/was-ca.pem").
Proof. reflexivity. Qed.

End IbmWasMore.

(** * Further properties of the collection loop *)

Module AgentMore.
Import Agent AgentWords AgentSpec.

Local Open Scope Z_scope.

(** A list is shown to hold an event by its place in it. *)
Ltac in_list := cbn; repeat (first [left; reflexivity | right]).

(** The metadata part is shown to let the pass go on from the answers in
    the context. *)
Ltac passes :=
  first [ left; reflexivity
        | right; eexists; eexists; repeat split;
          first [reflexivity | eassumption] ].

(** Both sides of an equivalence hold, or both fail, by the answers in
    the context. *)
Ltac holds :=
  split; [ intros _; first [passes | split; [passes|reflexivity]]
         | intros _; in_list ].
Ltac fails :=
  split; [ intros H; exfalso; cbn in H; intuition discriminate
         | intros H; exfalso;
           first [ destruct H as [[H|(h' & m' & H1 & H2 & H3)] H4]; congruence
                 | destruct H as [H|(h' & m' & H1 & H2 & H3)]; congruence ] ].

Section Loop.
Variable Metadata : Type.
Let World := World Metadata.
Let Thread := Thread Metadata.
Let Event := Event Metadata.

Lemma pass_calls (w : World) (r : AgentRunner) :
  let evs := events (guarded_body w r) in
  (In RunChecks evs <-> metadata_passes w r) /\
  (In SerializeAndPush evs <->
   metadata_passes w r /\ run_checks w = Return tt).
Proof.
  cbv zeta. unfold metadata_passes. run_monad.
  destruct (metadata_due r (time_monotonic w)) eqn:Hdue; cbn;
    [ destruct (get_hostname w) as [h|e] eqn:Hh; cbn;
      [ destruct (get_metadata w h AGENT_VERSION (is_None (_meta_ts r)))
          as [m|e] eqn:Hm; cbn;
        [ destruct (submit_metadata w m) as [[]|e] eqn:Hs; cbn | ] | ] | ];
    try (destruct (run_checks w) as [[]|e] eqn:Hchecks; cbn;
         [destruct (serialize_and_push w) as [[]|e] eqn:Hpush; cbn|]);
    (split; first [solve [holds] | solve [fails]]).
Qed.

(** X12. In a pass of the loop the checks are run exactly when the
    metadata part lets the pass go on (it is not due, or its three calls
    return), and serialize-and-push is called exactly when, moreover, the
    run of the checks returns: a failed metadata submission costs the
    pass its checks, and failed checks cost it its push. *)
Theorem pass_runs_checks_after_metadata (w : World) (r : AgentRunner) :
  let evs := events (guarded_body w r) in
  (In RunChecks evs <-> metadata_passes w r) /\
  (In SerializeAndPush evs <->
   metadata_passes w r /\ run_checks w = Return tt).
Proof. apply pass_calls. Qed.

Lemma count_zero (p : Event -> bool) (evs : list Event) :
  (forall ev, In ev evs -> p ev = false) -> count p evs = 0%nat.
Proof.
  unfold count. induction evs as [|ev evs IH]; intros H; [reflexivity|].
  cbn [filter]. rewrite (H ev (or_introl eq_refl)).
  apply IH. intros x Hx. apply H. now right.
Qed.

Lemma count_app (p : Event -> bool) (l1 l2 : list Event) :
  count p (l1 ++ l2) = (count p l1 + count p l2)%nat.
Proof. unfold count. now rewrite filter_app, length_app. Qed.

(** A pass of a runner that never submitted, whose metadata part fails,
    runs no check. *)
Lemma failed_pass_runs_no_check (w : World) (r : AgentRunner) :
  _meta_ts r = None -> metadata_failed w true ->
  count is_RunChecks (events (guarded_body w r)) = 0%nat.
Proof.
  intros Hnone [e Hf]. apply count_zero. intros ev Hin.
  destruct ev; try reflexivity. exfalso.
  apply (proj1 (pass_calls w r)) in Hin.
  destruct Hin as [Hdue|(h & m & Hh & Hm & Hs)].
  - unfold metadata_due in Hdue. rewrite Hnone in Hdue. discriminate.
  - rewrite Hnone in Hm. cbn in Hm.
    destruct Hf as [H|[(h' & H1 & H2)|(h' & m' & H1 & H2 & H3)]]; congruence.
Qed.

(** A step whose metadata part fails, on a runner that never submitted,
    runs no check, wherever the thread is. *)
Lemma starved_step (w : World) (t : Thread) :
  _meta_ts (self t) = None -> metadata_failed w true ->
  count is_RunChecks (trace (step w t)) = count is_RunChecks (trace t).
Proof.
  intros Hm Hw. unfold step. destruct (place t); cbn [trace]; try reflexivity.
  - destruct (_event (self t)); reflexivity.
  - rewrite advance_trace, count_app,
      (failed_pass_runs_no_check w (self t) Hm Hw). lia.
  - rewrite advance_trace, count_app.
    destruct (sleep_counts Metadata (self t)) as [_ ->]. lia.
Qed.

Lemma starved_passes (ws : list World) :
  forall t : Thread,
    _meta_ts (self t) = None ->
    Forall (fun w => metadata_failed w true) ws ->
    count is_RunChecks (trace (exec (flat_map cycle ws) t))
      = count is_RunChecks (trace t).
Proof.
  induction ws as [|w ws IH]; intros t Hm Hall; [reflexivity|].
  inversion Hall as [|? ? Hw Hws]; subst.
  cbn [flat_map]. rewrite exec_app, IH; [|
    unfold cycle, exec; cbn [fold_left act];
    repeat apply failed_step_keeps_None; assumption | exact Hws].
  unfold cycle, exec. cbn [fold_left act].
  rewrite !starved_step; try assumption; try reflexivity;
    repeat apply failed_step_keeps_None; assumption.
Qed.

(** X13. As long as the metadata part fails on a runner that never
    submitted (the host name does not resolve, the payload cannot be
    built or submitted), no check is run: after any number of such
    passes the trace of a new runner holds no run of the checks. *)
Theorem failing_metadata_starves_checks (cfg : Config) (ws : list World) :
  Forall (fun w => metadata_failed w true) ws ->
  count is_RunChecks
        (trace (exec (flat_map cycle ws) (run (Metadata := Metadata) (__init__ cfg))))
    = 0%nat.
Proof.
  intros Hall.
  rewrite (starved_passes ws (run (__init__ cfg)) eq_refl Hall).
  reflexivity.
Qed.

(** X14. Undisturbed passes from the test of the flag, with an
    interval [time.sleep] accepts and whatever their calls answer: each
    adds exactly one sleep of [min_collection_interval] and at most one
    run of the checks, and the thread is back at the test of the flag. *)
Theorem every_pass_sleeps_once (ws : list World) (secs : Z) :
  forall t : Thread,
    place t = LoopTop -> _event (self t) = false ->
    sleeps_for (_config (self t)) secs ->
    let t' := exec (flat_map cycle ws) t in
    place t' = LoopTop /\
    filter is_Sleep (trace t') =
      filter is_Sleep (trace t) ++ repeat (Sleep secs) (length ws) /\
    (count is_RunChecks (trace t')
       <= count is_RunChecks (trace t) + length ws)%nat.
Proof.
  induction ws as [|w ws IH]; intros t Hp He Hsl; cbv zeta.
  - cbn. rewrite app_nil_r. repeat split; [exact Hp|lia].
  - cbn [flat_map]. rewrite exec_app, (cycle_run Metadata w t secs Hp He Hsl).
    destruct (guarded_body_flag Metadata w (self t)) as [Hflag Hcfg].
    destruct (IH (mkThread (state (guarded_body w (self t))) LoopTop
                           (trace t ++ events (guarded_body w (self t))
                            ++ [Sleep secs])
                           (uncaught t))
                 eq_refl) as (Hp' & Hs' & Hr').
    { cbn [self]. rewrite Hflag. exact He. }
    { cbn [self]. rewrite Hcfg. exact Hsl. }
    cbn [self trace] in Hs', Hr'.
    destruct (try_body_no_sleep Metadata w (self t)) as [H0 H1].
    split; [exact Hp'|]. split.
    + rewrite Hs'. rewrite !filter_app. cbn [filter is_Sleep length repeat].
      unfold count in H0. apply length_zero_iff_nil in H0. rewrite H0.
      cbn [app]. rewrite <- app_assoc. reflexivity.
    + eapply Nat.le_trans; [exact Hr'|].
      rewrite !count_app. unfold count at 3. cbn [filter is_RunChecks length].
      cbn [length]. lia.
Qed.

(** A thread that is out of the loop takes no further step. *)
Lemma exited_stays (schedule : list (Action Metadata)) :
  forall t : Thread,
    place t = Exited -> forallb is_Tick schedule = true ->
    exec schedule t = t.
Proof.
  induction schedule as [|a rest IH]; intros t Hp Hs; [reflexivity|].
  cbn in Hs. apply andb_true_iff in Hs as [Ha Hrest].
  destruct a as [w|]; [|discriminate].
  change (exec (Tick w :: rest) t) with (exec rest (step w t)).
  unfold step. rewrite Hp. apply IH; assumption.
Qed.

(** X7. The sleep is outside the [try]: with an interval [time.sleep]
    refuses (none, or a negative one) the first pass is the last.  Its
    body is run and guarded as ever, then the exception of the sleep, a
    [TypeError] or a [ValueError], ends the thread with the flag still
    clear and nothing slept, and no later step adds anything. *)
Theorem refused_interval_ends_the_thread (w : World)
        (schedule : list (Action Metadata)) :
  forall t : Thread,
    place t = LoopTop -> _event (self t) = false ->
    (forall secs, ~ sleeps_for (_config (self t)) secs) ->
    forallb is_Tick schedule = true ->
    let t' := exec (cycle w) t in
    place t' = Exited /\
    (exists e, uncaught t' = Some e /\
               (exc_class e = TypeError \/ exc_class e = ValueError)) /\
    _event (self t') = false /\
    trace t' = trace t ++ events (guarded_body w (self t)) /\
    exec schedule t' = t'.
Proof.
  intros t Hp He Hno Hsch. cbv zeta.
  assert (Hrun : exists e,
             exec (cycle w) t =
               mkThread (state (guarded_body w (self t))) Exited
                        (trace t ++ events (guarded_body w (self t)))
                        (Some e) /\
             (exc_class e = TypeError \/ exc_class e = ValueError)).
  { unfold cycle, exec. cbn [fold_left act].
    rewrite (step_LoopTop_clear Metadata w t Hp He).
    rewrite (step_InTry Metadata w
               (mkThread (self t) InTry (trace t) (uncaught t)) eq_refl).
    cbn [self trace uncaught]. unfold step, advance. cbn [place self trace].
    destruct (guarded_body_flag Metadata w (self t)) as [_ Hcfg].
    revert Hno. rewrite <- Hcfg.
    generalize (state (guarded_body w (self t))). intros r Hno.
    cbv beta iota zeta delta
      [sleep time_sleep bind get raise emit state events res].
    destruct (min_collection_interval (_config r)) as [n|] eqn:Hn.
    - destruct (n <? 0) eqn:E.
      + eexists. split; [rewrite app_nil_r; reflexivity|right; reflexivity].
      + exfalso. apply (Hno n). split; [exact Hn|]. apply Z.ltb_ge. exact E.
    - eexists. split; [rewrite app_nil_r; reflexivity|left; reflexivity]. }
  destruct Hrun as (e & Hrun & Hclass). rewrite Hrun.
  cbn [place uncaught self trace].
  split; [reflexivity|]. split; [|split; [|split]].
  - exists e. split; [reflexivity|exact Hclass].
  - destruct (guarded_body_flag Metadata w (self t)) as [-> _]. exact He.
  - reflexivity.
  - apply exited_stays; [reflexivity|exact Hsch].
Qed.

(** Once a submission is recorded, a pass builds no start event and a
    submission stays recorded. *)
Lemma recorded_pass (w : World) (r : AgentRunner) :
  _meta_ts r <> None ->
  Forall (fun ev => is_start_event ev = false) (events (guarded_body w r)) /\
  _meta_ts (state (guarded_body w r)) <> None.
Proof.
  intros Hsome. split.
  - run_monad. destruct (_meta_ts r) as [ts|] eqn:Hts; [|congruence].
    unfold metadata_due. rewrite Hts. cbn.
    destruct (host_metadata_interval (_config r) <=? time_monotonic w - ts);
      cbn; case_results; repeat constructor.
  - destruct (meta_ts_after Metadata w r) as [->|(_ & h & m & _ & _ & _ & ->)];
      [exact Hsome|discriminate].
Qed.

(** X15. The start event is built at most until the first recorded
    submission: from a runner with a recorded submission on, whatever is
    scheduled (steps of the loop, calls to [stop]), no payload is built
    with the start-event flag true, and a submission stays recorded. *)
Theorem start_event_only_before_first_record
        (schedule : list (Action Metadata)) :
  forall t : Thread,
    _meta_ts (self t) <> None ->
    exists new,
      trace (exec schedule t) = trace t ++ new /\
      Forall (fun ev => is_start_event ev = false) new /\
      _meta_ts (self (exec schedule t)) <> None.
Proof.
  induction schedule as [|a rest IH]; intros t Hsome.
  - exists []. rewrite app_nil_r. repeat split; [constructor|exact Hsome].
  - change (exec (a :: rest) t) with (exec rest (act a t)).
    assert (Hact : exists new,
               trace (act a t) = trace t ++ new /\
               Forall (fun ev => is_start_event ev = false) new /\
               _meta_ts (self (act a t)) <> None).
    { destruct a as [w|]; cbn [act].
      - unfold step. destruct (place t).
        + exists []. rewrite app_nil_r.
          destruct (_event (self t)); repeat split; try constructor; exact Hsome.
        + destruct (recorded_pass w (self t) Hsome) as [Hev Hm].
          eexists. rewrite advance_trace, advance_self.
          split; [reflexivity|]. split; [exact Hev|exact Hm].
        + eexists. rewrite advance_trace, advance_self, sleep_state.
          split; [reflexivity|]. split; [|exact Hsome].
          destruct (sleep_only_sleeps Metadata (self t)) as [-> | [n ->]];
            repeat constructor.
        + exists []. rewrite app_nil_r.
          repeat split; [constructor|exact Hsome].
      - eexists. split; [reflexivity|]. split;
          [repeat constructor|exact Hsome]. }
    destruct Hact as (new1 & Htr1 & Hnew1 & Hsome1).
    destruct (IH (act a t) Hsome1) as (new2 & Htr2 & Hnew2 & Hsome2).
    exists (new1 ++ new2). rewrite Htr2, Htr1, app_assoc.
    repeat split; [apply Forall_app; split; assumption|exact Hsome2].
Qed.

End Loop.

(** *** The properties at sample inputs *)

Import Samples.

(** Two passes whose submission raises: no run of the checks. *)
Lemma failing_metadata_starves_checks_witness :
  let ws := [world_submit_fails 100; world_submit_fails 115] in
  Forall (fun w => metadata_failed w true) ws /\
  count is_RunChecks
        (trace (exec (flat_map cycle ws) (run (__init__ config0)))) = 0%nat.
Proof.
  intros ws.
  assert (Hall : Forall (fun w => metadata_failed (Metadata := string) w true) ws).
  { repeat constructor; exists boom; right; right;
      exists "host1", "host1/1.1.2/start"; repeat split. }
  split; [exact Hall|].
  exact (failing_metadata_starves_checks string config0 ws Hall).
Defined.

(** Three passes, the second with failing checks: three sleeps of 15. *)
Lemma every_pass_sleeps_once_witness :
  let ws := [world_at 100 (Return tt); world_at 115 (Raise boom);
             world_at 130 (Return tt)] in
  let t := run (Metadata := string) (__init__ config0) in
  (place t = LoopTop /\ _event (self t) = false /\
   min_collection_interval (_config (self t)) = Some 15 /\ 0 <= 15) /\
  filter is_Sleep (trace (exec (flat_map cycle ws) t)) =
    [Sleep 15; Sleep 15; Sleep 15].
Proof.
  intros ws t.
  assert (Hsl : sleeps_for (_config (self t)) 15)
    by (split; [reflexivity|discriminate]).
  split; [repeat split; apply Hsl|].
  destruct (every_pass_sleeps_once string ws 15 t eq_refl eq_refl Hsl)
    as (_ & Hs & _).
  exact Hs.
Defined.

(** A pass with the interval -1: the thread ends at the sleep. *)
Lemma refused_interval_ends_the_thread_witness :
  let t := run (Metadata := string) (__init__ config_negative) in
  let t' := exec (cycle (world_at 100 (Return tt))) t in
  (forall secs, ~ sleeps_for config_negative secs) /\
  place t' = Exited /\
  exec (cycle (world_at 115 (Return tt))) t' = t'.
Proof.
  intros t t'.
  assert (Hno : forall secs, ~ sleeps_for (_config (self t)) secs).
  { intros secs [Hs Hpos]. cbn in Hs. injection Hs as <-. apply Hpos.
    reflexivity. }
  split; [exact Hno|].
  destruct (refused_interval_ends_the_thread string (world_at 100 (Return tt))
              (cycle (world_at 115 (Return tt))) t eq_refl eq_refl Hno eq_refl)
    as (Hp & _ & _ & _ & Hstay).
  split; [exact Hp|exact Hstay].
Defined.

(** A runner that submitted at time 100, through a pass at which the
    interval has gone by and a call to [stop]. *)
Lemma start_event_only_before_first_record_witness :
  let t := run (Metadata := string) (mkRunner config0 false (Some 100)) in
  let schedule := cycle (world_at 20000 (Return tt)) ++ [CallStop] in
  _meta_ts (self t) <> None /\
  exists new,
    trace (exec schedule t) = trace t ++ new /\
    Forall (fun ev => is_start_event ev = false) new.
Proof.
  intros t schedule.
  assert (Hsome : _meta_ts (self t) <> None) by discriminate.
  split; [exact Hsome|].
  destruct (start_event_only_before_first_record string schedule t Hsome)
    as (new & Htr & Hnew & _).
  exists new. split; [exact Htr|exact Hnew].
Defined.

End AgentMore.

(** * Properties of the commands and of the life of the daemon *)

Module AgentCliSpec.
Import AgentCli IbmWasHttp EffWords EffMore EffFacts.

(** *** Sequences with [sys.exit] *)

Section Flow.
Let Plain := Plain.

Lemma emits_plain {A} (P : Call -> Prop) (m : AgentCli.Plain A) :
  emits_only P m -> emits_only P (plain m).
Proof.
  intros Hm. unfold plain. apply emits_bind; [exact Hm|].
  intros a. apply emits_ret.
Qed.

Lemma emits_bindx {A B} (P : Call -> Prop) (m : Cli A) (f : A -> Cli B) :
  emits_only P m -> (forall a, emits_only P (f a)) -> emits_only P (bindx m f).
Proof.
  intros Hm Hf. unfold bindx. apply emits_bind; [exact Hm|].
  intros [a|code]; [apply Hf|apply emits_ret].
Qed.

Lemma emits_retn {A} (P : Call -> Prop) (a : A) : emits_only P (retn a).
Proof. apply emits_ret. Qed.

Lemma emits_sys_exit {A} (P : Call -> Prop) (code : Z) :
  emits_only P (sys_exit code : Cli A).
Proof. apply emits_ret. Qed.

Lemma emits_call {A} (P : Call -> Prop) (c : Call) (r : result A) :
  P c -> emits_only P (call c r : AgentCli.Plain A).
Proof. intros H s. repeat constructor. exact H. Qed.

Lemma emits_lifted {A} (P : Call -> Prop) (r : result A) :
  emits_only P (AgentCli.lift r).
Proof. destruct r; intros s; constructor. Qed.

(** As [emits_bindx], knowing in what follows the value that came. *)
Lemma emits_bindx_res {A B} (P : Call -> Prop) (m : Cli A) (f : A -> Cli B) :
  emits_only P m ->
  (forall a s, res (m s) = Return (Normal a) ->
               Forall P (events (f a (state (m s))))) ->
  emits_only P (bindx m f).
Proof.
  intros Hm Hf s. unfold bindx, bind.
  destruct (res (m s)) as [[a|code]|e] eqn:Hres; cbn.
  - apply Forall_app. split; [apply Hm|apply Hf; exact Hres].
  - rewrite app_nil_r. apply Hm.
  - apply Hm.
Qed.

Lemma plain_res {A} (m : AgentCli.Plain A) (s : unit) (a : A) :
  res (plain m s) = Return (Normal a) -> res (m s) = Return a.
Proof.
  unfold plain, bind. destruct (res (m s)); cbn; congruence.
Qed.

(** The codes a computation can [sys.exit] with. *)
Lemma exits_bindx_res {A B} (P : Z -> Prop) (m : Cli A) (f : A -> Cli B) :
  exits_with P m ->
  (forall a s, res (m s) = Return (Normal a) ->
               forall code, res (f a (state (m s))) = Return (SysExit code) ->
                            P code) ->
  exits_with P (bindx m f).
Proof.
  intros Hm Hf s code. unfold bindx, bind.
  destruct (res (m s)) as [[a|c]|e] eqn:Hres; cbn.
  - apply Hf. exact Hres.
  - intros H. inversion H; subst. exact (Hm s code Hres).
  - discriminate.
Qed.

Lemma exits_bindx {A B} (P : Z -> Prop) (m : Cli A) (f : A -> Cli B) :
  exits_with P m -> (forall a, exits_with P (f a)) ->
  exits_with P (bindx m f).
Proof.
  intros Hm Hf. apply exits_bindx_res; [exact Hm|].
  intros a s _ code. apply Hf.
Qed.

Lemma exits_plain {A} (P : Z -> Prop) (m : AgentCli.Plain A) :
  exits_with P (plain m).
Proof.
  intros s code. unfold plain, bind.
  destruct (res (m s)); cbn; discriminate.
Qed.

Lemma exits_sys_exit {A} (P : Z -> Prop) (code : Z) :
  P code -> exits_with P (sys_exit code : Cli A).
Proof. intros H s c Hc. cbn in Hc. inversion Hc; subst. exact H. Qed.

Lemma exits_retn {A} (P : Z -> Prop) (a : A) : exits_with P (retn a).
Proof. intros s c Hc. cbn in Hc. discriminate. Qed.

(** The values a computation can end normally with. *)
Lemma returns_bindx {A B} (P : B -> Prop) (m : Cli A) (f : A -> Cli B) :
  (forall a, returns_with P (f a)) -> returns_with P (bindx m f).
Proof.
  intros Hf s b. unfold bindx, bind.
  destruct (res (m s)) as [[a|code]|e]; cbn; [apply Hf|discriminate|discriminate].
Qed.

Lemma returns_retn {A} (P : A -> Prop) (a : A) :
  P a -> returns_with P (retn a).
Proof. intros H s b Hb. cbn in Hb. inversion Hb; subst. exact H. Qed.

(** *** Running a sequence step by step *)

Lemma bindx_assoc {A B C} (m : Cli A) (f : A -> Cli B) (g : B -> Cli C)
      (s : unit) :
  bindx (bindx m f) g s = bindx m (fun a => bindx (f a) g) s.
Proof.
  unfold bindx, bind.
  destruct (res (m s)) as [[a|code]|e]; cbn;
    [|rewrite ?app_nil_r; reflexivity|reflexivity].
  destruct (res (f a (state (m s)))) as [[b|code]|e]; cbn;
    rewrite ?app_nil_r, ?app_assoc; reflexivity.
Qed.

Lemma bindx_plain_bind {A B C} (m : AgentCli.Plain A)
      (k : A -> AgentCli.Plain B) (f : B -> Cli C) (s : unit) :
  bindx (plain (bind m k)) f s
  = bindx (plain m) (fun a => bindx (plain (k a)) f) s.
Proof.
  unfold bindx, plain, bind.
  destruct (res (m s)) as [a|e]; cbn; [|reflexivity].
  destruct (res (k a (state (m s)))) as [b|e]; cbn;
    rewrite ?app_nil_r, ?app_assoc; reflexivity.
Qed.

Lemma bindx_plain_run {A B} (m : AgentCli.Plain A) (f : A -> Cli B)
      (s s1 : unit) (evs : list Call) (a : A) :
  m s = mkOut s1 evs (Return a) ->
  bindx (plain m) f s = prepend evs (f a s1).
Proof.
  intros H. unfold bindx, plain, bind, prepend. rewrite H. cbn.
  now rewrite app_nil_r.
Qed.

Lemma bindx_plain_raise {A B} (m : AgentCli.Plain A) (f : A -> Cli B)
      (s s1 : unit) (evs : list Call) (e : Exception) :
  m s = mkOut s1 evs (Raise e) ->
  bindx (plain m) f s = mkOut s1 evs (Raise e).
Proof. intros H. unfold bindx, plain, bind. rewrite H. reflexivity. Qed.

Lemma bindx_emit {B} (c : Call) (f : unit -> Cli B) (s : unit) :
  bindx (plain (emit c)) f s = prepend [c] (f tt s).
Proof. reflexivity. Qed.

Lemma bindx_call {A B} (c : Call) (r : result A) (f : A -> Cli B) (s : unit) :
  bindx (plain (call c r)) f s =
    match r with
    | Return a => prepend [c] (f a s)
    | Raise e => mkOut s [c] (Raise e)
    end.
Proof. destruct r; reflexivity. Qed.

Lemma bindx_retn {A B} (a : A) (f : A -> Cli B) (s : unit) :
  bindx (retn a) f s = prepend [] (f a s).
Proof. reflexivity. Qed.

Lemma bindx_plain_ret {A B} (a : A) (f : A -> Cli B) (s : unit) :
  bindx (plain (ret a)) f s = prepend [] (f a s).
Proof. reflexivity. Qed.

Lemma bindx_plain_raised {A B} (e : Exception) (f : A -> Cli B) (s : unit) :
  bindx (plain (raise e)) f s = mkOut s [] (Raise e).
Proof. reflexivity. Qed.

Lemma bindx_sys_exit {A B} (code : Z) (f : A -> Cli B) (s : unit) :
  bindx (sys_exit code) f s = mkOut s [] (Return (SysExit code)).
Proof. reflexivity. Qed.

Lemma bind_raised {A B} (e : Exception) (f : A -> AgentCli.Plain B) (s : unit) :
  bind (raise e) f s = mkOut s [] (Raise e).
Proof. reflexivity. Qed.
End Flow.

Section World.
Variable StatusDoc : Type.
Variable w : World StatusDoc.

Lemma emits_perform (P : Call -> Prop) (c : Call) :
  P c -> emits_only P (perform w c).
Proof. intros H. apply emits_call. exact H. Qed.

Lemma emits_ask (P : Call -> Prop) (prompt : string) :
  P (Input prompt) -> emits_only P (ask w prompt).
Proof. intros H. apply emits_call. exact H. Qed.

(** A call that may raise, and what follows it. *)
Lemma bind_perform {B} (c : Call) (f : unit -> AgentCli.Plain B) (s : unit) :
  bind (perform w c) f s =
    match fails w c with
    | Some e => mkOut s [c] (Raise e)
    | None => prepend [c] (f tt s)
    end.
Proof. unfold perform. rewrite bind_call. destruct (fails w c); reflexivity. Qed.

Lemma bind_try_perform {B} (c : Call) (h : Exception -> AgentCli.Plain unit)
      (f : unit -> AgentCli.Plain B) (s : unit) :
  bind (try_except (perform w c) None h) f s =
    match fails w c with
    | Some e => prepend [c] (bind (h e) f s)
    | None => prepend [c] (f tt s)
    end.
Proof.
  unfold try_except, perform, call, bind, prepend. cbn.
  destruct (fails w c) as [e|]; cbn; [|reflexivity].
  destruct (res (h e s)); reflexivity.
Qed.

Lemma bindx_perform {B} (c : Call) (f : unit -> Cli B) (s : unit) :
  bindx (plain (perform w c)) f s =
    match fails w c with
    | Some e => mkOut s [c] (Raise e)
    | None => prepend [c] (f tt s)
    end.
Proof. unfold perform. rewrite bindx_call. destruct (fails w c); reflexivity. Qed.

Lemma bindx_perform_ok {B} (c : Call) (f : unit -> Cli B) (s : unit) :
  fails w c = None ->
  bindx (plain (perform w c)) f s = prepend [c] (f tt s).
Proof. intros H. rewrite bindx_perform, H. reflexivity. Qed.

Lemma bindx_try_perform {B} (c : Call) (h : Exception -> AgentCli.Plain unit)
      (f : unit -> Cli B) (s : unit) :
  bindx (plain (try_except (perform w c) None h)) f s =
    match fails w c with
    | Some e => prepend [c] (bindx (plain (h e)) f s)
    | None => prepend [c] (f tt s)
    end.
Proof.
  unfold try_except, perform, call, bindx, plain, bind, prepend. cbn.
  destruct (fails w c) as [e|]; cbn; [|reflexivity].
  destruct (res (h e s)); cbn; rewrite ?app_nil_r; reflexivity.
Qed.

Lemma bindx_ask {B} (prompt : string) (f : string -> Cli B) (s : unit) :
  bindx (plain (ask w prompt)) f s =
    match fails w (Input prompt) with
    | Some e => mkOut s [Input prompt] (Raise e)
    | None => prepend [Input prompt] (f (input w prompt) s)
    end.
Proof.
  unfold ask. rewrite bindx_call. destruct (fails w (Input prompt)); reflexivity.
Qed.

(** One step of a sequence of calls. *)
Ltac step :=
  first [ rewrite bindx_assoc
        | rewrite bindx_plain_bind
        | rewrite bindx_emit
        | rewrite bindx_retn
        | rewrite bindx_plain_ret
        | rewrite bindx_plain_raised
        | rewrite bindx_sys_exit
        | rewrite bindx_perform
        | rewrite bindx_try_perform
        | rewrite bindx_ask
        | rewrite bindx_call
        | rewrite bind_assoc
        | rewrite bind_perform
        | rewrite bind_try_perform
        | rewrite bind_emit
        | rewrite bind_ret
        | rewrite bind_raised ];
  cbv beta.

(** The outcome of a sequence run to its end. *)
Ltac outcome :=
  cbv beta iota delta [prepend state events res app sys_exit retn ret raise].

(** *** [init_config] *)

(** Runs [init_config], splitting on every call that may raise. *)
Ltac run_init :=
  unfold init_config;
  repeat (step;
          try match goal with
              | |- context [match fails w ?c with _ => _ end] =>
                  destruct (fails w c) eqn:?
              end);
  unfold perform, call;
  try match goal with
      | |- context [match fails w ?c with _ => _ end] =>
          destruct (fails w c) eqn:?
      end;
  outcome.

Ltac split_paths H :=
  unfold search_paths in H;
  repeat match goal with
         | H' : Forall _ (_ :: _) |- _ => inversion H'; clear H'; subst
         end.

(** X16. [init_config] sets logging up at most once, and never when it
    is not asked to; when the four search paths are added it does so
    exactly once when asked, whether [config.load()] raises or not.  When
    the load raises, its exception leaves [init_config] after the logging
    is set up, and no place of check configurations is added. *)
Theorem init_config_sets_logging_up_once (do_log : bool) (s : unit) :
  let o := init_config w do_log s in
  let n := length (filter is_InitializeLogging (events o)) in
  (n <= if do_log then 1 else 0)%nat /\
  (Forall (fun c => fails w c = None) search_paths ->
   n = if do_log then 1%nat else 0%nat) /\
  (forall e,
      Forall (fun c => fails w c = None) search_paths ->
      fails w ConfigLoad = Some e ->
      fails w (InitializeLogging "agent") = None ->
      o = mkOut tt
                (search_paths
                   ++ ConfigLoad
                   :: (if do_log then [InitializeLogging "agent"] else []))
                (Raise e)).
Proof.
  destruct s. cbv zeta. split; [|split].
  - destruct do_log; run_init; cbn; lia.
  - intros Hpaths. split_paths Hpaths.
    destruct do_log; run_init; first [congruence | reflexivity].
  - intros e Hpaths Hload Hlog. split_paths Hpaths. unfold search_paths.
    destruct do_log; run_init; cbn [app]; congruence.
Qed.

(** *** [Agent.status] *)

Ltac run_status :=
  cbv beta iota zeta delta
    [status perform ask plain bindx retn sys_exit AgentCli.lift
     try_except bind ret raise emit get put call state events res].

(** Every way through [Agent.status]. *)
Ltac status_cases :=
  run_status;
  destruct (http_get w) as [r|e]; cbn [state events res app];
  [ destruct (raise_for_status r) as [[]|e]; cbn [state events res app];
    [ destruct (json r) as [d|e]; cbn [state events res app];
      [ destruct (truthy w d); cbn [state events res app];
        [ destruct (render w d) | ] | ] | ] | ];
  try match goal with
      | |- context [isinstance ?e ?l] => destruct (isinstance e l)
      end;
  cbn [state events res app filter is_Print negb]; reflexivity.

(** X17. When the request of [Agent.status] fails with an HTTP error, a
    connection error, a timeout or a [ValueError] of the JSON decoder,
    in [requests.get], in [raise_for_status] or in [json], the method
    logs one error line and returns [None]; it prints nothing and does
    not raise, with or without [to_screen]. *)
Theorem status_handles_request_errors (to_screen : bool) (e : Exception)
        (s : unit) :
  status_fails w e ->
  isinstance e [HTTPError; ConnectionError; Timeout; ValueError] = true ->
  status w to_screen s =
    mkOut tt
          [ HttpGet (status_target w) STATUS_TIMEOUT;
            Log Error (status_error_line e) ]
          (Return None).
Proof.
  intros Hfail Hclass. destruct s. run_status. 
  destruct Hfail as [Hget|[(r & Hget & Hst)|(r & Hget & Hst & Hjson)]].
  - rewrite Hget. cbn [state events res app]. rewrite Hclass. reflexivity.
  - rewrite Hget. cbn [state events res app]. rewrite Hst.
    cbn [state events res app]. rewrite Hclass. reflexivity.
  - rewrite Hget. cbn [state events res app]. rewrite Hst.
    cbn [state events res app]. rewrite Hjson. cbn [state events res app].
    rewrite Hclass. reflexivity.
Qed.

(** X18. [to_screen] decides the printing and nothing else: with it the
    method returns what it returns without it and makes the same calls,
    plus the printing of the rendered text; without it nothing is
    printed.  An answer that is empty gives [None] and no line at all. *)
Theorem status_to_screen_only_prints (s : unit) :
  res (status w true s) = res (status w false s) /\
  filter (fun c => negb (is_Print c)) (events (status w true s))
    = events (status w false s) /\
  filter is_Print (events (status w false s)) = [] /\
  (forall r d to_screen,
      http_get w = Return r -> raise_for_status r = Return tt ->
      json r = Return d -> truthy w d = false ->
      status w to_screen s =
        mkOut tt [HttpGet (status_target w) STATUS_TIMEOUT] (Return None)).
Proof.
  destruct s. split; [|split; [|split]].
  - status_cases.
  - status_cases.
  - status_cases.
  - intros r d to_screen Hget Hst Hjson Hempty. run_status.
    rewrite Hget. cbn [state events res app]. rewrite Hst.
    cbn [state events res app]. rewrite Hjson. cbn [state events res app].
    rewrite Hempty. reflexivity.
Qed.

(** What [Agent.status] calls. *)
Lemma status_emits (P : Call -> Prop) (to_screen : bool) :
  (forall c, status_call c -> P c) ->
  emits_only P (status w to_screen).
Proof.
  intros HP. unfold status.
  apply emits_bind.
  - apply emits_try_except.
    + apply emits_bind; [apply emits_call, HP; exact I|]. intros r.
      apply emits_bind; [apply emits_lifted|]. intros _.
      apply emits_bind; [apply emits_lifted|]. intros d. apply emits_ret.
    + intros e. apply emits_bind; [apply emits_emit, HP; exact I|].
      intros _. apply emits_ret.
  - intros [d|]; [|apply emits_ret].
    destruct (truthy w d); [|apply emits_ret].
    apply emits_bind; [apply emits_call, HP; exact I|]. intros rendered.
    apply emits_bind; [|intros _; apply emits_ret].
    destruct to_screen; [apply emits_emit, HP; exact I|apply emits_ret].
Qed.

(** *** [Agent.flare] *)

Lemma ask_res (prompt : string) (s : unit) (a : string) :
  res (ask w prompt s) = Return a -> a = input w prompt.
Proof.
  unfold ask, call. cbn. destruct (fails w (Input prompt)); congruence.
Qed.

(** What [flare] calls, step by step: [Q] holds of the upload and of the
    removal of the archive once it is known that the user consented and,
    for the removal, that the upload succeeded. *)
Lemma flare_emits (P : Call -> Prop) (case_id : string) :
  (forall c, flare_call c -> P c) ->
  (consents w (input w upload_question) = true -> P FlareSubmit) ->
  (consents w (input w upload_question) = true ->
   (exists case_id', submit w = Return (true, case_id')) -> P FlareCleanup) ->
  emits_only P (flare w case_id).
Proof.
  intros Hother Hsubmit Hcleanup.
  assert (Hplain : forall c, flare_call c ->
                             emits_only P (plain (perform w c))).
  { intros c Hc. apply emits_plain, emits_perform, Hother; assumption. }
  assert (Hprint : forall t, emits_only P (plain (emit (Print t)))).
  { intros t. apply emits_plain, emits_emit, Hother; exact I. }
  unfold flare.
  apply emits_bindx;
    [apply emits_plain, emits_ask, Hother; exact I|]. intros answer.
  apply emits_bindx.
  { apply emits_plain.
    destruct (negb (String.eqb case_id EmptyString)); [|apply emits_ret].
    apply emits_bind; [apply emits_lifted|intros; apply emits_ret]. }
  intros case.
  repeat (apply emits_bindx; [apply Hplain; exact I|intros _]).
  apply emits_bindx.
  { apply emits_plain, status_emits. intros c Hc. apply Hother.
    destruct c; try contradiction; exact I. }
  intros rendered.
  apply emits_bindx;
    [apply emits_plain, emits_call, Hother; exact I|]. intros flarepath.
  apply emits_bindx; [apply Hprint|]. intros _.
  apply emits_bindx_res;
    [apply emits_plain, emits_ask, Hother; exact I|].
  intros choice s Hchoice.
  apply plain_res, ask_res in Hchoice. subst choice.
  destruct (consents w (input w upload_question)) eqn:Hyes; cbn [negb].
  - apply emits_bindx_res; [apply emits_plain, emits_call, Hsubmit; reflexivity|].
    intros [success case_id'] s' Hout. apply plain_res in Hout.
    assert (Hsub : submit w = Return (success, case_id')).
    { revert Hout. unfold call. cbn. auto. }
    destruct success; [|apply emits_retn].
    apply emits_bindx.
    + apply emits_plain. destruct (py_truthy case_id');
        apply emits_emit, Hother; exact I.
    + intros _. apply emits_plain, emits_perform, Hcleanup;
        [reflexivity|]. exists case_id'. exact Hsub.
  - apply emits_bindx; [apply Hprint|]. intros _. apply emits_sys_exit.
Qed.

(** X19. [flare] uploads the archive only when the answer to its
    question, stripped and lower-cased, is yes, y or empty: whatever else
    happens, an upload in the trace means the user consented, and so
    does the removal of the archive. *)
Theorem flare_uploads_only_on_consent (case_id : string) (s : unit) :
  let evs := events (flare w case_id s) in
  (In FlareSubmit evs \/ In FlareCleanup evs) ->
  consents w (input w upload_question) = true.
Proof.
  intros evs Hin.
  pose proof (flare_emits
                (fun c => (c = FlareSubmit \/ c = FlareCleanup) ->
                          consents w (input w upload_question) = true)
                case_id) as H.
  assert (Hall : Forall (fun c => (c = FlareSubmit \/ c = FlareCleanup) ->
                                  consents w (input w upload_question) = true)
                        evs).
  { apply H.
    - intros c Hc [H3|H3]; subst; contradiction.
    - intros Hyes _. exact Hyes.
    - intros Hyes _ _. exact Hyes. }
  rewrite Forall_forall in Hall.
  destruct Hin as [Hin|Hin]; apply (Hall _ Hin); auto.
Qed.

(** X20. [flare] removes the archive only after an upload that the
    server reported as a success: a failed upload, a refused one or an
    exception leaves the archive where [create_archive] put it. *)
Theorem flare_cleans_up_only_after_success (case_id : string) (s : unit) :
  In FlareCleanup (events (flare w case_id s)) ->
  exists case_id', submit w = Return (true, case_id').
Proof.
  intros Hin.
  assert (Hall : Forall (fun c => c = FlareCleanup ->
                                  exists case_id', submit w = Return (true, case_id'))
                        (events (flare w case_id s))).
  { apply flare_emits.
    - intros c Hc H3. subst. contradiction.
    - intros _ H. discriminate H.
    - intros _ Hok _. exact Hok. }
  rewrite Forall_forall in Hall. exact (Hall _ Hin eq_refl).
Qed.


(** *** [Agent.run] *)

(** What [Agent.run] calls once the host name and the two settings are
    there: [P] holds of every call made when dogstatsd is off, and of
    the calls for dogstatsd when it is on. *)
Lemma agent_run_emits (P : Call -> Prop) :
  (forall c, match c with
             | InitDogstatsd | New Dsd | Register _ Reporter
             | Register _ DsdServer | Start Reporter | Start Dsd | Join_ Dsd
             | DsdRaiseForStatus | Stop Reporter => dsd_enable w = true
             | Stop Forwarder | Join_ Forwarder | Stop Runner | Stop Api
             | AgentStart _ | AgentStop | AgentRestart => False
             | _ => True
             end -> P c) ->
  emits_only P (agent_run w).
Proof.
  intros HP.
  assert (Hlog : forall l m, emits_only P (plain (emit (Log l m)))).
  { intros l m. apply emits_plain, emits_emit, HP. exact I. }
  unfold agent_run. apply emits_bindx.
  { destruct (get_hostname w).
    - apply emits_plain, emits_call, HP. exact I.
    - apply emits_bindx; [apply emits_plain, emits_emit, HP; exact I|].
      intros _. apply emits_bindx; [apply Hlog|].
      intros _. apply emits_sys_exit.
    - apply emits_plain, emits_call, HP. exact I. }
  intros hostname.
  do 2 (apply emits_bindx; [apply Hlog|intros _]).
  destruct (negb (py_truthy (dd_url w)));
    [apply emits_bindx; [apply Hlog|intros _; apply emits_sys_exit]|].
  destruct (negb (py_truthy (api_key w)));
    [apply emits_bindx; [apply Hlog|intros _; apply emits_sys_exit]|].
  destruct (dsd_enable w) eqn:Hdsd;
    repeat first
      [ apply emits_sys_exit
      | apply emits_retn
      | apply emits_bindx; [|intros ?]
      | apply Hlog
      | apply emits_plain, emits_perform, HP; first [exact I|reflexivity]
      | apply emits_plain, emits_try_except;
        [ apply emits_perform, HP; reflexivity
        | intros e; apply emits_bind;
          [ apply emits_emit, HP; exact I
          | intros _; apply emits_perform, HP; reflexivity ] ] ].
Qed.

(** The codes [Agent.run] leaves with. *)
Lemma agent_run_exits :
  exits_with (fun code => (code = 1%Z /\ cannot_start w) \/ code = 0%Z)
             (agent_run w).
Proof.
  unfold agent_run.
  destruct (get_hostname w) as [h|msg|e] eqn:Hh.
  - apply exits_bindx; [apply exits_plain|]. intros hostname.
    do 2 (apply exits_bindx; [apply exits_plain|intros _]).
    destruct (py_truthy (dd_url w)) eqn:Hurl; cbn [negb].
    + destruct (py_truthy (api_key w)) eqn:Hkey; cbn [negb].
      * destruct (dsd_enable w);
          repeat first
            [ apply exits_sys_exit; right; reflexivity
            | apply exits_retn
            | apply exits_plain
            | apply exits_bindx; [|intros ?] ].
      * apply exits_bindx; [apply exits_plain|]. intros _.
        apply exits_sys_exit. left. split; [reflexivity|].
        right. split; [eexists; exact Hh|right; exact Hkey].
    + apply exits_bindx; [apply exits_plain|]. intros _.
      apply exits_sys_exit. left. split; [reflexivity|].
      right. split; [eexists; exact Hh|left; exact Hurl].
  - apply exits_bindx_res.
    + do 2 (apply exits_bindx; [apply exits_plain|intros _]).
      apply exits_sys_exit. left. split; [reflexivity|].
      left. eexists. exact Hh.
    + intros a [] Hres. exfalso. revert Hres.
      cbv [bindx plain bind emit ret sys_exit res state events]. discriminate.
  - apply exits_bindx_res; [apply exits_plain|].
    intros a [] Hres. exfalso. revert Hres.
    cbv [plain bind call ret res state events]. discriminate.
Qed.

(** X21. [Agent.run] leaves with status 1 exactly when no host name is
    found, or the URL of the intake or the API key is not set; it has
    then only asked for the host name and logged: no object is built,
    nothing is started. *)
Theorem run_exits_1_before_building (s : unit) :
  let o := agent_run w s in
  (res o = Return (SysExit 1) <-> cannot_start w) /\
  (cannot_start w -> forallb is_preamble (events o) = true).
Proof.
  destruct s. cbv zeta.
  assert (Hstop : cannot_start w ->
                  res (agent_run w tt) = Return (SysExit 1) /\
                  forallb is_preamble (events (agent_run w tt)) = true).
  { intros [(msg & Hh)|((h & Hh) & Hset)]; unfold agent_run; rewrite Hh.
    - repeat step. outcome. split; reflexivity.
    - do 3 step. cbv iota.
      destruct Hset as [Hurl|Hkey].
      + rewrite Hurl. cbn [negb]. repeat step. outcome. split; reflexivity.
      + destruct (py_truthy (dd_url w)); cbn [negb]; [rewrite Hkey; cbn [negb]|];
          repeat step; outcome; split; reflexivity. }
  split; [split|].
  - intros Hexit. destruct (agent_run_exits tt 1%Z Hexit) as [[_ H]|H];
      [exact H|discriminate].
  - intros H. apply Hstop, H.
  - intros H. apply Hstop, H.
Qed.

(** X22. When the host name and the two settings are there and no call
    raises, but possibly [dsd.raise_for_status()]: the forwarder is
    started first, then the signal handler, the runner and the API
    server; with dogstatsd on, its reporter and its server are started
    and the server is waited for first, and the reporter is stopped
    when the server ended with an error; then the runner is waited for,
    then the API server, and the signal handler is stopped and waited
    for last; the run leaves with status 0. *)
Theorem run_starts_and_joins_in_order (h : string) (s : unit) :
  get_hostname w = Resolved h ->
  py_truthy (dd_url w) = true ->
  py_truthy (api_key w) = true ->
  (forall c, c <> DsdRaiseForStatus -> fails w c = None) ->
  let o := agent_run w s in
  res o = Return (SysExit 0) /\
  filter is_lifecycle (events o) =
    lifecycle_order w (match fails w DsdRaiseForStatus with
                       | Some _ => [Stop Reporter]
                       | None => []
                       end).
Proof.
  intros Hh Hurl Hkey Hok. destruct s. cbv zeta.
  unfold lifecycle_order, agent_run.
  rewrite Hh, Hurl, Hkey. cbn [negb].
  destruct (dsd_enable w);
    repeat (first [ rewrite bindx_perform_ok by (apply Hok; discriminate)
                  | rewrite bindx_try_perform;
                    destruct (fails w DsdRaiseForStatus)
                  | step ];
            cbv beta iota);
    outcome; split; reflexivity.
Qed.

(** X23. Whatever its calls answer, [Agent.run] itself never stops and
    never waits for the forwarder, and never stops the runner or the
    API server: of what it started it only stops the signal handler
    and, after an error of dogstatsd, the reporter.  And it builds or
    starts nothing of dogstatsd unless the setting [enabled], or
    [enable], of dogstatsd is true. *)
Theorem run_leaves_stopping_to_the_handler (s : unit) :
  let evs := events (agent_run w s) in
  (~ In (Stop Forwarder) evs /\ ~ In (Join_ Forwarder) evs /\
   ~ In (Stop Runner) evs /\ ~ In (Stop Api) evs) /\
  (In InitDogstatsd evs \/ In (Start Dsd) evs \/ In (Start Reporter) evs ->
   py_truthy (match dogstatsd_enabled w with
              | Some v => v
              | None => IbmWas.PyBool false
              end) = true \/
   py_truthy (match dogstatsd_enable w with
              | Some v => v
              | None => IbmWas.PyBool false
              end) = true).
Proof.
  intros evs. split.
  - assert (Hall : Forall (fun c => c <> Stop Forwarder /\ c <> Join_ Forwarder /\
                                    c <> Stop Runner /\ c <> Stop Api) evs).
    { apply agent_run_emits. intros c Hc.
      repeat split; intros ->; exact Hc. }
    rewrite Forall_forall in Hall.
    repeat split; intros Hin; apply Hall in Hin;
      destruct Hin as (H1 & H2 & H3 & H4); congruence.
  - assert (Hall : Forall (fun c => c = InitDogstatsd \/ c = Start Dsd \/
                                    c = Start Reporter -> dsd_enable w = true)
                          evs).
    { apply agent_run_emits. intros c Hc [->|[->| ->]]; exact Hc. }
    rewrite Forall_forall in Hall.
    intros Hin.
    assert (Hon : dsd_enable w = true)
      by (destruct Hin as [Hin|[Hin|Hin]]; apply (Hall _ Hin); auto).
    unfold dsd_enable in Hon.
    destruct (py_truthy (match dogstatsd_enabled w with
                         | Some v => v
                         | None => IbmWas.PyBool false
                         end)); [left; reflexivity|right; exact Hon].
Qed.

(** A call in [w] is the call without failures, or raises. *)
Lemma cut_perform (c : Call) :
  cut_short (perform w c) (perform (without_failures w) c).
Proof.
  intros s. unfold perform, call. cbn [fails without_failures].
  destruct c; destruct (fails w _);
    first [ left; reflexivity
          | right; cbn; split; [eexists; reflexivity|apply begins_refl] ].
Qed.

Lemma cut_plain {A} (m m' : Plain A) :
  cut_short m m' -> cut_short (plain m) (plain m').
Proof. intros H. unfold plain. apply cut_bind; [exact H|intros; apply cut_refl]. Qed.

Lemma cut_bindx {A B} (m m' : Cli A) (f f' : A -> Cli B) :
  cut_short m m' -> (forall a, cut_short (f a) (f' a)) ->
  cut_short (bindx m f) (bindx m' f').
Proof.
  intros Hm Hf. unfold bindx. apply cut_bind; [exact Hm|].
  intros [a|code]; [apply Hf|apply cut_refl].
Qed.

Lemma agent_run_cut :
  cut_short (agent_run w) (agent_run (without_failures w)).
Proof.
  unfold agent_run.
  change (get_hostname (without_failures w)) with (get_hostname w).
  change (dd_url (without_failures w)) with (dd_url w).
  change (api_key (without_failures w)) with (api_key w).
  change (proxies (without_failures w)) with (proxies w).
  change (dsd_enable (without_failures w)) with (dsd_enable w).
  apply cut_bindx; [apply cut_refl|]. intros hostname.
  do 2 (apply cut_bindx; [apply cut_refl|intros _]).
  destruct (negb (py_truthy (dd_url w))); [apply cut_refl|].
  destruct (negb (py_truthy (api_key w))); [apply cut_refl|].
  destruct (dsd_enable w);
    repeat first
      [ apply cut_plain, cut_perform
      | apply cut_plain, cut_try_except; intros e;
        apply cut_bind; [apply cut_refl|intros _; apply cut_perform]
      | apply cut_bindx; [|intros ?]
      | apply cut_refl ].
Qed.

(** X24. A call of [Agent.run] that raises only cuts the run short: the
    calls made until then are the beginning of the calls of the run in
    which nothing raises, in the same order, and a run that does not end
    in an exception is that run.  So nothing is started, stopped or
    waited for out of the order of the run without failures. *)
Theorem run_failure_only_cuts_short (s : unit) :
  let o := agent_run w s in
  let full := agent_run (without_failures w) s in
  begins (events o) (events full) /\
  ((forall e, res o <> Raise e) -> o = full).
Proof.
  cbv zeta. destruct (agent_run_cut s) as [Heq|[[e He] Hb]].
  - rewrite Heq. split; [apply begins_refl|reflexivity].
  - split; [exact Hb|]. intros Hno. exfalso. exact (Hno e He).
Qed.

(** X25. A case id that [int] refuses stops [flare] at once: the
    exception leaves the method after the question for the address, and
    nothing is collected, archived or uploaded. *)
Theorem flare_stops_on_bad_case_id (case_id : string) (e : Exception)
        (s : unit) :
  case_id <> EmptyString ->
  py_int w case_id = Raise e ->
  fails w (Input email_question) = None ->
  flare w case_id s = mkOut tt [Input email_question] (Raise e).
Proof.
  intros Hne Hint Hask. destruct s.
  apply String.eqb_neq in Hne.
  unfold flare. step. rewrite Hask. cbv zeta.
  rewrite Hne. cbn [negb]. step. rewrite Hint. cbn [AgentCli.lift].
  step. reflexivity.
Qed.

(** *** [main] *)

Lemma init_config_emits (P : Call -> Prop) (do_log : bool) :
  (forall c, init_call do_log c -> P c) ->
  emits_only P (init_config w do_log).
Proof.
  intros HP. unfold init_config.
  do 4 (apply emits_bind; [apply emits_perform, HP; exact I|intros _]).
  apply emits_bind.
  { apply emits_try_except; [apply emits_perform, HP; exact I|].
    intros e. apply emits_bind; [|intros _; apply emits_raise].
    destruct do_log eqn:E;
      [apply emits_perform, HP; reflexivity|apply emits_ret]. }
  intros _. apply emits_bind.
  { destruct do_log eqn:E;
      [apply emits_perform, HP; reflexivity|apply emits_ret]. }
  intros _.
  repeat (apply emits_bind; [apply emits_perform, HP; exact I|intros _]).
  apply emits_perform, HP. exact I.
Qed.

(** What [main] calls, by its options and its command. *)
Lemma main_emits (P : Call -> Prop) (options : Options) (command : string)
      (rest : list string) :
  (forall c,
      match c with
      | StderrWrite _ | NewAgent _ | FlareSubmit | FlareCleanup => True
      | AgentStart foreground =>
          command = "start" /\ manual options = true /\
          foreground = negb (background options)
      | AgentStop => command = "stop"
      | AgentRestart => command = "restart" /\ manual options = true
      | InitializeLogging _ => wants_log options command = true
      | AddSearchPath _ | ConfigLoad | NewFileProvider | AddPlace _
      | AddProvider _ | CollectCheckConfigs => True
      | _ => flare_call c
      end -> P c) ->
  emits_only P (main w options (command :: rest)).
Proof.
  intros HP.
  assert (Hlog : forall l m, emits_only P (plain (emit (Log l m)))).
  { intros l m. apply emits_plain, emits_emit, HP. exact I. }
  assert (Herr : forall t, emits_only P (plain (emit (StderrWrite t)))).
  { intros t. apply emits_plain, emits_emit, HP. exact I. }
  unfold main.
  destruct (negb (str_in command (dict_keys COMMANDS)));
    [apply emits_bindx; [apply Herr|intros _; apply emits_retn]|].
  apply emits_bindx.
  { apply emits_plain, emits_try_except.
    - apply emits_bind; [|intros _; apply emits_ret].
      apply init_config_emits. intros c Hc. apply HP.
      destruct c; try contradiction; try exact I. exact Hc.
    - intros e. apply emits_bind; [apply emits_emit, HP; exact I|].
      intros _. apply emits_ret. }
  intros loaded. destruct (negb loaded); [apply emits_retn|].
  apply emits_bindx.
  { destruct (negb (packaged w)); [|apply emits_retn].
    apply emits_bindx; [apply Hlog|intros _; apply emits_retn]. }
  intros pid_dir.
  apply emits_bindx; [apply emits_plain, emits_perform, HP; exact I|].
  intros _.
  destruct (String.eqb_spec "start" command) as [<-|Hstart].
  { destruct (manual options) eqn:Hm.
    - apply emits_bindx; [apply Hlog|intros _].
      apply emits_bindx; [|intros _; apply emits_retn].
      apply emits_plain, emits_perform, HP. auto.
    - apply emits_bindx; [apply Herr|intros _; apply emits_retn]. }
  destruct (String.eqb_spec "stop" command) as [<-|Hstop].
  { apply emits_bindx; [apply Hlog|intros _].
    apply emits_bindx; [|intros _; apply emits_retn].
    apply emits_plain, emits_perform, HP. reflexivity. }
  destruct (String.eqb_spec "restart" command) as [<-|Hrestart].
  { destruct (manual options) eqn:Hm.
    - apply emits_bindx; [apply Hlog|intros _].
      apply emits_bindx; [|intros _; apply emits_retn].
      apply emits_plain, emits_perform, HP. auto.
    - apply emits_bindx; [apply Herr|intros _; apply emits_retn]. }
  destruct (String.eqb "status" command).
  { apply emits_bindx; [|intros _; apply emits_retn].
    apply emits_plain, status_emits. intros c Hc. apply HP.
    destruct c; try contradiction; exact I. }
  destruct (String.eqb "flare" command); [|apply emits_retn].
  apply emits_bindx; [apply emits_plain, emits_ask, HP; exact I|].
  intros answer.
  apply emits_bindx; [|intros _; apply emits_retn].
  apply flare_emits.
  - intros c Hc. apply HP. destruct c; try contradiction; exact I.
  - intros _. apply HP. exact I.
  - intros _ _. apply HP. exact I.
Qed.

(** X26. [main] starts the daemon only for the command [start] given
    with the option [manual], and then in the foreground unless
    [background] is set; it restarts it only for [restart] with [manual];
    it stops it only for [stop]. *)
Theorem main_drives_the_daemon_by_hand (options : Options)
        (command : string) (rest : list string) (s : unit) :
  let evs := events (main w options (command :: rest) s) in
  (forall foreground,
      In (AgentStart foreground) evs ->
      command = "start" /\ manual options = true /\
      foreground = negb (background options)) /\
  (In AgentRestart evs -> command = "restart" /\ manual options = true) /\
  (In AgentStop evs -> command = "stop").
Proof.
  intros evs.
  assert (Hall : Forall (fun c =>
                           match c with
                           | AgentStart foreground =>
                               command = "start" /\ manual options = true /\
                               foreground = negb (background options)
                           | AgentStop => command = "stop"
                           | AgentRestart =>
                               command = "restart" /\ manual options = true
                           | _ => True
                           end) evs).
  { apply main_emits. intros c Hc. destruct c; try exact I; exact Hc. }
  rewrite Forall_forall in Hall.
  repeat split; intros; apply (Hall _ H).
Qed.

(** X27. [main] has logging set up only when the option [logging] is
    given or the command is [start] or [stop]; for [restart], [status]
    and [flare] without the option, no run of [main] sets logging up. *)
Theorem main_logs_for_start_and_stop (options : Options)
        (command : string) (rest : list string) (s : unit) (name : string) :
  In (InitializeLogging name) (events (main w options (command :: rest) s)) ->
  logging options = true \/ command = "start" \/ command = "stop".
Proof.
  intros Hin.
  assert (Hall : Forall (fun c =>
                           match c with
                           | InitializeLogging _ =>
                               wants_log options command = true
                           | _ => True
                           end)
                        (events (main w options (command :: rest) s))).
  { apply main_emits. intros c Hc. destruct c; try exact I; exact Hc. }
  rewrite Forall_forall in Hall. specialize (Hall _ Hin). cbn in Hall.
  unfold wants_log in Hall. apply orb_true_iff in Hall as [H|H]; [now left|].
  right. unfold COMMANDS in H. cbn [dict_get] in H.
  destruct (String.eqb_spec command "start"); [now left|].
  destruct (String.eqb_spec command "stop"); [now right|].
  destruct (String.eqb command "restart"); [discriminate|].
  destruct (String.eqb command "status"); [discriminate|].
  destruct (String.eqb command "flare"); discriminate.
Qed.

Lemma str_in_false (x : string) (xs : list string) :
  str_in x xs = false <-> ~ In x xs.
Proof.
  unfold str_in. split.
  - intros H Hin. assert (existsb (String.eqb x) xs = true); [|congruence].
    apply existsb_exists. exists x. split; [exact Hin|apply String.eqb_refl].
  - intros Hno. destruct (existsb (String.eqb x) xs) eqn:E; [|reflexivity].
    exfalso. apply Hno. apply existsb_exists in E as (k & Hk & Heq).
    apply String.eqb_eq in Heq. subst. exact Hk.
Qed.



(** With one of its five commands [main] returns 1 or reaches its end. *)
Lemma main_returns (options : Options) (command : string)
      (rest : list string) :
  str_in command (dict_keys COMMANDS) = true ->
  returns_with (fun v => v = None \/ v = Some 1%Z)
               (main w options (command :: rest)).
Proof.
  intros Hin. unfold main. rewrite Hin. cbn [negb]. cbv zeta.
  repeat first
    [ apply returns_retn; auto
    | apply returns_bindx; intros ?
    | match goal with
      | |- returns_with _ (if ?b then _ else _) => destruct b
      end ].
Qed.

(** X28. [main] returns 2 exactly when it is given no command, and then
    it has only written the usage to the standard error; it returns 3
    exactly when the command is none of the five, and then it has only
    written that the command is unknown.  In both cases it has read no
    configuration and built no agent.  With one of the five commands it
    returns 1 or reaches its end. *)
Theorem main_return_codes (options : Options) (args : list string)
        (s : unit) :
  let o := main w options args s in
  let known := ["start"; "stop"; "restart"; "status"; "flare"] in
  (args = [] ->
   o = mkOut tt
             [StderrWrite ("Usage: " ++ argv0 w
                           ++ " start|stop|restart|status|flare" ++ nl)]
             (Return (Normal (Some 2%Z)))) /\
  (forall command rest,
      args = command :: rest -> ~ In command known ->
      o = mkOut tt
                [StderrWrite (CRED ++ "Unknown command: " ++ command
                              ++ nl ++ CEND)]
                (Return (Normal (Some 3%Z)))) /\
  (res o = Return (Normal (Some 2%Z)) -> args = []) /\
  (res o = Return (Normal (Some 3%Z)) ->
   exists command rest, args = command :: rest /\ ~ In command known) /\
  (forall v, res o = Return (Normal v) ->
             In v [None; Some 1%Z; Some 2%Z; Some 3%Z]).
Proof.
  destruct s. cbv zeta.
  assert (Hbad : forall command rest,
             ~ In command ["start"; "stop"; "restart"; "status"; "flare"] ->
             main w options (command :: rest) tt =
               mkOut tt
                     [StderrWrite (CRED ++ "Unknown command: " ++ command
                                   ++ nl ++ CEND)]
                     (Return (Normal (Some 3%Z)))).
  { intros command rest Hno. unfold main.
    rewrite (proj2 (str_in_false command (dict_keys COMMANDS)) Hno).
    reflexivity. }
  split; [intros ->; reflexivity|].
  split; [intros command rest -> Hno; apply Hbad; exact Hno|].
  destruct args as [|command rest].
  - split; [reflexivity|]. split; [discriminate|].
    intros v Hv. cbn in Hv. inversion Hv; subst. cbn. auto.
  - destruct (str_in command (dict_keys COMMANDS)) eqn:Hin.
    + pose proof (main_returns options command rest Hin tt) as Hret.
      split; [intros H; destruct (Hret _ H); discriminate|].
      split; [intros H; destruct (Hret _ H); discriminate|].
      intros v Hv. destruct (Hret _ Hv) as [-> | ->]; cbn; auto.
    + apply str_in_false in Hin.
      rewrite (Hbad command rest Hin). cbn [res].
      split; [discriminate|].
      split; [intros _; exists command, rest; split; [reflexivity|exact Hin]|].
      intros v Hv. inversion Hv; subst. cbn. auto.
Qed.


(** X29. When [init_config] raises, for a command that is one of the
    five, [main] logs the problem and returns 1: after the calls of
    [init_config] it makes this one log call and builds no agent. *)
Theorem main_returns_1_when_config_fails (options : Options)
        (command : string) (rest : list string) (e : Exception) (s : unit) :
  In command ["start"; "stop"; "restart"; "status"; "flare"] ->
  res (init_config w (wants_log options command) s) = Raise e ->
  main w options (command :: rest) s =
    mkOut tt
          (events (init_config w (wants_log options command) s)
             ++ [Log Error (CRED ++ "Problem initializing configuration: "
                            ++ exc_msg e ++ CEND)])
          (Return (Normal (Some 1%Z))).
Proof.
  intros Hin Hres. destruct s. unfold main.
  assert (Hkeys : str_in command (dict_keys COMMANDS) = true).
  { apply existsb_exists. exists command. split; [exact Hin|].
    apply String.eqb_refl. }
  rewrite Hkeys. cbn [negb]. cbv zeta.
  erewrite bindx_plain_run.
  2: { unfold try_except, bind. rewrite Hres. cbv beta iota.
       cbn [state events res emit ret]. reflexivity. }
  cbn [negb]. unfold prepend, retn, ret. cbn [state events res].
  rewrite !app_nil_r.
  destruct (state (init_config w (wants_log options command) tt)).
  reflexivity.
Qed.

End World.

(** *** The properties at sample inputs *)

Import MoreSamples.

(** A list is shown to hold a call by its place in it. *)
Ltac in_calls := vm_compute; repeat (first [left; reflexivity | right]).

(** [config.load()] raises: logging is set up, then the exception leaves. *)
Lemma init_config_sets_logging_up_once_witness :
  let w := cli_world "y" agent_up host1 None load_fails in
  init_config w true tt =
    mkOut tt
          (search_paths ++ [ConfigLoad; InitializeLogging "agent"])
          (Raise (mkExc ValueError "no config file")).
Proof.
  intros w.
  destruct (init_config_sets_logging_up_once string w true tt) as (_ & _ & H).
  apply H; [repeat constructor|reflexivity|reflexivity].
Defined.

(** The agent is not running: the connection is refused. *)
Lemma status_handles_request_errors_witness :
  let w := cli_world "y" (Raise agent_down) host1 None nothing_fails in
  status_fails w agent_down /\
  status w true tt =
    mkOut tt
          [ HttpGet "http://localhost:5000/status" 5;
            Log Error "Problem connecting or connection timed out, is the agent up? Error: Connection refused" ]
          (Return None).
Proof.
  intros w.
  assert (H : status_fails w agent_down) by (left; reflexivity).
  split; [exact H|].
  exact (status_handles_request_errors string w true agent_down tt H eq_refl).
Defined.

(** The user answers [Y]: the archive is uploaded. *)
Lemma flare_uploads_only_on_consent_witness :
  let w := cli_world "Y" agent_up host1 None nothing_fails in
  In FlareSubmit (events (flare w EmptyString tt)) /\
  consents w (input w upload_question) = true.
Proof.
  intros w.
  assert (Hin : In FlareSubmit (events (flare w EmptyString tt))) by in_calls.
  split; [exact Hin|].
  exact (flare_uploads_only_on_consent string w EmptyString tt (or_introl Hin)).
Defined.

(** The upload succeeds: the archive is removed. *)
Lemma flare_cleans_up_only_after_success_witness :
  let w := cli_world "y" agent_up host1 None nothing_fails in
  In FlareCleanup (events (flare w "42" tt)) /\
  exists case_id', submit w = Return (true, case_id').
Proof.
  intros w.
  assert (Hin : In FlareCleanup (events (flare w "42" tt))) by in_calls.
  split; [exact Hin|].
  exact (flare_cleans_up_only_after_success string w "42" tt Hin).
Defined.

(** No host name: status 1 after the critical line. *)
Lemma run_exits_1_before_building_witness :
  let w := cli_world "y" agent_up
                     (NoHostname "Unable to reliably determine host name.")
                     None nothing_fails in
  cannot_start w /\
  res (agent_run w tt) = Return (SysExit 1) /\
  forallb is_preamble (events (agent_run w tt)) = true.
Proof.
  intros w.
  assert (Hc : cannot_start w) by (left; eexists; reflexivity).
  split; [exact Hc|].
  destruct (run_exits_1_before_building string w tt) as [[_ Hres] Hev].
  split; [exact (Hres Hc)|exact (Hev Hc)].
Defined.

(** Dogstatsd is on and its server ends with an error. *)
Lemma run_starts_and_joins_in_order_witness :
  let w := cli_world "y" agent_up host1 (Some (IbmWas.PyBool true)) dsd_fails in
  let o := agent_run w tt in
  (forall c, c <> DsdRaiseForStatus -> fails w c = None) /\
  res o = Return (SysExit 0) /\
  filter is_lifecycle (events o) =
    [ Start Forwarder; Start Handler; Start Runner; Start Api;
      Start Reporter; Start Dsd; Join_ Dsd; Stop Reporter;
      Join_ Runner; Join_ Api; Stop Handler; Join_ Handler ].
Proof.
  intros w o.
  assert (Hok : forall c, c <> DsdRaiseForStatus -> fails w c = None).
  { intros c Hc. destruct c; try reflexivity. contradiction Hc. reflexivity. }
  split; [exact Hok|].
  exact (run_starts_and_joins_in_order string w "host1" tt
           eq_refl eq_refl eq_refl Hok).
Defined.

(** A case id that is no number. *)
Lemma flare_stops_on_bad_case_id_witness :
  let w := cli_world_with (fun text => Raise (no_number text))
                          "y" agent_up host1 None nothing_fails in
  flare w "abc" tt =
    mkOut tt [Input email_question] (Raise (no_number "abc")).
Proof.
  intros w.
  apply (flare_stops_on_bad_case_id string w "abc" (no_number "abc") tt);
    [discriminate|reflexivity|reflexivity].
Defined.

(** [start] with the option [manual] and without [background]. *)
Lemma main_drives_the_daemon_by_hand_witness :
  let w := cli_world "y" agent_up host1 None nothing_fails in
  let options := mkOptions false false true in
  In (AgentStart true) (events (main w options ["start"] tt)) /\
  manual options = true /\ true = negb (background options).
Proof.
  intros w options.
  assert (Hin : In (AgentStart true) (events (main w options ["start"] tt)))
    by in_calls.
  split; [exact Hin|].
  destruct (main_drives_the_daemon_by_hand string w options "start" [] tt)
    as [Hstart _].
  destruct (Hstart true Hin) as (_ & Hm & Hf). split; assumption.
Defined.

(** [stop] without the option [logging]: logging is set up. *)
Lemma main_logs_for_start_and_stop_witness :
  let w := cli_world "y" agent_up host1 None nothing_fails in
  let options := mkOptions false false false in
  In (InitializeLogging "agent") (events (main w options ["stop"] tt)) /\
  (logging options = true \/ "stop" = "start" \/ "stop" = "stop").
Proof.
  intros w options.
  assert (Hin : In (InitializeLogging "agent")
                   (events (main w options ["stop"] tt))) by in_calls.
  split; [exact Hin|].
  exact (main_logs_for_start_and_stop string w options "stop" [] tt "agent" Hin).
Defined.

(** [status] when the configuration cannot be loaded. *)
Lemma main_returns_1_when_config_fails_witness :
  let w := cli_world "y" agent_up host1 None load_fails in
  let options := mkOptions false false false in
  main w options ["status"] tt =
    mkOut tt
          (search_paths
             ++ [ ConfigLoad;
                  Log Error (CRED ++ "Problem initializing configuration: no config file"
                             ++ CEND) ])
          (Return (Normal (Some 1%Z))).
Proof.
  intros w options.
  apply (main_returns_1_when_config_fails string w options "status" []
           (mkExc ValueError "no config file") tt);
    [in_calls|reflexivity].
Defined.


End AgentCliSpec.
